(** * Roller Bets: the bet ledger and its derived statistics

    A shallow embedding of the tracker page and of the insights page
    of the Roller Bets application, with the properties of its return
    calculator, filters, aggregates, editing and soft delete.

    Modelling conventions.
    - A JavaScript [number] is modelled as an exact rational ([Q]):
      sums, products and quotients are the mathematical ones, so the
      binary rounding of IEEE doubles is outside the model.  [NaN] and
      the infinities are not numbers of the model; where the code can
      produce or hold one, the model uses [option].
    - [+x.toFixed(f)] is [toFixed f x]: the nearest multiple of
      [10^-f], a tie going away from zero.
    - A string is a [string] of 8-bit characters; [toLowerCase] and
      [trim] act on the ASCII letters and the ASCII white space.
    - [undefined] and [null] are [None].
    - The clock, the identifier generator, [Number] and [Date] belong
      to the platform: they are arguments of the functions that use
      them. *)

From Stdlib Require Import ZArith QArith Qround Qabs Qminmax.
From Stdlib Require Import List Bool Ascii String Permutation Sorted.
From Stdlib Require Import Lia Lqa Setoid Morphisms.
Import ListNotations.

Open Scope Q_scope.

(** ** Numbers *)

Module JS.

Definition number : Type := Q.

(** [10^f], the scale of [f] decimals. *)
Definition pow10 (f : nat) : positive := Nat.iter f (Pos.mul 10) 1%positive.

(** The integer nearest to [x]; of the two nearest ones, the one of
    larger magnitude. *)
Definition roundHalfAway (x : Q) : Z :=
  if Qle_bool 0 x then Qfloor (x + (1 # 2))
  else (- Qfloor (- x + (1 # 2)))%Z.

(** [+x.toFixed(f)] *)
Definition toFixed (f : nat) (x : number) : number :=
  roundHalfAway (x * inject_Z (Zpos (pow10 f))) # pow10 f.

(** [Math.max(a, b)] and [Math.min(a, b)] on numbers. *)
Definition max (a b : number) : number := Qmax a b.
Definition min (a b : number) : number := Qmin a b.

(** [x ?? d] *)
Definition orElse {A : Type} (x : option A) (d : A) : A :=
  match x with Some v => v | None => d end.

(** A value is on the grid of [f] decimals when it is a whole number
    of units of [10^-f]. *)
Definition onGrid (f : nat) (x : Q) : Prop := exists n : Z, x == n # pow10 f.

(** *** Strings *)

Definition isSpace (c : ascii) : bool :=
  let n := nat_of_ascii c in
  ((9 <=? n) && (n <=? 13))%nat || (n =? 32)%nat.

Fixpoint trimStart (s : string) : string :=
  match s with
  | EmptyString => EmptyString
  | String c t => if isSpace c then trimStart t else s
  end.

(** [trimEnd] drops the white space that ends the string. *)
Fixpoint trimEnd (s : string) : string :=
  match s with
  | EmptyString => EmptyString
  | String c t =>
      match trimEnd t with
      | EmptyString => if isSpace c then EmptyString else String c EmptyString
      | t' => String c t'
      end
  end.

Definition trim (s : string) : string := trimEnd (trimStart s).

(** The truth value of a string: every string but the empty one. *)
Definition truthy (s : string) : bool :=
  match s with EmptyString => false | _ => true end.

Definition lowerChar (c : ascii) : ascii :=
  let n := nat_of_ascii c in
  if ((65 <=? n) && (n <=? 90))%nat then ascii_of_nat (n + 32) else c.

Fixpoint toLowerCase (s : string) : string :=
  match s with
  | EmptyString => EmptyString
  | String c t => String (lowerChar c) (toLowerCase t)
  end.

Fixpoint startsWith (q s : string) : bool :=
  match q, s with
  | EmptyString, _ => true
  | String a q', String b s' => Ascii.eqb a b && startsWith q' s'
  | String _ _, EmptyString => false
  end.

(** [s.includes(q)] *)
Fixpoint includes (s q : string) : bool :=
  startsWith q s ||
  match s with
  | EmptyString => false
  | String _ t => includes t q
  end.

(** [a < b], [a > b] and [a.localeCompare(b)] on strings: the order of
    the character codes.  The application compares dates only
    (yyyy-mm-dd), on which the collation of [localeCompare] is that
    order. *)
Definition lt (a b : string) : bool := String.ltb a b.
Definition gt (a b : string) : bool := String.ltb b a.
Definition localeCompare (a b : string) : comparison := String.compare a b.

(** *** Stable sort

    [xs.sort(cmp)]: [Array.prototype.sort] is stable, and with a
    comparator that is a total preorder its result is the one sorted
    list that keeps the elements that compare equal in their order.
    [sort] computes it by insertion.  [cmp x y] is the sign of the
    comparator at [(x, y)]: [Gt] when it is positive, that is when [x]
    has to come after [y]. *)
Section Sort.
Context {A : Type}.
Variable cmp : A -> A -> comparison.

Fixpoint insert (x : A) (l : list A) : list A :=
  match l with
  | [] => [x]
  | y :: l' =>
      match cmp x y with
      | Gt => y :: insert x l'
      | _ => x :: l
      end
  end.

Definition sort (l : list A) : list A := fold_right insert [] l.
End Sort.

(** The sign of [a - b]: what a comparator [(a, b) => a - b] returns. *)
Definition sign (a b : number) : comparison := Qcompare a b.

(** [a < b], [a <= b], [a > b], [a >= b] on numbers. *)
Definition ltb (a b : number) : bool := negb (Qle_bool b a).
Definition leb (a b : number) : bool := Qle_bool a b.
Definition gtb (a b : number) : bool := ltb b a.
Definition geb (a b : number) : bool := leb b a.

(** A length or a count as a number. *)
Definition ofNat (n : nat) : number := inject_Z (Z.of_nat n).

(** *** [Map]

    A [Map] keeps its keys in the order of their first insertion, which
    is the order [entries()] lists them in. *)
Section Map.
Context {K V : Type}.
Variable eqb : K -> K -> bool.

Fixpoint mapGet (k : K) (m : list (K * V)) : option V :=
  match m with
  | [] => None
  | (k', v) :: m' => if eqb k k' then Some v else mapGet k m'
  end.

Fixpoint mapSet (k : K) (v : V) (m : list (K * V)) : list (K * V) :=
  match m with
  | [] => [(k, v)]
  | (k', v') :: m' =>
      if eqb k k' then (k, v) :: m' else (k', v') :: mapSet k v m'
  end.
End Map.

(** [s.slice(a, b)] for indices that are not negative. *)
Definition slice (a b : nat) (s : string) : string :=
  String.substring a (b - a) s.

(** [Math.min(a, ...xs)] and [Math.max(a, ...xs)]. *)
Definition minOf (a : number) (xs : list number) : number :=
  fold_left Qmin xs a.
Definition maxOf (a : number) (xs : list number) : number :=
  fold_left Qmax xs a.

(** [Math.abs(x)] *)
Definition abs (x : number) : number := Qabs x.

(** [xs.map((x, i) => f(x, i))], the index starting at [i]. *)
Fixpoint mapiFrom {A B : Type} (i : nat) (f : A -> nat -> B) (l : list A)
  : list B :=
  match l with
  | [] => []
  | x :: t => f x i :: mapiFrom (S i) f t
  end.
Definition mapi {A B : Type} (f : A -> nat -> B) (l : list A) : list B :=
  mapiFrom O f l.

End JS.

(** ** The record types (both pages declare the same ones) *)

Inductive Sport : Type := Football | Cricket | Tennis | OtherSport.
Inductive BetStatus : Type := Pending | Won | Lost.
Inductive FootballCategory : Type :=
  Goals | Corners | Result | DoubleChance | OtherCategory.

Record Bet : Type := mkBet {
  id : string;
  date : string;
  description : string;
  sport : Sport;
  category : option FootballCategory;
  stake : JS.number;
  oddsDecimal : JS.number;
  status : BetStatus;
  returnOverride : option JS.number;
  settledAt : option string;
  createdAt : string;
  updatedAt : string
}.

Record AppState : Type := mkAppState {
  targetProfit : JS.number;
  startingBankroll : option JS.number;
  darkTheme : bool
}.

Definition sport_eqb (a b : Sport) : bool :=
  match a, b with
  | Football, Football | Cricket, Cricket
  | Tennis, Tennis | OtherSport, OtherSport => true
  | _, _ => false
  end.

Definition status_eqb (a b : BetStatus) : bool :=
  match a, b with
  | Pending, Pending | Won, Won | Lost, Lost => true
  | _, _ => false
  end.

Definition category_eqb (a b : FootballCategory) : bool :=
  match a, b with
  | Goals, Goals | Corners, Corners | Result, Result
  | DoubleChance, DoubleChance | OtherCategory, OtherCategory => true
  | _, _ => false
  end.

(** The strings the enumerations are at run time. *)
Definition sportName (s : Sport) : string :=
  match s with
  | Football => "Football" | Cricket => "Cricket"
  | Tennis => "Tennis" | OtherSport => "Other"
  end%string.

Definition statusName (s : BetStatus) : string :=
  match s with Pending => "Pending" | Won => "Won" | Lost => "Lost" end%string.

(** ** The return calculator *)

Definition isSettled (s : BetStatus) : bool :=
  status_eqb s Won || status_eqb s Lost.

Definition defaultReturn (bet : Bet) : option JS.number :=
  if status_eqb (status bet) Won
  then Some (JS.toFixed 2 (stake bet * oddsDecimal bet))
  else if status_eqb (status bet) Lost then Some 0
  else None.

(** [effectiveReturn] of the tracker page. *)
Definition effectiveReturn (bet : Bet) : option JS.number :=
  if isSettled (status bet) then
    match returnOverride bet with
    | Some r => Some (JS.toFixed 2 r)
    | None => defaultReturn bet
    end
  else None.

(** The sums the pages take with [reduce]. *)
Definition sumStake (l : list Bet) : JS.number :=
  fold_left (fun s b => s + stake b) l 0.

Definition sumReturn (l : list Bet) : JS.number :=
  fold_left (fun s b => s + JS.orElse (effectiveReturn b) 0) l 0.

Definition settledOf (l : list Bet) : list Bet :=
  List.filter (fun b => isSettled (status b)) l.

Definition wonOf (l : list Bet) : list Bet :=
  List.filter (fun b => status_eqb (status b) Won) l.

(** ** The tracker page *)

Module Point.
Record t : Type := mk { date : string; value : JS.number }.
End Point.

Module Form.
Record t : Type := mk {
  date : string;
  description : string;
  sport : Sport;
  category : option FootballCategory;
  stake : string;
  oddsDecimal : string;
  status : BetStatus;
  returnOverride : option string
}.
End Form.

Module EditVals.
Record t : Type := mk {
  stake : string;
  oddsDecimal : string;
  status : BetStatus;
  category : option FootballCategory;
  returnOverride : option string
}.
End EditVals.

(** The filter of the tracker: ["All"] is [None]; [from] and [to] are
    optional properties. *)
Module Filter.
Record t : Type := mk {
  sport : option Sport;
  status : option BetStatus;
  from : option string;
  to : option string;
  search : string
}.
Definition initial : t := mk None None None None EmptyString.
End Filter.

Module Totals.
Record t : Type := mk {
  totalStaked : JS.number;
  totalReturned : JS.number;
  profit : JS.number;
  winRate : JS.number;
  progress : JS.number
}.
End Totals.

(** A point of the line chart. *)
Module ChartPoint.
Record t : Type := mk { x : JS.number; y : JS.number; label : string }.
End ChartPoint.

(** The accumulator and the row of the category table of the ledger. *)
Module CatStat.
Record t : Type := mk {
  bets : nat;
  settled : nat;
  stakedSettled : JS.number;
  returned : JS.number;
  wins : nat
}.
Definition zero : t := mk O O 0 0 O.
End CatStat.

Module CatStatRow.
Record t : Type := mk {
  category : option FootballCategory;
  bets : nat;
  settled : nat;
  staked : JS.number;
  returned : JS.number;
  profit : JS.number;
  roi : JS.number;
  winRate : JS.number
}.
End CatStatRow.

(** The keys of the category tables: a category, or ["Uncategorised"]
    ([None]). *)
Definition key_eqb (a b : option FootballCategory) : bool :=
  match a, b with
  | Some x, Some y => category_eqb x y
  | None, None => true
  | _, _ => false
  end.

Module Tracker.

(** The state of the component [RollerBetsTracker]. *)
Record Model : Type := mkModel {
  state : AppState;
  bets : list Bet;
  lastDeleted : option Bet;
  form : Form.t;
  filter : Filter.t;
  editingId : option string;
  editVals : EditVals.t
}.

Definition setBets (f : list Bet -> list Bet) (m : Model) : Model :=
  mkModel (state m) (f (bets m)) (lastDeleted m) (form m) (filter m)
          (editingId m) (editVals m).

Definition setLastDeleted (d : option Bet) (m : Model) : Model :=
  mkModel (state m) (bets m) d (form m) (filter m) (editingId m) (editVals m).

Definition setForm (f : Form.t -> Form.t) (m : Model) : Model :=
  mkModel (state m) (bets m) (lastDeleted m) (f (form m)) (filter m)
          (editingId m) (editVals m).

Definition setFilter (f : Filter.t) (m : Model) : Model :=
  mkModel (state m) (bets m) (lastDeleted m) (form m) f
          (editingId m) (editVals m).

Definition setEditingId (i : option string) (m : Model) : Model :=
  mkModel (state m) (bets m) (lastDeleted m) (form m) (filter m)
          i (editVals m).

Definition setEditVals (v : EditVals.t) (m : Model) : Model :=
  mkModel (state m) (bets m) (lastDeleted m) (form m) (filter m)
          (editingId m) v.

Definition clamp01 (v : JS.number) : JS.number := JS.max 0 (JS.min 1 v).

(** *** Derived metrics *)

Definition totals (m : Model) : Totals.t :=
  let settled := settledOf (bets m) in
  let totalStaked := JS.toFixed 2 (sumStake (bets m)) in
  let totalReturned := JS.toFixed 2 (sumReturn settled) in
  let profit := JS.toFixed 2 (totalReturned - sumStake settled) in
  let winRate :=
    match List.length settled with
    | O => 0
    | _ => JS.ofNat (List.length (wonOf settled)) / JS.ofNat (List.length settled)
    end in
  let progress :=
    if JS.gtb (targetProfit (state m)) 0
    then clamp01 (profit / targetProfit (state m))
    else 0 in
  Totals.mk totalStaked totalReturned profit winRate progress.

(** The loop of [cumulative]: the running profit and the points pushed
    so far. *)
Definition cumulativeStep (acc : JS.number * list Point.t) (b : Bet)
  : JS.number * list Point.t :=
  let ret := JS.orElse (effectiveReturn b) 0 in
  let running := fst acc + (ret - stake b) in
  (running, snd acc ++ [Point.mk (date b) (JS.toFixed 2 running)]).

Definition byDateAscending (a b : Bet) : comparison :=
  JS.localeCompare (date a) (date b).

Definition cumulative (m : Model) : list Point.t :=
  let settled := JS.sort byDateAscending (settledOf (bets m)) in
  let points := snd (fold_left cumulativeStep settled (0, [])) in
  match points with
  | [] => points
  | p :: _ => Point.mk (Point.date p) 0 :: points
  end.

(** *** The filter of the ledger *)

Definition searchText (b : Bet) : string :=
  (description b ++ " " ++ sportName (sport b) ++ " "
   ++ statusName (status b))%string.

(** The predicate of [filteredBets]: each test that fails returns
    [false].  The page without search box applies the same tests but
    the last one, which an empty search skips. *)
Definition passes (f : Filter.t) (b : Bet) : bool :=
  if match Filter.sport f with
     | Some s => negb (sport_eqb (sport b) s)
     | None => false
     end then false
  else if match Filter.status f with
          | Some s => negb (status_eqb (status b) s)
          | None => false
          end then false
  else if match Filter.from f with
          | Some d => JS.truthy d && JS.lt (date b) d
          | None => false
          end then false
  else if match Filter.to f with
          | Some d => JS.truthy d && JS.gt (date b) d
          | None => false
          end then false
  else if JS.truthy (JS.trim (Filter.search f)) then
    let q := JS.toLowerCase (Filter.search f) in
    let text := JS.toLowerCase (searchText b) in
    if negb (JS.includes text q) then false else true
  else true.

Definition byDateDescending (a b : Bet) : comparison :=
  JS.localeCompare (date b) (date a).

Definition filteredBets (m : Model) : list Bet :=
  JS.sort byDateDescending (List.filter (passes (filter m)) (bets m)).

(** *** Adding, editing, deleting *)

Section Platform.
(** [Number(x)] on a string; [None] when the result is not finite. *)
Variable Number : string -> option JS.number.

Definition parseNum (n : string) (fallback : JS.number) : JS.number :=
  let x := JS.trim n in
  match Number x with
  | Some v => v
  | None => fallback
  end.

Definition addDisabled (m : Model) : bool :=
  negb (JS.truthy (JS.trim (Form.description (form m))))
  || JS.leb (parseNum (Form.stake (form m)) 0) 0
  || JS.leb (parseNum (Form.oddsDecimal (form m)) 0) 1.

Definition overrideOf (r : option string) : option JS.number :=
  match r with
  | Some s => if negb (String.eqb s "")
              then Some (JS.toFixed 2 (parseNum s 0)) else None
  | None => None
  end.

(** [now] is [new Date().toISOString()] and [uid] the fresh identifier
    at the time of the call. *)
Definition addBet (now uid : string) (m : Model) : Model :=
  if addDisabled m then m
  else
    let f := form m in
    let bet :=
      mkBet uid (Form.date f) (JS.trim (Form.description f)) (Form.sport f)
        (if sport_eqb (Form.sport f) Football then Form.category f else None)
        (JS.toFixed 2 (parseNum (Form.stake f) 0))
        (JS.toFixed 3 (parseNum (Form.oddsDecimal f) 0))
        (Form.status f)
        (overrideOf (Form.returnOverride f))
        (if isSettled (Form.status f) then Some now else None)
        now now in
    setForm (fun f => Form.mk (Form.date f) EmptyString (Form.sport f)
                        (Form.category f) (Form.stake f) (Form.oddsDecimal f)
                        Pending (Form.returnOverride f))
      (setBets (fun b => bet :: b) m).

Definition editedBet (now : string) (v : EditVals.t) (b : Bet) : Bet :=
  let nextStatus := EditVals.status v in
  mkBet (id b) (date b) (description b) (sport b)
    (if sport_eqb (sport b) Football then EditVals.category v else None)
    (JS.toFixed 2 (parseNum (EditVals.stake v) 0))
    (JS.toFixed 3 (parseNum (EditVals.oddsDecimal v) 0))
    nextStatus
    (overrideOf (EditVals.returnOverride v))
    (if isSettled (status b) || isSettled nextStatus then Some now else None)
    (createdAt b) now.

Definition saveEdit (now : string) (i : string) (m : Model) : Model :=
  setEditingId None
    (setBets (map (fun b => if negb (String.eqb (id b) i) then b
                            else editedBet now (editVals m) b)) m).
End Platform.

Definition deleteBet (i : string) (m : Model) : Model :=
  let toDelete := find (fun b => String.eqb (id b) i) (bets m) in
  setLastDeleted toDelete
    (setBets (List.filter (fun b => negb (String.eqb (id b) i))) m).

Definition undoDelete (m : Model) : Model :=
  match lastDeleted m with
  | None => m
  | Some d => setLastDeleted None (setBets (fun list => d :: list) m)
  end.

(** The callback of the undo timer, ten seconds after a delete. *)
Definition undoExpired (m : Model) : Model := setLastDeleted None m.

(** *** The goal settings *)



(** *** The chart of the cumulative profit *)

Definition chartPoints (m : Model) : list ChartPoint.t :=
  JS.mapi (fun p i => ChartPoint.mk (JS.ofNat i) (Point.value p)
                        (Point.date p))
    (cumulative m).

(** *** Football categories on the ledger

    The table of the revision of the page that has categories, over the
    filtered list.  The filter of that revision has no search text; it
    is the filter with an empty search here. *)

Definition categoryStatStep (map : list (option FootballCategory * CatStat.t))
  (b : Bet) : list (option FootballCategory * CatStat.t) :=
  let key := category b in
  let cur := JS.orElse (JS.mapGet key_eqb key map) CatStat.zero in
  let cur :=
    CatStat.mk (CatStat.bets cur + 1) (CatStat.settled cur)
      (CatStat.stakedSettled cur) (CatStat.returned cur) (CatStat.wins cur) in
  let cur :=
    if isSettled (status b) then
      CatStat.mk (CatStat.bets cur) (CatStat.settled cur + 1)
        (CatStat.stakedSettled cur + stake b)
        (CatStat.returned cur + JS.orElse (effectiveReturn b) 0)
        (if status_eqb (status b) Won then CatStat.wins cur + 1
         else CatStat.wins cur)
    else cur in
  JS.mapSet key_eqb key cur map.

Definition categoryStatRow (e : option FootballCategory * CatStat.t)
  : CatStatRow.t :=
  let (category, m) := e in
  let profit :=
    JS.toFixed 2 (CatStat.returned m - CatStat.stakedSettled m) in
  let roi := if JS.gtb (CatStat.stakedSettled m) 0
             then profit / CatStat.stakedSettled m else 0 in
  let winRate := if Nat.ltb 0 (CatStat.settled m)
                 then JS.ofNat (CatStat.wins m) / JS.ofNat (CatStat.settled m)
                 else 0 in
  CatStatRow.mk category (CatStat.bets m) (CatStat.settled m)
    (JS.toFixed 2 (CatStat.stakedSettled m)) (JS.toFixed 2 (CatStat.returned m))
    profit roi winRate.

Definition footballCategoryStats (m : Model) : list CatStatRow.t :=
  let fb := List.filter (fun b => sport_eqb (sport b) Football)
              (filteredBets m) in
  JS.sort (fun a b => JS.sign (CatStatRow.profit b) (CatStatRow.profit a))
    (map categoryStatRow (fold_left categoryStatStep fb [])).

End Tracker.

(** *** The line chart

    [LineChart] draws a path through the points, a zero line and a dot
    on the last point, in a view box of 720 by [height].  [render]
    gives the numbers it puts in the SVG: for each point the letter of
    the path command and the two coordinates, the height of the zero
    line and the centre of the dot; [None] is the "No data yet" box. *)
Module LineChart.

Record Drawing : Type := mkDrawing {
  path : list (ascii * JS.number * JS.number);
  zeroY : JS.number;
  dot : JS.number * JS.number
}.

Definition padding : JS.number := 16.
Definition width : JS.number := 720.

Definition innerW : JS.number := width - padding * 2.
Definition innerH (height : JS.number) : JS.number := height - padding * 2.

(** The two formulas the component writes out for each coordinate. *)
Definition scaleX (points : list ChartPoint.t) (x : JS.number) : JS.number :=
  let xs := map ChartPoint.x points in
  padding + (innerW * (x - nth 0 xs 0)) / JS.max 1 (last xs 0 - nth 0 xs 0).

Definition scaleY (points : list ChartPoint.t) (height : JS.number)
  (y : JS.number) : JS.number :=
  let ys := map ChartPoint.y points in
  let minY := JS.minOf 0 ys in
  let maxY := JS.maxOf 0 ys in
  let spanY := JS.max 1 (maxY - minY) in
  padding + innerH height - ((y - minY) / spanY) * innerH height.

Definition render (points : list ChartPoint.t) (height : JS.number)
  : option Drawing :=
  match points with
  | [] => None
  | _ =>
      let last := last points (ChartPoint.mk 0 0 EmptyString) in
      Some (mkDrawing
              (JS.mapi (fun p i =>
                          ((if Nat.eqb i 0 then "M" else "L")%char,
                           scaleX points (ChartPoint.x p),
                           scaleY points height (ChartPoint.y p))) points)
              (scaleY points height 0)
              (scaleX points (ChartPoint.x last),
               scaleY points height (ChartPoint.y last)))
  end.

End LineChart.

(** *** The filter in the URL

    The tracker keeps its filter in the query string: one effect reads
    the four parameters into the filter, another writes the filter back.
    [Query] holds what [searchParams.get] returns for the four keys. *)
Module UrlFilter.

Record t : Type := mk {
  sport : option Sport;
  status : option BetStatus;
  from : option string;
  to : option string
}.

Record Query : Type := mkQuery {
  qStatus : option string;
  qSport : option string;
  qFrom : option string;
  qTo : option string
}.

(** [x || undefined] on what [get] returns. *)
Definition orUndefined (x : option string) : option string :=
  match x with
  | Some s => if JS.truthy s then Some s else None
  | None => None
  end.

(** The filter the hydrating effect leaves: [next] when it differs from
    the filter, the filter when it does not, which is [next] again. *)
Definition hydrate (q : Query) (filter : t) : t :=
  mk (match qSport q with
      | Some s =>
          if String.eqb s "Football" then Some Football
          else if String.eqb s "Cricket" then Some Cricket
          else if String.eqb s "Tennis" then Some Tennis
          else if String.eqb s "Other" then Some OtherSport
          else if String.eqb s "All" then None
          else sport filter
      | None => sport filter
      end)
     (match qStatus q with
      | Some s =>
          if String.eqb s "Pending" then Some Pending
          else if String.eqb s "Won" then Some Won
          else if String.eqb s "Lost" then Some Lost
          else if String.eqb s "All" then None
          else status filter
      | None => status filter
      end)
     (orUndefined (qFrom q))
     (orUndefined (qTo q)).

(** The four parameters after the writing effect: a parameter is set
    or deleted. *)
Definition write (filter : t) : Query :=
  mkQuery
    (match status filter with
     | Some s => Some (statusName s)
     | None => None
     end)
    (match sport filter with
     | Some s => Some (sportName s)
     | None => None
     end)
    (match from filter with
     | Some d => if JS.truthy d then Some d else None
     | None => None
     end)
    (match to filter with
     | Some d => if JS.truthy d then Some d else None
     | None => None
     end).

End UrlFilter.

(** ** The insights page *)

Module Metrics.
Record t : Type := mk {
  totalBets : nat;
  settled : nat;
  pending : nat;
  stakedAll : JS.number;
  stakedSettled : JS.number;
  returned : JS.number;
  profit : JS.number;
  hitRate : JS.number;
  roi : JS.number;
  avgOdds : JS.number;
  avgStake : JS.number;
  medStake : JS.number;
  profitPerBet : JS.number;
  pendingStake : JS.number;
  pendingPotentialReturn : JS.number
}.
End Metrics.

(** The accumulator of the grouped views. *)
Module Stat.
Record t : Type := mk {
  staked : JS.number;
  returned : JS.number;
  profit : JS.number;
  settled : nat;
  wins : nat
}.
Definition zero : t := mk 0 0 0 O O.
End Stat.

Module SportRow.
Record t : Type := mk {
  sport : Sport;
  staked : JS.number;
  returned : JS.number;
  profit : JS.number;
  winRate : JS.number
}.
End SportRow.

(** The key of a category row: a category, or ["Uncategorised"]
    ([None]). *)
Module CategoryRow.
Record t : Type := mk {
  category : option FootballCategory;
  staked : JS.number;
  returned : JS.number;
  profit : JS.number;
  winRate : JS.number
}.
End CategoryRow.

Module WeekdayRow.
Record t : Type := mk {
  day : string;
  staked : JS.number;
  returned : JS.number;
  profit : JS.number;
  winRate : JS.number;
  roi : JS.number
}.
End WeekdayRow.

(** An odds band; [max = None] is [Infinity]. *)
Module Band.
Record t : Type := mk {
  label : string;
  min : JS.number;
  max : option JS.number
}.
End Band.

Module BandRow.
Record t : Type := mk {
  band : string;
  bets : nat;
  wins : nat;
  avgOdds : JS.number;
  implied : JS.number;
  winRate : JS.number;
  roi : JS.number;
  profit : JS.number
}.
End BandRow.

(** The accumulator and the row of the monthly table. *)
Module MonthStat.
Record t : Type := mk {
  staked : JS.number;
  returned : JS.number;
  profit : JS.number
}.
Definition zero : t := mk 0 0 0.
End MonthStat.

Module MonthRow.
Record t : Type := mk {
  month : string;
  staked : JS.number;
  returned : JS.number;
  profit : JS.number
}.
End MonthRow.

Module InsightsFilter.
Record t : Type := mk {
  sport : option Sport;
  from : option string;
  to : option string
}.
Definition initial : t := mk None None None.
End InsightsFilter.

Module Insights.

(** [effectiveReturn] of the insights page: the test on the status
    comes first and is negated. *)
Definition effectiveReturn (b : Bet) : option JS.number :=
  if negb (isSettled (status b)) then None
  else match returnOverride b with
       | Some r => Some (JS.toFixed 2 r)
       | None => defaultReturn b
       end.

Definition sumReturn (l : list Bet) : JS.number :=
  fold_left (fun s b => s + JS.orElse (effectiveReturn b) 0) l 0.

Definition sumOdds (l : list Bet) : JS.number :=
  fold_left (fun s b => s + oddsDecimal b) l 0.

Definition median (nums : list JS.number) : JS.number :=
  match nums with
  | [] => 0
  | _ =>
      let arr := JS.sort JS.sign nums in
      let mid := Nat.div (List.length arr) 2 in
      if Nat.eqb (Nat.modulo (List.length arr) 2) 0
      then (nth (mid - 1) arr 0 + nth mid arr 0) / 2
      else nth mid arr 0
  end.

(** The state of the component [InsightsInner]. *)
Record Model : Type := mkModel {
  state : AppState;
  bets : list Bet;
  filter : InsightsFilter.t
}.

(** The predicate of [filteredBets] on the insights page. *)
Definition passes (f : InsightsFilter.t) (b : Bet) : bool :=
  if match InsightsFilter.sport f with
     | Some s => negb (sport_eqb (sport b) s)
     | None => false
     end then false
  else if match InsightsFilter.from f with
          | Some d => JS.truthy d && JS.lt (date b) d
          | None => false
          end then false
  else if match InsightsFilter.to f with
          | Some d => JS.truthy d && JS.gt (date b) d
          | None => false
          end then false
  else true.

Definition filteredBets (m : Model) : list Bet :=
  List.filter (passes (filter m)) (bets m).

Definition pendingOf (l : list Bet) : list Bet :=
  List.filter (fun b => status_eqb (status b) Pending) l.

(** *** Key metrics *)

Definition metrics (m : Model) : Metrics.t :=
  let filteredBets := filteredBets m in
  let settled := settledOf filteredBets in
  let pending := pendingOf filteredBets in
  let stakedAll := JS.toFixed 2 (sumStake filteredBets) in
  let stakedSettled := JS.toFixed 2 (sumStake settled) in
  let returned := JS.toFixed 2 (sumReturn settled) in
  let profit := JS.toFixed 2 (returned - stakedSettled) in
  let wins := List.length (wonOf settled) in
  let hitRate :=
    match List.length settled with
    | O => 0
    | _ => JS.ofNat wins / JS.ofNat (List.length settled)
    end in
  let roi := if JS.gtb stakedSettled 0 then profit / stakedSettled else 0 in
  let avgOdds :=
    match List.length settled with
    | O => 0
    | _ => JS.toFixed 2 (sumOdds settled / JS.ofNat (List.length settled))
    end in
  let avgStake :=
    match List.length filteredBets with
    | O => 0
    | _ => JS.toFixed 2 (sumStake filteredBets
                         / JS.ofNat (List.length filteredBets))
    end in
  let medStake := JS.toFixed 2 (median (map stake filteredBets)) in
  let profitPerBet :=
    match List.length settled with
    | O => 0
    | _ => JS.toFixed 2 (profit / JS.ofNat (List.length settled))
    end in
  let pendingStake := JS.toFixed 2 (sumStake pending) in
  let pendingPotentialReturn :=
    JS.toFixed 2
      (fold_left (fun s b => s + stake b * oddsDecimal b) pending 0) in
  Metrics.mk (List.length filteredBets) (List.length settled)
    (List.length pending) stakedAll stakedSettled returned profit hitRate roi
    avgOdds avgStake medStake profitPerBet pendingStake
    pendingPotentialReturn.

(** *** Grouped views *)

(** What the loops of the grouped views add to the entry of a settled
    record. *)
Definition accumulate (cur : Stat.t) (b : Bet) : Stat.t :=
  let ret := JS.orElse (effectiveReturn b) 0 in
  Stat.mk (Stat.staked cur + stake b)
          (Stat.returned cur + ret)
          (Stat.profit cur + (ret - stake b))
          (Stat.settled cur + 1)
          (if status_eqb (status b) Won then Stat.wins cur + 1
           else Stat.wins cur).

Definition winRateOf (v : Stat.t) : JS.number :=
  if Nat.ltb 0 (Stat.settled v)
  then JS.ofNat (Stat.wins v) / JS.ofNat (Stat.settled v) else 0.

Definition bySportStep (m : list (Sport * Stat.t)) (b : Bet)
  : list (Sport * Stat.t) :=
  let cur := JS.orElse (JS.mapGet sport_eqb (sport b) m) Stat.zero in
  let cur := if isSettled (status b) then accumulate cur b else cur in
  JS.mapSet sport_eqb (sport b) cur m.

Definition sportRow (e : Sport * Stat.t) : SportRow.t :=
  let (sport, v) := e in
  SportRow.mk sport (JS.toFixed 2 (Stat.staked v))
    (JS.toFixed 2 (Stat.returned v)) (JS.toFixed 2 (Stat.profit v))
    (winRateOf v).

Definition bySport (m : Model) : list SportRow.t :=
  JS.sort (fun a b => JS.sign (SportRow.profit b) (SportRow.profit a))
    (map sportRow (fold_left bySportStep (filteredBets m) [])).

Definition key_eqb (a b : option FootballCategory) : bool :=
  match a, b with
  | Some x, Some y => category_eqb x y
  | None, None => true
  | _, _ => false
  end.

Definition footballOf (l : list Bet) : list Bet :=
  List.filter (fun b => sport_eqb (sport b) Football) l.

Definition byCategoryStep (m : list (option FootballCategory * Stat.t))
  (b : Bet) : list (option FootballCategory * Stat.t) :=
  let key := category b in
  let cur := JS.orElse (JS.mapGet key_eqb key m) Stat.zero in
  let cur := if isSettled (status b) then accumulate cur b else cur in
  JS.mapSet key_eqb key cur m.

Definition categoryRow (e : option FootballCategory * Stat.t)
  : CategoryRow.t :=
  let (category, v) := e in
  CategoryRow.mk category (JS.toFixed 2 (Stat.staked v))
    (JS.toFixed 2 (Stat.returned v)) (JS.toFixed 2 (Stat.profit v))
    (winRateOf v).

Definition byCategory (m : Model) : list CategoryRow.t :=
  let fb := footballOf (filteredBets m) in
  JS.sort (fun a b => JS.sign (CategoryRow.profit b) (CategoryRow.profit a))
    (map categoryRow (fold_left byCategoryStep fb [])).

Definition names : list string :=
  ["Sun"; "Mon"; "Tue"; "Wed"; "Thu"; "Fri"; "Sat"]%string.

Definition day_eqb (a b : option string) : bool :=
  match a, b with
  | Some x, Some y => String.eqb x y
  | None, None => true
  | _, _ => false
  end.

Section Calendar.
(** [getDay isoDate] is [new Date(y, m - 1, d).getDay()] for the three
    numbers [y], [m], [d] that [isoDate.split('-').map(Number)] yields:
    the index of the weekday, or [None] when the date is invalid and
    [getDay()] is [NaN]. *)
Variable getDay : string -> option nat.

(** The result is [undefined] ([None]) when the index is no index of
    the seven names. *)
Definition dayName (isoDate : string) : option string :=
  match getDay isoDate with
  | Some i => nth_error names i
  | None => None
  end.

Definition byWeekdayStep (map : list (option string * Stat.t)) (b : Bet)
  : list (option string * Stat.t) :=
  if negb (isSettled (status b)) then map
  else
    let key := dayName (date b) in
    let cur := JS.orElse (JS.mapGet day_eqb key map) Stat.zero in
    JS.mapSet day_eqb key (accumulate cur b) map.

Definition weekdayRow (map : list (option string * Stat.t)) (day : string)
  : WeekdayRow.t :=
  let v := JS.orElse (JS.mapGet day_eqb (Some day) map) Stat.zero in
  let roi := if JS.gtb (Stat.staked v) 0
             then Stat.profit v / Stat.staked v else 0 in
  WeekdayRow.mk day (JS.toFixed 2 (Stat.staked v))
    (JS.toFixed 2 (Stat.returned v)) (JS.toFixed 2 (Stat.profit v))
    (winRateOf v) roi.

Definition byWeekday (m : Model) : list WeekdayRow.t :=
  let map := fold_left byWeekdayStep (filteredBets m) [] in
  JS.sort (fun a b => JS.sign (WeekdayRow.profit b) (WeekdayRow.profit a))
    (List.map (weekdayRow map) names).
End Calendar.

(** *** Odds bands *)

Definition bands : list Band.t :=
  [ Band.mk "1.01 to 1.49" 1.01 (Some 1.49);
    Band.mk "1.50 to 1.99" 1.5 (Some 1.99);
    Band.mk "2.00 to 2.99" 2 (Some 2.99);
    Band.mk "3.00 to 4.99" 3 (Some 4.99);
    Band.mk "5.00 or more" 5 None ].

Definition inBandOf (band : Band.t) (b : Bet) : bool :=
  JS.geb (oddsDecimal b) (Band.min band)
  && match Band.max band with
     | Some max => JS.leb (oddsDecimal b) max
     | None => true
     end.

Definition bandRow (settled : list Bet) (band : Band.t) : BandRow.t :=
  let inBand := List.filter (inBandOf band) settled in
  let bets := List.length inBand in
  match bets with
  | O => BandRow.mk (Band.label band) O O 0 0 0 0 0
  | _ =>
      let wins := List.length (wonOf inBand) in
      let avgOdds := sumOdds inBand / JS.ofNat bets in
      let implied := 1 / avgOdds in
      let winRate := JS.ofNat wins / JS.ofNat bets in
      let staked := sumStake inBand in
      let returned := sumReturn inBand in
      let profit := JS.toFixed 2 (returned - staked) in
      let roi := if JS.gtb staked 0 then profit / staked else 0 in
      BandRow.mk (Band.label band) bets wins avgOdds implied winRate roi
        profit
  end.

Definition oddsBands (m : Model) : list BandRow.t :=
  let settled := settledOf (filteredBets m) in
  map (bandRow settled) bands.

(** *** Monthly profit and loss *)

Definition monthlyStep (m : list (string * MonthStat.t)) (b : Bet)
  : list (string * MonthStat.t) :=
  if negb (isSettled (status b)) then m
  else
    let key := JS.slice 0 7 (date b) in
    let ret := JS.orElse (effectiveReturn b) 0 in
    let cur := JS.orElse (JS.mapGet String.eqb key m) MonthStat.zero in
    JS.mapSet String.eqb key
      (MonthStat.mk (MonthStat.staked cur + stake b)
         (MonthStat.returned cur + ret)
         (MonthStat.profit cur + (ret - stake b))) m.

Definition monthRow (e : string * MonthStat.t) : MonthRow.t :=
  let (month, v) := e in
  MonthRow.mk month (JS.toFixed 2 (MonthStat.staked v))
    (JS.toFixed 2 (MonthStat.returned v)) (JS.toFixed 2 (MonthStat.profit v)).

Definition monthly (m : Model) : list MonthRow.t :=
  JS.sort (fun a b => JS.localeCompare (MonthRow.month a) (MonthRow.month b))
    (map monthRow (fold_left monthlyStep (filteredBets m) [])).

End Insights.

(** *** The bar chart of the monthly profit

    [BarChart], of the insights page before the filters, draws one bar
    per month in a view box of 720 by [height], up from the middle line
    for a profit and down from it for a loss.  [render] gives the
    rectangles; [None] is the "No data yet" box. *)
Module BarChart.

Record Bar : Type := mkBar {
  x : JS.number;
  y : JS.number;
  width : JS.number;
  height : JS.number
}.

Definition padding : JS.number := 16.
Definition boxWidth : JS.number := 720.

Definition render (data : list (string * JS.number)) (boxHeight : JS.number)
  : option (list Bar) :=
  let innerW := boxWidth - padding * 2 in
  let innerH := boxHeight - padding * 2 in
  match data with
  | [] => None
  | _ =>
      let maxAbs := JS.maxOf 1 (map (fun d => JS.abs (snd d)) data) in
      let barW := innerW / JS.ofNat (List.length data) in
      Some (JS.mapi
              (fun d i =>
                 let x := padding + JS.ofNat i * barW + barW * 0.1 in
                 let barWidth := barW * 0.8 in
                 let scaled := (JS.abs (snd d) / maxAbs) * (innerH / 2) in
                 let y := if JS.geb (snd d) 0
                          then padding + innerH / 2 - scaled
                          else padding + innerH / 2 in
                 mkBar x y barWidth scaled)
              data)
  end.


End BarChart.

(** ** An instance of the platform

    [Platform.Number] reads the decimal literals: an optional sign,
    digits, an optional fraction; the blank string is [0].  The other
    literals [Number] reads (exponents, radix prefixes, [Infinity]) are
    outside this instance.  [Platform.getDay] is the weekday of the
    dates written yyyy-mm-dd, with the overflow of months and days that
    [Date] applies and its two-digit years; the other strings are
    outside this instance, which gives them no day. *)
Module Platform.

Definition digitOf (c : ascii) : option Z :=
  let n := nat_of_ascii c in
  if ((48 <=? n) && (n <=? 57))%nat then Some (Z.of_nat (n - 48)) else None.

(** The digits a string starts with: their value, their count and the
    rest of the string. *)
Fixpoint readDigits (s : string) (acc : Z) (count : nat)
  : Z * nat * string :=
  match s with
  | EmptyString => (acc, count, s)
  | String c t =>
      match digitOf c with
      | Some d => readDigits t (10 * acc + d)%Z (S count)
      | None => (acc, count, s)
      end
  end.

Definition unsignedDecimal (s : string) : option JS.number :=
  let '(i, ni, rest) := readDigits s 0%Z O in
  match rest with
  | EmptyString => if Nat.eqb ni 0 then None else Some (inject_Z i)
  | String c t =>
      if Ascii.eqb c "."%char then
        let '(f, nf, rest') := readDigits t 0%Z O in
        match rest' with
        | EmptyString =>
            if Nat.eqb (ni + nf) 0 then None
            else Some (inject_Z i + (f # JS.pow10 nf))
        | _ => None
        end
      else None
  end.

Definition Number (s : string) : option JS.number :=
  match JS.trim s with
  | EmptyString => Some 0
  | String c t =>
      if Ascii.eqb c "-"%char then option_map Qopp (unsignedDecimal t)
      else if Ascii.eqb c "+"%char then unsignedDecimal t
      else unsignedDecimal (String c t)
  end.

(** The days from 1970-01-01 to the first day of month [m] (0 to 11)
    of year [y], in the proleptic Gregorian calendar. *)
Definition daysFromCivil (y m : Z) : Z :=
  let y' := (if m <? 2 then y - 1 else y)%Z in
  let era := (y' / 400)%Z in
  let yoe := (y' - era * 400)%Z in
  let mp := (if m <? 2 then m + 10 else m - 2)%Z in
  let doy := ((153 * mp + 2) / 5)%Z in
  let doe := (yoe * 365 + yoe / 4 - yoe / 100 + doy)%Z in
  (era * 146097 + doe - 719468)%Z.

Definition number2 (a b : ascii) : option Z :=
  match digitOf a, digitOf b with
  | Some x, Some y => Some (10 * x + y)%Z
  | _, _ => None
  end.

Definition getDay (isoDate : string) : option nat :=
  match list_ascii_of_string isoDate with
  | [y1; y2; y3; y4; h1; m1; m2; h2; d1; d2] =>
      if Ascii.eqb h1 "-"%char && Ascii.eqb h2 "-"%char then
        match number2 y1 y2, number2 y3 y4, number2 m1 m2, number2 d1 d2 with
        | Some yh, Some yl, Some m, Some d =>
            let y := (100 * yh + yl)%Z in
            let y := (if y <=? 99 then 1900 + y else y)%Z in
            let months := (12 * y + (m - 1))%Z in
            let days := (daysFromCivil (months / 12) (months mod 12)
                         + (d - 1))%Z in
            Some (Z.to_nat ((days + 4) mod 7))
        | _, _, _, _ => None
        end
      else None
  | _ => None
  end.

End Platform.

(** ** What the specification says, in its own words *)

Module Spec.

(** [clamp v lo hi] *)
Definition clamp (v lo hi : Q) : Q :=
  if JS.ltb v lo then lo else if JS.ltb hi v then hi else v.


(** The order of the calendar dates yyyy-mm-dd. *)
Definition dateLe (a b : string) : Prop := String.leb a b = true.





(** [q] occurs in [s]. *)
Definition substring (q s : string) : Prop :=
  exists pre post : string, s = (pre ++ q ++ post)%string.




(** The sum of a list of numbers. *)
Definition total (l : list Q) : Q := fold_right Qplus 0 l.

(** The profit of a settled record: its effective return less its
    stake. *)
Definition profitOf (b : Bet) : Q :=
  JS.orElse (effectiveReturn b) 0 - stake b.


(** The running sum of the profits of the records of [l], from [run]:
    one point per record, at the date of the record. *)
Fixpoint runningPoints (run : Q) (l : list Bet) : list Point.t :=
  match l with
  | [] => []
  | b :: t =>
      let run' := run + profitOf b in
      Point.mk (date b) (JS.toFixed 2 run') :: runningPoints run' t
  end.

(** The five odds bands, in their order: [1.01, 1.49], [1.50, 1.99],
    [2.00, 2.99], [3.00, 4.99] and [5.00, infinity). *)
Definition bandBounds : list (Q * option Q) :=
  [ (1.01, Some 1.49); (1.5, Some 1.99); (2, Some 2.99);
    (3, Some 4.99); (5, None) ].

Definition within (bound : Q * option Q) (odds : Q) : Prop :=
  fst bound <= odds /\
  match snd bound with Some hi => odds <= hi | None => True end.

(** What the row of a band has to report: no bet exactly when no
    settled record has its odds in the band, and then nothing but
    zeros. *)
Definition bandReport (settled : list Bet) (bound : Q * option Q)
  (row : BandRow.t) : Prop :=
  (BandRow.bets row = O
   <-> forall b, In b settled -> ~ within bound (oddsDecimal b)) /\
  (BandRow.bets row = O ->
   BandRow.wins row = O /\ BandRow.avgOdds row = 0 /\
   BandRow.implied row = 0 /\ BandRow.winRate row = 0 /\
   BandRow.roi row = 0 /\ BandRow.profit row = 0).

(** The odds that lie in no band. *)
Definition inGap (odds : Q) : Prop :=
  (1.49 < odds /\ odds < 1.5) \/ (1.99 < odds /\ odds < 2) \/
  (2.99 < odds /\ odds < 3) \/ (4.99 < odds /\ odds < 5) \/
  odds < 1.01.

(** The stake is a whole number of pence. *)
Definition wholePence (b : Bet) : Prop := JS.onGrid 2 (stake b).

(** The date of the record is one the calendar gives a weekday. *)
Definition validDay (getDay : string -> option nat) (b : Bet) : Prop :=
  exists i : nat, getDay (date b) = Some i /\ (i < 7)%nat.

(** The profit held by the entries of a map of accumulators. *)
Definition entriesProfit {K : Type} (m : list (K * Stat.t)) : Q :=
  total (map (fun e => Stat.profit (snd e)) m).

(** The profit the seven weekdays hold in a map of accumulators. *)
Definition namesProfit (m : list (option string * Stat.t)) : Q :=
  total (map (fun day =>
                Stat.profit
                  (JS.orElse (JS.mapGet Insights.day_eqb (Some day) m)
                     Stat.zero))
           Insights.names).

(** A rate: wins over bets, 0 when there is no bet. *)
Definition rate (wins n : nat) : Q :=
  if Nat.ltb 0 n then JS.ofNat wins / JS.ofNat n else 0.

(** The settled records of a view that belong to a group. *)
Definition groupOf (p : Bet -> bool) (view : list Bet) : list Bet :=
  List.filter (fun b => isSettled (status b) && p b) view.

(** The four figures of a row are those of the records [mine]: the
    stakes, the effective returns and the profits added up and rounded
    to pence, and the rate of wins. *)
Definition summarises (mine : list Bet) (staked returned profit winRate : Q)
  : Prop :=
  staked = JS.toFixed 2 (total (map stake mine)) /\
  returned
  = JS.toFixed 2 (total (map (fun b => JS.orElse (effectiveReturn b) 0) mine))
  /\
  profit = JS.toFixed 2 (total (map profitOf mine)) /\
  winRate = rate (List.length (wonOf mine)) (List.length mine).

(** A point is inside a view box of [w] by [h], its padding left
    out. *)
Definition inBox (w h padding x y : Q) : Prop :=
  padding <= x /\ x <= w - padding /\ padding <= y /\ y <= h - padding.

(** The invariants of the data model on the stake and the odds. *)
Definition validBet (b : Bet) : Prop := 1 < oddsDecimal b /\ 0 < stake b.

End Spec.

(** ** Sample ledgers *)

Module Sample.

Definition form0 : Form.t :=
  Form.mk "2024-01-01" "" Football (Some Result) "5" "1.50" Pending None.

Definition editVals0 : EditVals.t := EditVals.mk "" "" Pending None None.

Definition ledger (target : JS.number) (l : list Bet) : Tracker.Model :=
  Tracker.mkModel (mkAppState target (Some 5) true) l None form0
    Filter.initial None editVals0.

Definition insights (f : InsightsFilter.t) (l : list Bet) : Insights.Model :=
  Insights.mkModel (mkAppState 100 None true) l f.

(** A settled or pending record without override. *)
Definition bet (i d : string) (sp : Sport) (st od : JS.number)
  (s : BetStatus) : Bet :=
  mkBet i d "ATP match winner" sp None st od s None
    (if isSettled s then Some "2024-01-01T10:00:00.000Z"%string else None)
    "2024-01-01T10:00:00.000Z" "2024-01-01T10:00:00.000Z".


(** A win of 250 on a stake of 100: a profit of 150. *)
Definition bigWin : Bet := bet "a1" "2024-01-01" Tennis 100 2.5 Won.

(** Three settled records and a pending one; two of the settled
    records share a date. *)
Definition tennisWin : Bet := bet "b2" "2024-01-02" Tennis 10 2.1 Won.

Definition week : list Bet :=
  [ bet "b1" "2024-01-03" Football 5 1.53 Lost;
    tennisWin;
    bet "b3" "2024-01-05" Cricket 20 3 Pending;
    bet "b4" "2024-01-02" Football 4 1.75 Won ].

(** The values of an edit that reopens a record, and of one that
    enters a stake of zero and odds below one. *)
Definition reopen : EditVals.t := EditVals.mk "100" "2.5" Pending None None.
Definition zeroEdit : EditVals.t := EditVals.mk "0" "0.5" Won None None.

(** A form whose stake and odds pass the test of [addDisabled] and
    round to 0 and to 1. *)
Definition tinyForm : Form.t :=
  Form.mk "2024-01-01" "Chelsea BTTS" Football (Some Result) "0.004" "1.0004"
    Pending None.

(** A form with odds between two bands. *)
Definition gapForm : Form.t :=
  Form.mk "2024-01-01" "Chelsea BTTS" Football (Some Result) "5" "1.495"
    Won None.

Definition later : string := "2024-02-01T09:00:00.000Z".

(** A lost tennis bet: no football record, so no category row. *)
Definition tennisLoss : list Bet :=
  [ bet "t1" "2024-01-02" Tennis 5 2 Lost ].

(** Two lost bets of 0.6 pence each, on two sports. *)
Definition subPenny : list Bet :=
  [ bet "s1" "2024-01-02" Football 0.006 2 Lost;
    bet "s2" "2024-01-03" Tennis 0.006 2 Lost ].

(** A lost bet whose date was left empty. *)
Definition undated : list Bet :=
  [ bet "u1" "" Tennis 5 2 Lost ].


(** Two records that share an identifier. *)
Definition twins : list Bet :=
  [ bet "x" "2024-01-02" Tennis 10 2.1 Won;
    bet "x" "2024-01-03" Football 5 1.53 Lost ].

(** The insights page on these ledgers, without filter. *)
Definition weekInsights : Insights.Model := insights InsightsFilter.initial week.
Definition tennisInsights : Insights.Model :=
  insights InsightsFilter.initial tennisLoss.
Definition subPennyInsights : Insights.Model :=
  insights InsightsFilter.initial subPenny.
Definition undatedInsights : Insights.Model :=
  insights InsightsFilter.initial undated.

(** The ledger after [addBet] on the form with odds of 1.495, and the
    insights page on it. *)
Definition gapStored : list Bet :=
  Tracker.bets
    (Tracker.addBet Platform.Number later "g1"
       (Tracker.setForm (fun _ => gapForm) (ledger 100 []))).
Definition gapInsights : Insights.Model :=
  insights InsightsFilter.initial gapStored.

End Sample.

(** * Properties *)

(** ** Numbers and rounding *)

Lemma pow10_spec (f : nat) : Zpos (JS.pow10 f) = (10 ^ Z.of_nat f)%Z.
Proof.
  induction f as [|f IH].
  - reflexivity.
  - change (JS.pow10 (S f)) with (10 * JS.pow10 f)%positive.
    rewrite Nat2Z.inj_succ, Z.pow_succ_r by lia.
    rewrite Pos2Z.inj_mul, IH. reflexivity.
Qed.

Lemma roundHalfAway_comp (x y : Q) :
  x == y -> JS.roundHalfAway x = JS.roundHalfAway y.
Proof.
  intros E. unfold JS.roundHalfAway.
  assert (Hb : Qle_bool 0 x = Qle_bool 0 y).
  { destruct (Qle_bool 0 x) eqn:Hx, (Qle_bool 0 y) eqn:Hy; trivial.
    - apply Qle_bool_iff in Hx. rewrite E in Hx.
      apply Qle_bool_iff in Hx. congruence.
    - apply Qle_bool_iff in Hy. rewrite <- E in Hy.
      apply Qle_bool_iff in Hy. congruence. }
  rewrite Hb. destruct (Qle_bool 0 y).
  - apply Qfloor_comp. rewrite E. reflexivity.
  - f_equal. apply Qfloor_comp. rewrite E. reflexivity.
Qed.

Lemma toFixed_comp (f : nat) (x y : Q) :
  x == y -> JS.toFixed f x = JS.toFixed f y.
Proof.
  intros E. unfold JS.toFixed. f_equal.
  apply roundHalfAway_comp. rewrite E. reflexivity.
Qed.

#[export] Instance toFixed_Proper (f : nat) : Proper (Qeq ==> Qeq) (JS.toFixed f).
Proof. intros x y E. rewrite (toFixed_comp f x y E). reflexivity. Qed.

Lemma floor_half (n : Z) : Qfloor (inject_Z n + (1 # 2)) = n.
Proof.
  unfold Qfloor, Qplus, inject_Z. simpl.
  symmetry. apply Z.div_unique with (r := 1%Z); lia.
Qed.

Lemma roundHalfAway_Z (n : Z) : JS.roundHalfAway (inject_Z n) = n.
Proof.
  unfold JS.roundHalfAway. destruct (Qle_bool 0 (inject_Z n)).
  - apply floor_half.
  - change (- inject_Z n) with (inject_Z (- n)). rewrite floor_half. lia.
Qed.

Lemma toFixed_onGrid (f : nat) (x : Q) : JS.onGrid f (JS.toFixed f x).
Proof. eexists. unfold JS.toFixed. reflexivity. Qed.

Lemma onGrid_scaled (f : nat) (n : Z) :
  (n # JS.pow10 f) * inject_Z (Zpos (JS.pow10 f)) == inject_Z n.
Proof.
  unfold Qeq, Qmult, inject_Z. simpl. lia.
Qed.

(** Rounding leaves a value of the grid as it is. *)
Lemma toFixed_id (f : nat) (x : Q) : JS.onGrid f x -> JS.toFixed f x == x.
Proof.
  intros [n Hn]. rewrite (toFixed_comp f x (n # JS.pow10 f) Hn).
  unfold JS.toFixed.
  rewrite (roundHalfAway_comp _ _ (onGrid_scaled f n)), roundHalfAway_Z.
  symmetry. exact Hn.
Qed.

Lemma toFixed_idem (f : nat) (x : Q) :
  JS.toFixed f (JS.toFixed f x) = JS.toFixed f x.
Proof.
  unfold JS.toFixed.
  set (n := JS.roundHalfAway (x * inject_Z (Zpos (JS.pow10 f)))).
  rewrite (roundHalfAway_comp _ _ (onGrid_scaled f n)), roundHalfAway_Z.
  reflexivity.
Qed.



Lemma Qle_bool_false (a b : Q) : Qle_bool a b = false -> b < a.
Proof.
  intros H. apply Qnot_le_lt. intros C. apply Qle_bool_iff in C. congruence.
Qed.

Lemma floor_half_nonneg (x : Q) : 0 <= x -> (0 <= Qfloor (x + (1 # 2)))%Z.
Proof.
  intros H. change 0%Z with (Qfloor 0). apply Qfloor_resp_le. lra.
Qed.

Lemma roundHalfAway_mono (x y : Q) :
  x <= y -> (JS.roundHalfAway x <= JS.roundHalfAway y)%Z.
Proof.
  intros H. unfold JS.roundHalfAway.
  destruct (Qle_bool 0 x) eqn:Hx, (Qle_bool 0 y) eqn:Hy.
  - apply Qfloor_resp_le. lra.
  - apply Qle_bool_iff in Hx.
    assert (y < 0).
    { apply Qnot_le_lt. intros C. apply Qle_bool_iff in C. congruence. }
    lra.
  - apply Qle_bool_iff in Hy.
    assert (Hn : x < 0).
    { apply Qnot_le_lt. intros C. apply Qle_bool_iff in C. congruence. }
    pose proof (floor_half_nonneg (- x)) as H1.
    pose proof (floor_half_nonneg y Hy) as H2.
    assert (0 <= - x) by lra. specialize (H1 H0). lia.
  - assert (Hle : (Qfloor (- y + (1 # 2)) <= Qfloor (- x + (1 # 2)))%Z)
      by (apply Qfloor_resp_le; lra).
    lia.
Qed.

(** Rounding keeps the order. *)
Lemma toFixed_mono (f : nat) (x y : Q) :
  x <= y -> JS.toFixed f x <= JS.toFixed f y.
Proof.
  intros H. unfold JS.toFixed, Qle. simpl.
  apply Z.mul_le_mono_nonneg_r; [lia|].
  apply roundHalfAway_mono.
  apply Qmult_le_compat_r; [exact H|]. unfold Qle, inject_Z. simpl. lia.
Qed.

(** ** Sorting *)

Section SortFacts.
Context {A : Type}.
Variable cmp : A -> A -> comparison.

Lemma insert_perm (x : A) (l : list A) :
  Permutation (JS.insert cmp x l) (x :: l).
Proof.
  induction l as [|y l IH]; simpl.
  - reflexivity.
  - destruct (cmp x y); try reflexivity.
    rewrite IH. apply perm_swap.
Qed.

Lemma sort_perm (l : list A) : Permutation (JS.sort cmp l) l.
Proof.
  induction l as [|x l IH]; simpl.
  - reflexivity.
  - rewrite insert_perm. apply perm_skip, IH.
Qed.

(** The sort is stable: a class of elements that the comparator never
    moves past each other keeps its order. *)
Lemma insert_filter (p : A -> bool) (x : A) (l : list A) :
  (forall y, cmp x y = Gt -> p x = true -> p y = true -> False) ->
  List.filter p (JS.insert cmp x l) = List.filter p (x :: l).
Proof.
  intros Hp. induction l as [|y l IH]; simpl.
  - reflexivity.
  - destruct (cmp x y) eqn:E; try reflexivity.
    simpl. simpl in IH. rewrite IH.
    destruct (p x) eqn:Px, (p y) eqn:Py; try reflexivity.
    exfalso. exact (Hp y E eq_refl Py).
Qed.

Lemma sort_stable (p : A -> bool) (l : list A) :
  (forall x y, cmp x y = Gt -> p x = true -> p y = true -> False) ->
  List.filter p (JS.sort cmp l) = List.filter p l.
Proof.
  intros Hp. induction l as [|x l IH]; simpl.
  - reflexivity.
  - rewrite insert_filter by (intros y; apply Hp).
    simpl. rewrite IH. reflexivity.
Qed.

(** With a comparator that is total and transitive the result is
    sorted. *)
Hypothesis cmp_total : forall x y, cmp x y = Gt -> cmp y x <> Gt.
Hypothesis cmp_trans :
  forall x y z, cmp x y <> Gt -> cmp y z <> Gt -> cmp x z <> Gt.

Lemma insert_sorted (x : A) (l : list A) :
  StronglySorted (fun a b => cmp a b <> Gt) l ->
  StronglySorted (fun a b => cmp a b <> Gt) (JS.insert cmp x l).
Proof.
  induction 1 as [|y l Hs IH Hy]; simpl.
  - constructor; constructor.
  - destruct (cmp x y) eqn:E.
    + constructor; [constructor; assumption|].
      constructor; [congruence|].
      rewrite Forall_forall in *. intros z Hz.
      apply (cmp_trans x y z); [congruence | auto].
    + constructor; [constructor; assumption|].
      constructor; [congruence|].
      rewrite Forall_forall in *. intros z Hz.
      apply (cmp_trans x y z); [congruence | auto].
    + constructor; [exact IH|].
      rewrite Forall_forall in *. intros z Hz.
      apply (Permutation_in _ (insert_perm x l)) in Hz.
      destruct Hz as [<- | Hz]; [apply cmp_total, E | auto].
Qed.

Lemma sort_sorted (l : list A) :
  StronglySorted (fun a b => cmp a b <> Gt) (JS.sort cmp l).
Proof.
  induction l as [|x l IH]; simpl.
  - constructor.
  - apply insert_sorted, IH.
Qed.
End SortFacts.

Lemma ascii_compare_refl (a : ascii) : Ascii.compare a a = Eq.
Proof. unfold Ascii.compare. apply N.compare_refl. Qed.

Lemma string_compare_refl (s : string) : String.compare s s = Eq.
Proof.
  induction s as [|c s IH]; simpl; [reflexivity|].
  rewrite ascii_compare_refl. exact IH.
Qed.

Lemma string_compare_trans (a b c : string) :
  String.compare a b <> Gt -> String.compare b c <> Gt ->
  String.compare a c <> Gt.
Proof.
  revert b c. induction a as [|x a IH]; intros [|y b] [|z c]; simpl;
    try congruence.
  unfold Ascii.compare.
  destruct (N.compare_spec (N_of_ascii x) (N_of_ascii y)) as [E1|L1|G1];
  destruct (N.compare_spec (N_of_ascii y) (N_of_ascii z)) as [E2|L2|G2];
  destruct (N.compare_spec (N_of_ascii x) (N_of_ascii z)) as [E3|L3|G3];
    try congruence; try lia.
  apply IH.
Qed.

Lemma string_compare_total (a b : string) :
  String.compare a b = Gt -> String.compare b a <> Gt.
Proof.
  intros H. rewrite String.compare_antisym, H. discriminate.
Qed.

Lemma dateLe_compare (a b : string) :
  Spec.dateLe a b <-> String.compare a b <> Gt.
Proof.
  unfold Spec.dateLe, String.leb.
  destruct (String.compare a b); split; congruence.
Qed.

(** ** The return calculator *)


Lemma sport_eqb_eq (a b : Sport) : sport_eqb a b = true <-> a = b.
Proof. destruct a, b; simpl; split; congruence. Qed.

Lemma isSettled_iff (s : BetStatus) :
  isSettled s = true <-> s = Won \/ s = Lost.
Proof.
  destruct s; simpl; split; intros H; auto; try discriminate;
    destruct H; discriminate.
Qed.

Lemma isSettled_false (s : BetStatus) : isSettled s = false <-> s = Pending.
Proof. destruct s; simpl; split; intros H; auto; discriminate. Qed.

Lemma effectiveReturn_insights (b : Bet) :
  Insights.effectiveReturn b = effectiveReturn b.
Proof.
  unfold Insights.effectiveReturn, effectiveReturn.
  destruct (isSettled (status b)); reflexivity.
Qed.





(** ** Sums *)

Lemma fold_left_sum {A : Type} (f : A -> Q) (l : list A) (a : Q) :
  fold_left (fun s b => s + f b) l a == a + Spec.total (map f l).
Proof.
  revert a. induction l as [|x l IH]; intros a; simpl.
  - lra.
  - rewrite IH. lra.
Qed.

Lemma sumStake_total (l : list Bet) : sumStake l == Spec.total (map stake l).
Proof. unfold sumStake. rewrite fold_left_sum. exact (Qplus_0_l _). Qed.

Lemma sumReturn_total (l : list Bet) :
  sumReturn l
  == Spec.total (map (fun b => JS.orElse (effectiveReturn b) 0) l).
Proof. unfold sumReturn. rewrite fold_left_sum. exact (Qplus_0_l _). Qed.

Lemma sumReturn_insights (l : list Bet) : Insights.sumReturn l = sumReturn l.
Proof.
  unfold Insights.sumReturn, sumReturn. generalize 0 at 2 4.
  induction l as [|b l IH]; intros a; simpl; [reflexivity|].
  rewrite effectiveReturn_insights. apply IH.
Qed.

Lemma total_cons (x : Q) (l : list Q) :
  Spec.total (x :: l) = x + Spec.total l.
Proof. reflexivity. Qed.

Lemma total_app (l1 l2 : list Q) :
  Spec.total (l1 ++ l2) == Spec.total l1 + Spec.total l2.
Proof.
  induction l1 as [|x l1 IH]; simpl.
  - lra.
  - rewrite IH. lra.
Qed.

Lemma total_perm (l1 l2 : list Q) :
  Permutation l1 l2 -> Spec.total l1 == Spec.total l2.
Proof.
  induction 1 as [|x l1 l2 _ IH|x y l|l1 l2 l3 _ IH1 _ IH2]; simpl.
  - reflexivity.
  - rewrite IH. reflexivity.
  - lra.
  - rewrite IH1. exact IH2.
Qed.

Lemma total_profitOf (l : list Bet) :
  Spec.total (map Spec.profitOf l) == sumReturn l - sumStake l.
Proof.
  rewrite sumReturn_total, sumStake_total. unfold Spec.profitOf.
  induction l as [|b l IH]; simpl.
  - lra.
  - rewrite IH. lra.
Qed.

Lemma onGrid_comp (f : nat) (x y : Q) : x == y -> JS.onGrid f x -> JS.onGrid f y.
Proof. intros E [n Hn]. exists n. rewrite <- E. exact Hn. Qed.

Lemma onGrid_0 (f : nat) : JS.onGrid f 0.
Proof. exists 0%Z. reflexivity. Qed.

Lemma onGrid_plus (f : nat) (x y : Q) :
  JS.onGrid f x -> JS.onGrid f y -> JS.onGrid f (x + y).
Proof.
  intros [n Hn] [k Hk]. exists (n + k)%Z. rewrite Hn, Hk.
  unfold Qeq, Qplus. simpl. nia.
Qed.

Lemma onGrid_opp (f : nat) (x : Q) : JS.onGrid f x -> JS.onGrid f (- x).
Proof.
  intros [n Hn]. exists (- n)%Z. rewrite Hn. reflexivity.
Qed.

Lemma onGrid_minus (f : nat) (x y : Q) :
  JS.onGrid f x -> JS.onGrid f y -> JS.onGrid f (x - y).
Proof. intros Hx Hy. apply onGrid_plus; [exact Hx | apply onGrid_opp, Hy]. Qed.

Lemma onGrid_total (f : nat) (l : list Q) :
  Forall (JS.onGrid f) l -> JS.onGrid f (Spec.total l).
Proof.
  induction 1 as [|x l Hx _ IH]; simpl.
  - apply onGrid_0.
  - apply onGrid_plus; assumption.
Qed.

(** Every effective return is a whole number of pence. *)
Lemma effectiveReturn_onGrid (b : Bet) :
  JS.onGrid 2 (JS.orElse (effectiveReturn b) 0).
Proof.
  unfold effectiveReturn, defaultReturn.
  destruct (isSettled (status b)); [|apply onGrid_0].
  destruct (returnOverride b); [apply toFixed_onGrid|].
  destruct (status_eqb (status b) Won); [apply toFixed_onGrid|].
  destruct (status_eqb (status b) Lost); apply onGrid_0.
Qed.

Lemma sumReturn_onGrid (l : list Bet) : JS.onGrid 2 (sumReturn l).
Proof.
  apply (onGrid_comp 2 _ _ (Qeq_sym _ _ (sumReturn_total l))).
  apply onGrid_total. rewrite Forall_map, Forall_forall.
  intros b _. apply effectiveReturn_onGrid.
Qed.

(** ** The totals of the tracker *)

(** The profit of the totals is the sum of the profits of the settled
    records, rounded once. *)
Lemma totals_profit (m : Tracker.Model) :
  Totals.profit (Tracker.totals m)
  = JS.toFixed 2
      (Spec.total (map Spec.profitOf (settledOf (Tracker.bets m)))).
Proof.
  unfold Tracker.totals. simpl. apply toFixed_comp.
  rewrite (toFixed_id 2 _ (sumReturn_onGrid _)), total_profitOf.
  reflexivity.
Qed.

Lemma clamp01_clamp (v : Q) : Tracker.clamp01 v == Spec.clamp v 0 1.
Proof.
  unfold Tracker.clamp01, Spec.clamp, JS.max, JS.min, JS.ltb.
  destruct (Qle_bool 0 v) eqn:H0; simpl.
  - apply Qle_bool_iff in H0.
    destruct (Qle_bool v 1) eqn:H1; simpl.
    + apply Qle_bool_iff in H1.
      rewrite (Q.min_r 1 v H1). apply Q.max_r. exact H0.
    + assert (H2 : 1 < v).
      { apply Qnot_le_lt. intros C. apply Qle_bool_iff in C. congruence. }
      rewrite (Q.min_l 1 v) by lra. apply Q.max_r. lra.
  - assert (H2 : v < 0).
    { apply Qnot_le_lt. intros C. apply Qle_bool_iff in C. congruence. }
    rewrite (Q.min_r 1 v) by lra. apply Q.max_l. lra.
Qed.

(** ** Goal progress *)

Lemma clamp01_one (v : Q) : 1 <= v -> Tracker.clamp01 v == 1.
Proof.
  intros H. unfold Tracker.clamp01, JS.max, JS.min.
  rewrite (Q.min_l 1 v H). apply Q.max_r. lra.
Qed.

Lemma gtb_true (a b : Q) : JS.gtb a b = true <-> b < a.
Proof.
  unfold JS.gtb, JS.ltb. rewrite negb_true_iff. split.
  - intros H. apply Qnot_le_lt. intros C. apply Qle_bool_iff in C. congruence.
  - intros H. destruct (Qle_bool a b) eqn:E; [|reflexivity].
    apply Qle_bool_iff in E. lra.
Qed.

Lemma gtb_false (a b : Q) : JS.gtb a b = false <-> ~ b < a.
Proof.
  rewrite <- gtb_true. destruct (JS.gtb a b); split; congruence.
Qed.

(** C5. Goal progress is [clamp(profit / targetProfit, 0, 1)] when the
    target is positive and 0 otherwise; the profit is the one of all the
    settled records, whatever the filter of the view; a profit of 150
    against a target of 100 gives a progress of 1. *)
Theorem goal_progress (m : Tracker.Model) :
  let t := Tracker.totals m in
  let target := targetProfit (Tracker.state m) in
  (0 < target ->
   Totals.progress t == Spec.clamp (Totals.profit t / target) 0 1) /\
  (~ 0 < target -> Totals.progress t = 0) /\
  Totals.profit t
  = JS.toFixed 2
      (Spec.total (map Spec.profitOf (settledOf (Tracker.bets m)))) /\
  (forall f : Filter.t, Tracker.totals (Tracker.setFilter f m) = t) /\
  (Totals.profit t == 150 -> target == 100 -> Totals.progress t == 1).
Proof.
  intros t target. repeat split.
  - intros H. apply gtb_true in H. subst t target.
    unfold Tracker.totals at 1. simpl. rewrite H. apply clamp01_clamp.
  - intros H. apply gtb_false in H. subst t target.
    unfold Tracker.totals. simpl. rewrite H. reflexivity.
  - apply totals_profit.
  - intros Hp Ht.
    assert (H : JS.gtb target 0 = true) by (apply gtb_true; lra).
    subst t target. unfold Tracker.totals in *. simpl in *. rewrite H.
    apply clamp01_one. rewrite Hp, Ht. unfold Qle. simpl. lia.
Qed.

Lemma goal_progress_witness :
  Totals.profit (Tracker.totals (Sample.ledger 100 [Sample.bigWin])) == 150
  /\ Totals.progress (Tracker.totals (Sample.ledger 100 [Sample.bigWin]))
     == 1.
Proof.
  assert (H : Totals.profit (Tracker.totals (Sample.ledger 100 [Sample.bigWin]))
              == 150) by (vm_compute; reflexivity).
  split; [exact H|].
  apply (goal_progress (Sample.ledger 100 [Sample.bigWin]));
    [exact H | reflexivity].
Defined.

(** ** The cumulative profit series *)

Lemma StronglySorted_weaken {A : Type} (R S : A -> A -> Prop) (l : list A) :
  (forall a b, R a b -> S a b) -> StronglySorted R l -> StronglySorted S l.
Proof.
  intros HRS. induction 1 as [|x l _ IH Hx]; constructor.
  - exact IH.
  - revert Hx. apply Forall_impl. intros b. apply HRS.
Qed.

Lemma cumulative_fold (l : list Bet) (run : Q) (pts : list Point.t) :
  snd (fold_left Tracker.cumulativeStep l (run, pts))
  = pts ++ Spec.runningPoints run l.
Proof.
  revert run pts. induction l as [|b l IH]; intros run pts; simpl.
  - rewrite app_nil_r. reflexivity.
  - unfold Tracker.cumulativeStep at 2. simpl. rewrite IH, <- app_assoc.
    reflexivity.
Qed.

Lemma runningPoints_last (l : list Bet) (run : Q) :
  l <> [] ->
  exists (pts : list Point.t) (final : Point.t),
    Spec.runningPoints run l = pts ++ [final] /\
    Point.value final
    = JS.toFixed 2 (run + Spec.total (map Spec.profitOf l)).
Proof.
  revert run. induction l as [|b l IH]; intros run Hl; [congruence|].
  destruct l as [|b' l].
  - exists [], (Point.mk (date b) (JS.toFixed 2 (run + Spec.profitOf b))).
    split; [reflexivity|]. cbn [Point.value]. apply toFixed_comp.
    cbn [map Spec.total fold_right]. lra.
  - destruct (IH (run + Spec.profitOf b)) as (pts & final & E & V);
      [discriminate|].
    exists (Point.mk (date b) (JS.toFixed 2 (run + Spec.profitOf b)) :: pts),
      final.
    split.
    + change (Spec.runningPoints run (b :: b' :: l))
        with (Point.mk (date b) (JS.toFixed 2 (run + Spec.profitOf b))
              :: Spec.runningPoints (run + Spec.profitOf b) (b' :: l)).
      rewrite E. reflexivity.
    + rewrite V. apply toFixed_comp.
      set (l' := b' :: l). cbn [map Spec.total fold_right].
      fold (Spec.total (map Spec.profitOf l')). lra.
Qed.

(** C2. When the list has a settled record, the cumulative series is
    the settled records sorted ascending by date, stably, then the
    running sum of (effective return minus stake), one point per record,
    after a zero point at the first settled date: it starts at 0 and its
    last value is the total settled profit. *)
Theorem cumulative_series (m : Tracker.Model) :
  settledOf (Tracker.bets m) <> [] ->
  exists (first : Bet) (rest : list Bet) (pts : list Point.t)
         (final : Point.t),
    Permutation (first :: rest) (settledOf (Tracker.bets m)) /\
    StronglySorted (fun a b => Spec.dateLe (date a) (date b))
      (first :: rest) /\
    (forall d : string,
        List.filter (fun b => String.eqb (date b) d) (first :: rest)
        = List.filter (fun b => String.eqb (date b) d)
            (settledOf (Tracker.bets m))) /\
    Tracker.cumulative m
    = Point.mk (date first) 0 :: Spec.runningPoints 0 (first :: rest) /\
    Tracker.cumulative m = Point.mk (date first) 0 :: pts ++ [final] /\
    Point.value final = Totals.profit (Tracker.totals m).
Proof.
  intros Hs.
  pose proof (sort_perm Tracker.byDateAscending (settledOf (Tracker.bets m)))
    as Hperm.
  destruct (JS.sort Tracker.byDateAscending (settledOf (Tracker.bets m)))
    as [|first rest] eqn:Hsort.
  { apply Permutation_nil in Hperm. congruence. }
  destruct (runningPoints_last (first :: rest) 0) as (pts & final & E & V);
    [discriminate|].
  assert (Hc : Tracker.cumulative m
               = Point.mk (date first) 0
                 :: Spec.runningPoints 0 (first :: rest)).
  { unfold Tracker.cumulative. rewrite Hsort, cumulative_fold.
    reflexivity. }
  exists first, rest, pts, final. repeat split.
  - exact Hperm.
  - rewrite <- Hsort.
    apply (StronglySorted_weaken
             (fun a b => Tracker.byDateAscending a b <> Gt)).
    + intros a b H. apply dateLe_compare, H.
    + apply sort_sorted.
      * intros x y. apply string_compare_total.
      * intros x y z. apply string_compare_trans.
  - intros d. rewrite <- Hsort. apply sort_stable.
    intros x y Hxy Hx Hy. apply String.eqb_eq in Hx, Hy.
    unfold Tracker.byDateAscending, JS.localeCompare in Hxy.
    rewrite Hx, Hy, string_compare_refl in Hxy. discriminate.
  - exact Hc.
  - rewrite Hc, E. reflexivity.
  - rewrite V, totals_profit. apply toFixed_comp.
    rewrite (total_perm _ _ (Permutation_map Spec.profitOf Hperm)). lra.
Qed.

Lemma cumulative_series_witness :
  exists (first : Bet) (rest : list Bet) (pts : list Point.t)
         (final : Point.t),
    Tracker.cumulative (Sample.ledger 100 Sample.week)
    = Point.mk (date first) 0 :: pts ++ [final] /\
    Point.value final
    = Totals.profit (Tracker.totals (Sample.ledger 100 Sample.week)).
Proof.
  destruct (cumulative_series (Sample.ledger 100 Sample.week))
    as (first & rest & pts & final & _ & _ & _ & _ & Hc & Hv).
  - vm_compute. discriminate.
  - exists first, rest, pts, final. split; assumption.
Defined.

(** ** The filters *)



Lemma truthy_iff (s : string) : JS.truthy s = true <-> s <> EmptyString.
Proof. destruct s; simpl; split; congruence. Qed.













(** ** Delete and undo *)

Lemma find_filter_unique (i : string) (l : list Bet) :
  NoDup (map id l) -> In i (map id l) ->
  exists d : Bet,
    find (fun b => String.eqb (id b) i) l = Some d /\ In d l /\ id d = i /\
    ~ In d (List.filter (fun b => negb (String.eqb (id b) i)) l) /\
    Permutation (d :: List.filter (fun b => negb (String.eqb (id b) i)) l) l.
Proof.
  induction l as [|x l IH]; simpl; intros Hnd Hin; [contradiction|].
  inversion Hnd as [|? ? Hx Hl]; subst.
  destruct (String.eqb (id x) i) eqn:E; simpl.
  - apply String.eqb_eq in E. exists x.
    assert (Hall : List.filter (fun b => negb (String.eqb (id b) i)) l = l).
    { apply forallb_filter_id, forallb_forall. intros y Hy.
      apply negb_true_iff, String.eqb_neq. intros Ey.
      apply Hx. rewrite E, <- Ey. apply in_map, Hy. }
    rewrite Hall. repeat split; auto.
    intros Hi. apply Hx. apply in_map, Hi.
  - apply String.eqb_neq in E. destruct Hin as [Hin | Hin]; [contradiction|].
    destruct (IH Hl Hin) as (d & Hf & Hd & Hid & Hnot & Hperm).
    exists d. repeat split; auto.
    + intros [-> | Hi]; [contradiction | exact (Hnot Hi)].
    + rewrite perm_swap. apply perm_skip, Hperm.
Qed.

(** C9. With unique identifiers, deleting the record of an identifier
    of the list and undoing before the timer expires gives back the
    records of the list: the slot holds the record of that identifier,
    the record is out of the list after the delete, and the undo puts
    that same record, all its fields and its identifier unchanged, in
    front of the others. *)
Theorem delete_undo_restores (m : Tracker.Model) (i : string) :
  NoDup (map id (Tracker.bets m)) ->
  In i (map id (Tracker.bets m)) ->
  exists d : Bet,
    In d (Tracker.bets m) /\ id d = i /\
    Tracker.lastDeleted (Tracker.deleteBet i m) = Some d /\
    ~ In d (Tracker.bets (Tracker.deleteBet i m)) /\
    Tracker.bets (Tracker.undoDelete (Tracker.deleteBet i m))
    = d :: Tracker.bets (Tracker.deleteBet i m) /\
    Permutation (Tracker.bets (Tracker.undoDelete (Tracker.deleteBet i m)))
      (Tracker.bets m) /\
    Tracker.lastDeleted (Tracker.undoDelete (Tracker.deleteBet i m)) = None.
Proof.
  intros Hnd Hin.
  destruct (find_filter_unique i (Tracker.bets m) Hnd Hin)
    as (d & Hf & Hd & Hid & Hnot & Hperm).
  exists d. unfold Tracker.undoDelete, Tracker.deleteBet. simpl.
  rewrite Hf. simpl. repeat split; auto.
Qed.

Lemma delete_undo_restores_witness :
  exists d : Bet,
    In d Sample.week /\ id d = "b2"%string /\
    Permutation
      (Tracker.bets
         (Tracker.undoDelete
            (Tracker.deleteBet "b2" (Sample.ledger 100 Sample.week))))
      Sample.week.
Proof.
  destruct (delete_undo_restores (Sample.ledger 100 Sample.week) "b2")
    as (d & Hd & Hid & _ & _ & _ & Hperm & _).
  - simpl. repeat constructor; simpl; intuition discriminate.
  - simpl. auto.
  - exists d. repeat split; assumption.
Defined.

(** Once the timer has emptied the slot, the undo changes nothing. *)
Lemma undo_after_expiry (m : Tracker.Model) (i : string) :
  Tracker.undoDelete (Tracker.undoExpired (Tracker.deleteBet i m))
  = Tracker.undoExpired (Tracker.deleteBet i m).
Proof. reflexivity. Qed.

(** The slot holds one record: a second delete replaces the first. *)
Lemma second_delete_replaces (m : Tracker.Model) (i j : string) :
  Tracker.lastDeleted (Tracker.deleteBet j (Tracker.deleteBet i m))
  = find (fun b => String.eqb (id b) j)
      (List.filter (fun b => negb (String.eqb (id b) i)) (Tracker.bets m)).
Proof. reflexivity. Qed.

(** Without unique identifiers the delete takes every record of the
    identifier and the undo gives back the first of them only. *)
Lemma undo_with_shared_identifier :
  map date
    (Tracker.bets
       (Tracker.undoDelete
          (Tracker.deleteBet "x" (Sample.ledger 100 Sample.twins))))
  = ["2024-01-02"%string].
Proof. reflexivity. Qed.

(** ** Adding and editing *)

(** What [addBet] and [saveEdit] do to [settledAt].  A new record has
    it exactly when it is created settled; an edited record has it as
    soon as the record was settled before the edit or is settled after
    it. *)
Lemma addBet_settledAt (Number : string -> option JS.number)
  (now uid : string) (m : Tracker.Model) :
  Tracker.addDisabled Number m = false ->
  exists b : Bet,
    Tracker.bets (Tracker.addBet Number now uid m) = b :: Tracker.bets m /\
    status b = Form.status (Tracker.form m) /\
    (settledAt b <> None <-> status b = Won \/ status b = Lost).
Proof.
  intros H. unfold Tracker.addBet. rewrite H. eexists.
  split; [reflexivity|]. cbn [status settledAt].
  split; [reflexivity|].
  rewrite <- isSettled_iff.
  destruct (isSettled (Form.status (Tracker.form m)));
    split; intros H'; try reflexivity; try discriminate;
    exfalso; apply H'; reflexivity.
Qed.

Lemma editedBet_settledAt (Number : string -> option JS.number)
  (now : string) (v : EditVals.t) (b : Bet) :
  let b' := Tracker.editedBet Number now v b in
  status b' = EditVals.status v /\
  (status b = Pending ->
   (settledAt b' <> None <-> status b' = Won \/ status b' = Lost)) /\
  (status b = Won \/ status b = Lost -> settledAt b' = Some now).
Proof.
  unfold Tracker.editedBet. cbn [status settledAt].
  split; [reflexivity|]. split.
  - intros ->. cbn [isSettled status_eqb orb]. rewrite <- isSettled_iff.
    destruct (isSettled (EditVals.status v));
      split; intros H'; try reflexivity; try discriminate;
      exfalso; apply H'; reflexivity.
  - intros H. apply isSettled_iff in H. rewrite H. reflexivity.
Qed.

(** What [addBet] does keep: a record it stores has a stake of whole
    pence that is not negative and odds of at least 1. *)
Lemma addBet_keeps_bounds (Number : string -> option JS.number)
  (now uid : string) (m : Tracker.Model) :
  Tracker.addDisabled Number m = false ->
  exists b : Bet,
    Tracker.bets (Tracker.addBet Number now uid m) = b :: Tracker.bets m /\
    Spec.wholePence b /\ 0 <= stake b /\ 1 <= oddsDecimal b.
Proof.
  intros H. unfold Tracker.addBet. rewrite H.
  unfold Tracker.addDisabled in H.
  apply orb_false_iff in H. destruct H as [H Ho].
  apply orb_false_iff in H. destruct H as [_ Hs].
  apply Qle_bool_false in Hs, Ho.
  eexists. split; [reflexivity|]. cbn [stake oddsDecimal Spec.wholePence].
  split; [apply toFixed_onGrid|]. split.
  - apply (Qle_trans _ (JS.toFixed 2 0)); [|apply toFixed_mono; lra].
    apply Qle_lteq. right. symmetry. apply toFixed_id, onGrid_0.
  - assert (H1 : JS.onGrid 3 1) by (exists 1000%Z; reflexivity).
    apply (Qle_trans _ (JS.toFixed 3 1)); [|apply toFixed_mono; lra].
    apply Qle_lteq. right. symmetry. apply toFixed_id, H1.
Qed.

(** C7. An edit that sets a Won record back to Pending leaves the
    record with a [settledAt], the time of the edit: after [saveEdit]
    the status is Pending and [settledAt] is present. *)
Theorem saveEdit_reopened_keeps_settledAt :
  status Sample.bigWin = Won /\
  map (fun b => (status b, settledAt b))
    (Tracker.bets
       (Tracker.saveEdit Platform.Number Sample.later "a1"
          (Tracker.setEditVals Sample.reopen
             (Sample.ledger 100 [Sample.bigWin]))))
  = [(Pending, Some Sample.later)].
Proof. split; reflexivity. Qed.

(** C8. The invariants [oddsDecimal > 1] and [stake > 0] are not kept:
    [saveEdit] stores a stake of 0 and odds of 0.5 on a valid record,
    and [addBet] accepts a stake of 0.004 and odds of 1.0004, which it
    stores as 0 and 1. *)
Theorem edit_and_add_break_validity :
  (Spec.validBet Sample.bigWin /\
   exists b : Bet,
     Tracker.bets
       (Tracker.saveEdit Platform.Number Sample.later "a1"
          (Tracker.setEditVals Sample.zeroEdit
             (Sample.ledger 100 [Sample.bigWin]))) = [b] /\
     stake b == 0 /\ oddsDecimal b == 0.5 /\ ~ Spec.validBet b) /\
  (Tracker.addDisabled Platform.Number
     (Tracker.setForm (fun _ => Sample.tinyForm) (Sample.ledger 100 []))
   = false /\
   exists b : Bet,
     Tracker.bets
       (Tracker.addBet Platform.Number Sample.later "c1"
          (Tracker.setForm (fun _ => Sample.tinyForm) (Sample.ledger 100 [])))
     = [b] /\
     stake b == 0 /\ oddsDecimal b == 1 /\ ~ Spec.validBet b).
Proof.
  split.
  - split; [split; reflexivity|].
    eexists. split; [reflexivity|]. vm_compute.
    repeat split; try reflexivity. intros [H _]. discriminate.
  - split; [reflexivity|].
    eexists. split; [reflexivity|]. vm_compute.
    repeat split; try reflexivity. intros [H _]. discriminate.
Qed.

(** ** Odds bands *)

Lemma inBandOf_spec (band : Band.t) (b : Bet) :
  Insights.inBandOf band b = true
  <-> Spec.within (Band.min band, Band.max band) (oddsDecimal b).
Proof.
  unfold Insights.inBandOf, Spec.within, JS.geb, JS.leb. simpl.
  rewrite andb_true_iff, Qle_bool_iff.
  destruct (Band.max band) as [hi|].
  - rewrite Qle_bool_iff. reflexivity.
  - split; intros [H _]; split; auto.
Qed.

Lemma bandRow_spec (settled : list Bet) (band : Band.t) :
  let row := Insights.bandRow settled band in
  BandRow.band row = Band.label band /\
  BandRow.bets row
  = List.length (List.filter (Insights.inBandOf band) settled) /\
  (BandRow.bets row = O ->
   row = BandRow.mk (Band.label band) O O 0 0 0 0 0).
Proof.
  unfold Insights.bandRow.
  destruct (List.length (List.filter (Insights.inBandOf band) settled));
    simpl; repeat split; auto; discriminate.
Qed.

Lemma bandRow_band (settled : list Bet) (band : Band.t) :
  BandRow.band (Insights.bandRow settled band) = Band.label band.
Proof. apply bandRow_spec. Qed.

Lemma filter_length_zero {A : Type} (p : A -> bool) (l : list A) :
  List.length (List.filter p l) = O <-> forall x, In x l -> p x = false.
Proof.
  induction l as [|x l IH]; simpl.
  - split; [intros _ y [] | reflexivity].
  - destruct (p x) eqn:E; simpl.
    + split; [discriminate|]. intros H.
      specialize (H x (or_introl eq_refl)). congruence.
    + rewrite IH. split.
      * intros H y [<- | Hy]; auto.
      * intros H y Hy. apply H. right. exact Hy.
Qed.

Lemma bandRow_report (settled : list Bet) (band : Band.t) :
  Spec.bandReport settled (Band.min band, Band.max band)
    (Insights.bandRow settled band).
Proof.
  destruct (bandRow_spec settled band) as (_ & Hn & Hz).
  split.
  - rewrite Hn, filter_length_zero. split.
    + intros H b Hb Hw. apply inBandOf_spec in Hw.
      rewrite (H b Hb) in Hw. discriminate.
    + intros H b Hb. destruct (Insights.inBandOf band b) eqn:E; auto.
      apply inBandOf_spec in E. destruct (H b Hb E).
  - intros H. rewrite (Hz H). simpl. repeat split.
Qed.

(** C6. For every bet list, the empty one too, the calibration has
    exactly 5 rows, in the order of the bands [1.01, 1.49],
    [1.50, 1.99], [2.00, 2.99], [3.00, 4.99], [5.00, infinity); the row
    of a band without settled bet is there, with all its statistics
    at 0. *)
Theorem oddsBands_five_rows (mi : Insights.Model) :
  let rows := Insights.oddsBands mi in
  List.length rows = 5%nat /\
  map BandRow.band rows
  = ["1.01 to 1.49"; "1.50 to 1.99"; "2.00 to 2.99"; "3.00 to 4.99";
     "5.00 or more"]%string /\
  Forall2 (Spec.bandReport (settledOf (Insights.filteredBets mi)))
    Spec.bandBounds rows /\
  (Insights.bets mi = [] ->
   Forall (fun row => BandRow.bets row = O) rows).
Proof.
  unfold Insights.oddsBands, Insights.bands. cbn [map].
  split; [reflexivity|]. split.
  { rewrite !bandRow_band. reflexivity. }
  split.
  { unfold Spec.bandBounds.
    repeat (constructor;
            [match goal with
             | |- Spec.bandReport _ _ (Insights.bandRow _ ?band) =>
                 exact (bandRow_report _ band)
             end|]).
    constructor. }
  intros H. unfold Insights.filteredBets. rewrite H. simpl.
  repeat constructor.
Qed.

Lemma oddsBands_five_rows_witness :
  List.length (Insights.oddsBands Sample.weekInsights) = 5%nat /\
  Forall (fun row => BandRow.bets row = O)
    (Insights.oddsBands (Sample.insights InsightsFilter.initial [])).
Proof.
  split.
  - exact (proj1 (oddsBands_five_rows Sample.weekInsights)).
  - apply (oddsBands_five_rows (Sample.insights InsightsFilter.initial [])).
    reflexivity.
Defined.

Lemma oddsBands_empty :
  Insights.oddsBands (Sample.insights InsightsFilter.initial [])
  = [ BandRow.mk "1.01 to 1.49" O O 0 0 0 0 0;
      BandRow.mk "1.50 to 1.99" O O 0 0 0 0 0;
      BandRow.mk "2.00 to 2.99" O O 0 0 0 0 0;
      BandRow.mk "3.00 to 4.99" O O 0 0 0 0 0;
      BandRow.mk "5.00 or more" O O 0 0 0 0 0 ].
Proof. reflexivity. Qed.

(** *** The gaps between the bands *)

Lemma count_cons {A B : Type} (p : B -> A -> bool) (bs : list B) (x : A)
  (l : list A) :
  list_sum (map (fun band => List.length (List.filter (p band) (x :: l))) bs)
  = (List.length (List.filter (fun band => p band x) bs)
     + list_sum (map (fun band => List.length (List.filter (p band) l)) bs))%nat.
Proof.
  induction bs as [|band bs IH]; simpl; [reflexivity|].
  simpl in IH. rewrite IH. destruct (p band x); simpl; lia.
Qed.

(** Counting band by band or record by record gives the same number. *)
Lemma count_exchange {A B : Type} (p : B -> A -> bool) (bs : list B)
  (l : list A) :
  list_sum (map (fun band => List.length (List.filter (p band) l)) bs)
  = list_sum
      (map (fun x => List.length (List.filter (fun band => p band x) bs)) l).
Proof.
  induction l as [|x l IH].
  - simpl. induction bs as [|band bs IHb]; simpl; auto.
  - rewrite count_cons, IH. reflexivity.
Qed.

Lemma list_sum_short {A : Type} (f : A -> nat) (l : list A) (b : A) :
  (forall x, f x <= 1)%nat -> In b l -> f b = O ->
  (list_sum (map f l) < List.length l)%nat.
Proof.
  intros Hf Hin Hb.
  assert (Hle : forall l', (list_sum (map f l') <= List.length l')%nat).
  { induction l' as [|x l' IH]; simpl; [lia|]. specialize (Hf x). lia. }
  induction l as [|x l IH]; simpl; [contradiction|].
  destruct Hin as [-> | Hin].
  - rewrite Hb. specialize (Hle l). lia.
  - specialize (IH Hin). specialize (Hf x). lia.
Qed.

Ltac split_le :=
  repeat match goal with
    | |- context [Qle_bool ?a ?b] =>
        let H := fresh "H" in
        destruct (Qle_bool a b) eqn:H;
        [apply Qle_bool_iff in H | apply Qle_bool_false in H];
        cbn [andb negb]; try (exfalso; lra)
    end.

(** The bands are disjoint: a record is in one band at most. *)
Lemma bands_disjoint (b : Bet) :
  (List.length (List.filter (fun band => Insights.inBandOf band b)
                  Insights.bands) <= 1)%nat.
Proof.
  unfold Insights.bands, Insights.inBandOf, JS.geb, JS.leb.
  cbn [List.filter Band.min Band.max].
  split_le; cbn [List.length]; lia.
Qed.

Lemma gap_in_no_band (b : Bet) :
  Spec.inGap (oddsDecimal b) ->
  List.filter (fun band => Insights.inBandOf band b) Insights.bands = [].
Proof.
  unfold Spec.inGap, Insights.bands, Insights.inBandOf, JS.geb, JS.leb.
  cbn [List.filter Band.min Band.max]. intros Hg.
  split_le; try reflexivity; exfalso; lra.
Qed.

(** C10. The bands leave gaps: a settled record whose odds are between
    1.49 and 1.50, 1.99 and 2.00, 2.99 and 3.00, 4.99 and 5.00, or below
    1.01, is in no band, and then the five counts of bets add up to
    less than the number of settled records. *)
Theorem oddsBands_gaps (mi : Insights.Model) (b : Bet) :
  In b (settledOf (Insights.filteredBets mi)) ->
  Spec.inGap (oddsDecimal b) ->
  (forall bound : Q * option Q,
      In bound Spec.bandBounds -> ~ Spec.within bound (oddsDecimal b)) /\
  (list_sum (map BandRow.bets (Insights.oddsBands mi))
   < List.length (settledOf (Insights.filteredBets mi)))%nat.
Proof.
  intros Hin Hgap. split.
  - intros bound Hb [Hlo Hhi]. unfold Spec.inGap in Hgap.
    unfold Spec.bandBounds in Hb. simpl in Hb.
    repeat (destruct Hb as [<- | Hb]; [simpl in Hlo, Hhi; lra|]).
    contradiction.
  - unfold Insights.oddsBands. rewrite map_map.
    rewrite (map_ext _ (fun band =>
               List.length (List.filter (Insights.inBandOf band)
                              (settledOf (Insights.filteredBets mi)))))
      by (intros band; apply bandRow_spec).
    rewrite (count_exchange Insights.inBandOf).
    apply (list_sum_short _ _ b).
    + apply bands_disjoint.
    + exact Hin.
    + rewrite gap_in_no_band by exact Hgap. reflexivity.
Qed.

(** A record that [addBet] stores with odds of 1.495 is in no band. *)
Lemma oddsBands_gaps_witness :
  map oddsDecimal Sample.gapStored = [1495 # 1000] /\
  (list_sum (map BandRow.bets (Insights.oddsBands Sample.gapInsights))
   < List.length (settledOf (Insights.filteredBets Sample.gapInsights)))%nat.
Proof.
  split; [reflexivity|].
  assert (Hb : exists b,
             In b (settledOf (Insights.filteredBets Sample.gapInsights))
             /\ oddsDecimal b = 1495 # 1000).
  { eexists. split; [left; reflexivity | reflexivity]. }
  destruct Hb as (b & Hin & Ho).
  apply (oddsBands_gaps Sample.gapInsights b Hin).
  left. rewrite Ho. split; reflexivity.
Defined.

(** ** Sum of parts *)

Section MapFacts.
Context {K : Type}.
Variable eqb : K -> K -> bool.

Lemma mapSet_profit (k : K) (v : Stat.t) (m : list (K * Stat.t)) :
  Spec.entriesProfit (JS.mapSet eqb k v m)
  == Spec.entriesProfit m + Stat.profit v
     - Stat.profit (JS.orElse (JS.mapGet eqb k m) Stat.zero).
Proof.
  unfold Spec.entriesProfit.
  induction m as [|[k' v'] m IH]; simpl.
  - lra.
  - destruct (eqb k k'); simpl.
    + lra.
    + rewrite IH. lra.
Qed.

Lemma mapGet_Forall (P : Stat.t -> Prop) (k : K) (m : list (K * Stat.t)) :
  Forall (fun e => P (snd e)) m -> P Stat.zero ->
  P (JS.orElse (JS.mapGet eqb k m) Stat.zero).
Proof.
  intros Hm H0. induction Hm as [|[k' v'] m Hv _ IH]; simpl.
  - exact H0.
  - destruct (eqb k k'); [exact Hv | exact IH].
Qed.

Lemma mapSet_Forall (P : Stat.t -> Prop) (k : K) (v : Stat.t)
  (m : list (K * Stat.t)) :
  Forall (fun e => P (snd e)) m -> P v ->
  Forall (fun e => P (snd e)) (JS.mapSet eqb k v m).
Proof.
  intros Hm Hv. induction Hm as [|[k' v'] m Hv' Hm IH]; simpl.
  - constructor; [exact Hv | constructor].
  - destruct (eqb k k'); constructor; auto.
Qed.

Hypothesis eqb_eq : forall a b, eqb a b = true <-> a = b.

Lemma mapGet_mapSet (k' k : K) (v : Stat.t) (m : list (K * Stat.t)) :
  JS.mapGet eqb k' (JS.mapSet eqb k v m)
  = if eqb k' k then Some v else JS.mapGet eqb k' m.
Proof.
  induction m as [|[k1 v1] m IH]; simpl.
  - reflexivity.
  - destruct (eqb k k1) eqn:E; simpl.
    + apply eqb_eq in E. subst k1.
      destruct (eqb k' k); reflexivity.
    + rewrite IH. destruct (eqb k' k1) eqn:E1; [|reflexivity].
      destruct (eqb k' k) eqn:E2; [|reflexivity].
      apply eqb_eq in E1, E2.
      assert (eqb k k1 = true) by (apply eqb_eq; congruence). congruence.
Qed.
End MapFacts.

Lemma total_ext {A : Type} (f g : A -> Q) (l : list A) :
  (forall x, In x l -> f x == g x) ->
  Spec.total (map f l) == Spec.total (map g l).
Proof.
  induction l as [|x l IH]; intros H; simpl.
  - reflexivity.
  - rewrite (H x (or_introl eq_refl)), IH; [reflexivity|].
    intros y Hy. apply H. right. exact Hy.
Qed.

Lemma accumulate_profit (cur : Stat.t) (b : Bet) :
  Stat.profit (Insights.accumulate cur b)
  = Stat.profit cur + Spec.profitOf b.
Proof.
  unfold Insights.accumulate, Spec.profitOf. simpl.
  rewrite effectiveReturn_insights. reflexivity.
Qed.

Lemma profitOf_onGrid (b : Bet) :
  Spec.wholePence b -> JS.onGrid 2 (Spec.profitOf b).
Proof.
  intros H. apply onGrid_minus; [apply effectiveReturn_onGrid | exact H].
Qed.

(** The loop of a grouped view adds the profit of each settled record
    to one entry of the map and keeps the profits whole pence. *)
Section GroupFacts.
Context {K : Type}.
Variable eqb : K -> K -> bool.
Variable key : Bet -> K.
Variable step : list (K * Stat.t) -> Bet -> list (K * Stat.t).
Hypothesis step_eq :
  forall m b,
    step m b
    = JS.mapSet eqb (key b)
        (if isSettled (status b)
         then Insights.accumulate
                (JS.orElse (JS.mapGet eqb (key b) m) Stat.zero) b
         else JS.orElse (JS.mapGet eqb (key b) m) Stat.zero) m.

Lemma group_fold (l : list Bet) (m : list (K * Stat.t)) :
  Forall Spec.wholePence (settledOf l) ->
  Forall (fun e => JS.onGrid 2 (Stat.profit (snd e))) m ->
  Spec.entriesProfit (fold_left step l m)
  == Spec.entriesProfit m + Spec.total (map Spec.profitOf (settledOf l)) /\
  Forall (fun e => JS.onGrid 2 (Stat.profit (snd e))) (fold_left step l m).
Proof.
  revert m. induction l as [|b l IH]; intros m Hl Hm; cbn [fold_left].
  - split; [simpl; lra | exact Hm].
  - assert (Hs : settledOf (b :: l)
                 = if isSettled (status b) then b :: settledOf l
                   else settledOf l) by reflexivity.
    rewrite Hs in Hl |- *. clear Hs.
    pose proof (mapGet_Forall eqb (fun v => JS.onGrid 2 (Stat.profit v))
                  (key b) m Hm (onGrid_0 2)) as Hcur.
    cbv beta in Hcur.
    destruct (isSettled (status b)) eqn:E.
    + inversion Hl as [|? ? Hb Hl']; subst.
      destruct (IH (step m b)) as [IH1 IH2].
      * exact Hl'.
      * rewrite step_eq, E.
        apply (mapSet_Forall eqb (fun v => JS.onGrid 2 (Stat.profit v)));
          [exact Hm|].
        rewrite accumulate_profit.
        apply onGrid_plus; [exact Hcur | apply profitOf_onGrid, Hb].
      * split; [|exact IH2]. rewrite IH1.
        rewrite step_eq, E, mapSet_profit, accumulate_profit.
        rewrite map_cons, total_cons. lra.
    + destruct (IH (step m b)) as [IH1 IH2].
      * exact Hl.
      * rewrite step_eq, E.
        apply (mapSet_Forall eqb (fun v => JS.onGrid 2 (Stat.profit v)));
          [exact Hm | exact Hcur].
      * split; [|exact IH2]. rewrite IH1.
        rewrite step_eq, E, mapSet_profit. lra.
Qed.
End GroupFacts.

Lemma bySportStep_eq (m : list (Sport * Stat.t)) (b : Bet) :
  Insights.bySportStep m b
  = JS.mapSet sport_eqb (sport b)
      (if isSettled (status b)
       then Insights.accumulate
              (JS.orElse (JS.mapGet sport_eqb (sport b) m) Stat.zero) b
       else JS.orElse (JS.mapGet sport_eqb (sport b) m) Stat.zero) m.
Proof. reflexivity. Qed.

Lemma byCategoryStep_eq (m : list (option FootballCategory * Stat.t))
  (b : Bet) :
  Insights.byCategoryStep m b
  = JS.mapSet Insights.key_eqb (category b)
      (if isSettled (status b)
       then Insights.accumulate
              (JS.orElse (JS.mapGet Insights.key_eqb (category b) m)
                 Stat.zero) b
       else JS.orElse (JS.mapGet Insights.key_eqb (category b) m) Stat.zero)
      m.
Proof. reflexivity. Qed.

Lemma sumStake_onGrid (l : list Bet) :
  Forall Spec.wholePence l -> JS.onGrid 2 (sumStake l).
Proof.
  intros H. apply (onGrid_comp 2 _ _ (Qeq_sym _ _ (sumStake_total l))).
  apply onGrid_total. rewrite Forall_map. exact H.
Qed.

(** With stakes in whole pence the profit of the metrics is the sum of
    the profits of the settled records: the roundings change nothing. *)
Lemma metrics_profit (mi : Insights.Model) :
  Forall Spec.wholePence (settledOf (Insights.filteredBets mi)) ->
  Metrics.profit (Insights.metrics mi)
  == Spec.total (map Spec.profitOf (settledOf (Insights.filteredBets mi))).
Proof.
  intros H. unfold Insights.metrics. cbn [Metrics.profit].
  rewrite sumReturn_insights.
  set (settled := settledOf (Insights.filteredBets mi)) in *.
  rewrite (toFixed_id 2 (sumReturn settled) (sumReturn_onGrid _)).
  rewrite (toFixed_id 2 (sumStake settled) (sumStake_onGrid _ H)).
  rewrite toFixed_id.
  - rewrite total_profitOf. reflexivity.
  - apply onGrid_minus; [apply sumReturn_onGrid | apply sumStake_onGrid, H].
Qed.

Lemma sportRows_profit (entries : list (Sport * Stat.t)) :
  Forall (fun e => JS.onGrid 2 (Stat.profit (snd e))) entries ->
  Spec.total
    (map SportRow.profit
       (JS.sort (fun a b => JS.sign (SportRow.profit b) (SportRow.profit a))
          (map Insights.sportRow entries)))
  == Spec.entriesProfit entries.
Proof.
  intros H.
  rewrite (total_perm _ _ (Permutation_map _ (sort_perm _ _))), map_map.
  unfold Spec.entriesProfit. apply total_ext. intros [k v] Hin.
  rewrite Forall_forall in H. apply (toFixed_id 2 _ (H _ Hin)).
Qed.

Lemma categoryRows_profit
  (entries : list (option FootballCategory * Stat.t)) :
  Forall (fun e => JS.onGrid 2 (Stat.profit (snd e))) entries ->
  Spec.total
    (map CategoryRow.profit
       (JS.sort
          (fun a b => JS.sign (CategoryRow.profit b) (CategoryRow.profit a))
          (map Insights.categoryRow entries)))
  == Spec.entriesProfit entries.
Proof.
  intros H.
  rewrite (total_perm _ _ (Permutation_map _ (sort_perm _ _))), map_map.
  unfold Spec.entriesProfit. apply total_ext. intros [k v] Hin.
  rewrite Forall_forall in H. apply (toFixed_id 2 _ (H _ Hin)).
Qed.

Lemma Forall_sublist_filter {A : Type} (P : A -> Prop) (p : A -> bool)
  (l : list A) : Forall P l -> Forall P (List.filter p l).
Proof.
  rewrite !Forall_forall. intros H x Hx. apply filter_In in Hx. apply H, Hx.
Qed.

Lemma settled_football (l : list Bet) :
  settledOf (Insights.footballOf l) = Insights.footballOf (settledOf l).
Proof.
  unfold settledOf, Insights.footballOf.
  induction l as [|b l IH]; simpl; [reflexivity|].
  destruct (sport_eqb (sport b) Football) eqn:Ef,
           (isSettled (status b)) eqn:Es; simpl;
    rewrite ?Ef, ?Es, ?IH; reflexivity.
Qed.

Lemma day_eqb_eq (a b : option string) :
  Insights.day_eqb a b = true <-> a = b.
Proof.
  destruct a as [x|], b as [y|]; simpl; try (split; congruence).
  rewrite String.eqb_eq. split; congruence.
Qed.

(** Setting the entry of a weekday changes the profit of the seven
    weekdays by the change of that entry. *)
Lemma names_set (d : string) (v : Stat.t)
  (m : list (option string * Stat.t)) :
  In d Insights.names ->
  Spec.namesProfit (JS.mapSet Insights.day_eqb (Some d) v m)
  == Spec.namesProfit m + Stat.profit v
     - Stat.profit
         (JS.orElse (JS.mapGet Insights.day_eqb (Some d) m) Stat.zero).
Proof.
  intros Hd. unfold Spec.namesProfit, Insights.names.
  cbn [map]. rewrite !total_cons.
  rewrite !(mapGet_mapSet Insights.day_eqb day_eqb_eq).
  unfold Insights.names in Hd. simpl in Hd.
  repeat (destruct Hd as [<- | Hd];
          [cbn [Insights.day_eqb String.eqb Ascii.eqb Bool.eqb andb
                JS.orElse]; simpl Spec.total; lra|]).
  contradiction.
Qed.

Lemma dayName_names (getDay : string -> option nat) (b : Bet) :
  Spec.validDay getDay b ->
  exists d : string,
    Insights.dayName getDay (date b) = Some d /\ In d Insights.names.
Proof.
  intros (i & Hi & Hlt). unfold Insights.dayName. rewrite Hi.
  destruct (nth_error Insights.names i) as [d|] eqn:E.
  - exists d. split; [reflexivity|]. apply (nth_error_In _ _ E).
  - apply nth_error_None in E. simpl in E. lia.
Qed.

Lemma weekday_fold (getDay : string -> option nat) (l : list Bet)
  (m : list (option string * Stat.t)) :
  Forall Spec.wholePence (settledOf l) ->
  Forall (Spec.validDay getDay) (settledOf l) ->
  Forall (fun e => JS.onGrid 2 (Stat.profit (snd e))) m ->
  Spec.namesProfit (fold_left (Insights.byWeekdayStep getDay) l m)
  == Spec.namesProfit m + Spec.total (map Spec.profitOf (settledOf l)) /\
  Forall (fun e => JS.onGrid 2 (Stat.profit (snd e)))
    (fold_left (Insights.byWeekdayStep getDay) l m).
Proof.
  revert m. induction l as [|b l IH]; intros m Hl Hv Hm; cbn [fold_left].
  - split; [simpl; lra | exact Hm].
  - assert (Hs : settledOf (b :: l)
                 = if isSettled (status b) then b :: settledOf l
                   else settledOf l) by reflexivity.
    rewrite Hs in Hl, Hv |- *. clear Hs.
    unfold Insights.byWeekdayStep at 2 4.
    destruct (isSettled (status b)) eqn:E; cbn [negb].
    + inversion Hl as [|? ? Hb Hl']; subst.
      inversion Hv as [|? ? Hvb Hv']; subst.
      destruct (dayName_names getDay b Hvb) as (d & Hd & Hin).
      rewrite Hd.
      pose proof (mapGet_Forall Insights.day_eqb
                    (fun v => JS.onGrid 2 (Stat.profit v))
                    (Some d) m Hm (onGrid_0 2)) as Hcur.
      cbv beta in Hcur.
      match goal with
      | |- context [fold_left _ l ?m'] =>
          destruct (IH m' Hl' Hv') as [IH1 IH2]
      end.
      * apply (mapSet_Forall Insights.day_eqb
                 (fun v => JS.onGrid 2 (Stat.profit v))); [exact Hm|].
        rewrite accumulate_profit.
        apply onGrid_plus; [exact Hcur | apply profitOf_onGrid, Hb].
      * split; [|exact IH2]. rewrite IH1.
        rewrite (names_set d _ m Hin), accumulate_profit.
        rewrite map_cons, total_cons. lra.
    + apply IH; assumption.
Qed.

Lemma weekdayRows_profit (map0 : list (option string * Stat.t)) :
  Forall (fun e => JS.onGrid 2 (Stat.profit (snd e))) map0 ->
  Spec.total
    (map WeekdayRow.profit
       (JS.sort
          (fun a b => JS.sign (WeekdayRow.profit b) (WeekdayRow.profit a))
          (map (Insights.weekdayRow map0) Insights.names)))
  == Spec.namesProfit map0.
Proof.
  intros H.
  rewrite (total_perm _ _ (Permutation_map _ (sort_perm _ _))), map_map.
  unfold Spec.namesProfit. apply total_ext. intros day _.
  unfold Insights.weekdayRow. cbn [WeekdayRow.profit].
  apply toFixed_id.
  apply (mapGet_Forall Insights.day_eqb
           (fun v => JS.onGrid 2 (Stat.profit v)) (Some day) map0 H
           (onGrid_0 2)).
Qed.

(** C3, as the code has it.  When the stakes of the settled records are
    whole pence, the profit of the metrics is the sum of the effective
    returns of the settled records less the sum of their stakes; the
    profits of the sport rows add up to it; the profits of the weekday
    rows add up to it when every settled record has a date the calendar
    gives a weekday; the profits of the category rows add up to the
    profit of the settled Football records, which is the profit of the
    metrics when every settled record is a Football one. *)
Theorem profit_sum_of_parts (getDay : string -> option nat)
  (mi : Insights.Model) :
  Forall Spec.wholePence (settledOf (Insights.filteredBets mi)) ->
  let settled := settledOf (Insights.filteredBets mi) in
  let profit := Metrics.profit (Insights.metrics mi) in
  profit
  == Spec.total (map (fun b => JS.orElse (effectiveReturn b) 0) settled)
     - Spec.total (map stake settled) /\
  Spec.total (map SportRow.profit (Insights.bySport mi)) == profit /\
  (Forall (Spec.validDay getDay) settled ->
   Spec.total (map WeekdayRow.profit (Insights.byWeekday getDay mi))
   == profit) /\
  Spec.total (map CategoryRow.profit (Insights.byCategory mi))
  == Spec.total (map Spec.profitOf (Insights.footballOf settled)) /\
  (Forall (fun b => sport b = Football) settled ->
   Spec.total (map CategoryRow.profit (Insights.byCategory mi)) == profit).
Proof.
  intros Hw settled profit.
  assert (Hp : profit == Spec.total (map Spec.profitOf settled))
    by apply (metrics_profit mi Hw).
  assert (Hc : Spec.total (map CategoryRow.profit (Insights.byCategory mi))
               == Spec.total (map Spec.profitOf (Insights.footballOf settled))).
  { unfold Insights.byCategory.
    destruct (group_fold Insights.key_eqb category Insights.byCategoryStep
                byCategoryStep_eq
                (Insights.footballOf (Insights.filteredBets mi)) [])
      as [H1 H2].
    - rewrite settled_football. apply Forall_sublist_filter, Hw.
    - constructor.
    - rewrite (categoryRows_profit _ H2), H1, settled_football.
      unfold Spec.entriesProfit. simpl. fold settled. lra. }
  split; [|split; [|split; [|split]]].
  - rewrite Hp, total_profitOf, sumReturn_total, sumStake_total. reflexivity.
  - rewrite Hp. unfold Insights.bySport.
    destruct (group_fold sport_eqb sport Insights.bySportStep bySportStep_eq
                (Insights.filteredBets mi) [] Hw) as [H1 H2];
      [constructor|].
    rewrite (sportRows_profit _ H2), H1.
    unfold Spec.entriesProfit. simpl. fold settled. lra.
  - intros Hv. rewrite Hp. unfold Insights.byWeekday.
    destruct (weekday_fold getDay (Insights.filteredBets mi) [] Hw Hv)
      as [H1 H2]; [constructor|].
    rewrite (weekdayRows_profit _ H2), H1.
    unfold Spec.namesProfit. simpl. fold settled. lra.
  - exact Hc.
  - intros Hf. rewrite Hc, Hp.
    replace (Insights.footballOf settled) with settled; [reflexivity|].
    symmetry. apply forallb_filter_id, forallb_forall. intros b Hb.
    rewrite Forall_forall in Hf. apply sport_eqb_eq, Hf, Hb.
Qed.

Lemma onGrid_check (f : nat) (x : Q) : JS.toFixed f x == x -> JS.onGrid f x.
Proof. intros H. apply (onGrid_comp f _ _ H), toFixed_onGrid. Qed.

Lemma profit_sum_of_parts_witness :
  Spec.total (map SportRow.profit (Insights.bySport Sample.weekInsights))
  == Metrics.profit (Insights.metrics Sample.weekInsights) /\
  Spec.total
    (map WeekdayRow.profit
       (Insights.byWeekday Platform.getDay Sample.weekInsights))
  == Metrics.profit (Insights.metrics Sample.weekInsights).
Proof.
  destruct (profit_sum_of_parts Platform.getDay Sample.weekInsights)
    as (_ & Hs & Hd & _).
  - repeat constructor; apply onGrid_check; vm_compute; reflexivity.
  - split; [exact Hs|]. apply Hd.
    repeat constructor; eexists; (split; [vm_compute; reflexivity | lia]).
Defined.

(** The claim C3 as it is written fails on the categories: the category
    rows hold the Football records only, so with a lost tennis bet of 5
    the category profits add up to 0 and the total profit is -5. *)
Lemma category_sum_counterexample :
  Forall Spec.wholePence
    (settledOf (Insights.filteredBets Sample.tennisInsights)) /\
  Metrics.profit (Insights.metrics Sample.tennisInsights) == -5 /\
  Spec.total
    (map CategoryRow.profit (Insights.byCategory Sample.tennisInsights))
  == 0 /\
  ~ Spec.total
      (map CategoryRow.profit (Insights.byCategory Sample.tennisInsights))
    == Metrics.profit (Insights.metrics Sample.tennisInsights).
Proof.
  split; [|split; [|split]].
  - repeat constructor; apply onGrid_check; vm_compute; reflexivity.
  - vm_compute. reflexivity.
  - vm_compute. reflexivity.
  - intros H. vm_compute in H. discriminate.
Qed.

(** Stakes that are not whole pence are rounded row by row: two lost
    bets of 0.6 pence on two sports give two sport rows of -0.01 and a
    total profit of -0.01. *)
Lemma sport_sum_sub_penny :
  map SportRow.profit (Insights.bySport Sample.subPennyInsights)
  = [-1 # 100; -1 # 100] /\
  Metrics.profit (Insights.metrics Sample.subPennyInsights) = -1 # 100.
Proof. split; reflexivity. Qed.

(** A settled record whose date has no weekday is in none of the seven
    weekday rows. *)
Lemma weekday_sum_undated :
  Platform.getDay "" = None /\
  Forall (fun row => WeekdayRow.profit row == 0)
    (Insights.byWeekday Platform.getDay Sample.undatedInsights) /\
  Metrics.profit (Insights.metrics Sample.undatedInsights) == -5.
Proof.
  split; [reflexivity|]. split.
  - repeat constructor.
  - vm_compute. reflexivity.
Qed.

(** Filtering the sample by sport and dates. *)
Lemma filter_tennis_example :
  map id
    (Tracker.filteredBets
       (Tracker.setFilter
          (Filter.mk (Some Tennis) None (Some "2024-01-01"%string)
             (Some "2024-01-04"%string) EmptyString)
          (Sample.ledger 100 Sample.week)))
  = ["b2"%string] /\
  map id
    (Tracker.filteredBets
       (Tracker.setFilter (Filter.mk None None None None "WON")
          (Sample.ledger 100 Sample.week)))
  = ["b2"; "b4"]%string.
Proof. split; reflexivity. Qed.

(** * Further properties of the two pages *)

(** ** Maps, whatever they hold *)

Section MapKeys.
Context {K V : Type}.
Variable eqb : K -> K -> bool.
Hypothesis eqb_eq : forall a b, eqb a b = true <-> a = b.

Lemma eqb_refl_of (k : K) : eqb k k = true.
Proof. apply eqb_eq. reflexivity. Qed.

Lemma mapGet_In (k : K) (v : V) (m : list (K * V)) :
  JS.mapGet eqb k m = Some v -> In (k, v) m.
Proof.
  induction m as [|[k' v'] m IH]; simpl; [discriminate|].
  destruct (eqb k k') eqn:E.
  - apply eqb_eq in E. subst k'. intros [= ->]. left. reflexivity.
  - intros H. right. apply IH, H.
Qed.

Lemma mapGet_None (k : K) (m : list (K * V)) :
  JS.mapGet eqb k m = None <-> ~ In k (map fst m).
Proof.
  induction m as [|[k' v'] m IH]; simpl.
  - split; [intros _ [] | reflexivity].
  - destruct (eqb k k') eqn:E.
    + apply eqb_eq in E. subst k'. split; [discriminate|].
      intros H. exfalso. apply H. left. reflexivity.
    + rewrite IH. split.
      * intros H [H1 | H1]; [|exact (H H1)].
        subst k'. rewrite eqb_refl_of in E. discriminate.
      * intros H H1. apply H. right. exact H1.
Qed.

Lemma mapSet_keys (k k' : K) (v : V) (m : list (K * V)) :
  In k' (map fst (JS.mapSet eqb k v m)) <-> k' = k \/ In k' (map fst m).
Proof.
  induction m as [|[k1 v1] m IH]; simpl.
  - intuition.
  - destruct (eqb k k1) eqn:E; simpl.
    + apply eqb_eq in E. subst k1. intuition.
    + rewrite IH. intuition.
Qed.

Lemma mapSet_NoDup (k : K) (v : V) (m : list (K * V)) :
  NoDup (map fst m) -> NoDup (map fst (JS.mapSet eqb k v m)).
Proof.
  induction m as [|[k1 v1] m IH]; simpl; intros H.
  - constructor; [intros [] | constructor].
  - inversion H as [|? ? Hk Hm]; subst.
    destruct (eqb k k1) eqn:E; simpl.
    + apply eqb_eq in E. subst k1. constructor; assumption.
    + constructor; [|apply IH, Hm].
      intros Hin. apply mapSet_keys in Hin. destruct Hin as [-> | Hin].
      * rewrite eqb_refl_of in E. discriminate.
      * exact (Hk Hin).
Qed.

Lemma mapGet_mapSet_any (k' k : K) (v : V) (m : list (K * V)) :
  JS.mapGet eqb k' (JS.mapSet eqb k v m)
  = if eqb k' k then Some v else JS.mapGet eqb k' m.
Proof.
  induction m as [|[k1 v1] m IH]; simpl.
  - reflexivity.
  - destruct (eqb k k1) eqn:E; simpl.
    + apply eqb_eq in E. subst k1.
      destruct (eqb k' k); reflexivity.
    + rewrite IH. destruct (eqb k' k1) eqn:E1; [|reflexivity].
      destruct (eqb k' k) eqn:E2; [|reflexivity].
      apply eqb_eq in E1, E2.
      assert (eqb k k1 = true) by (apply eqb_eq; congruence). congruence.
Qed.
End MapKeys.

Section MapWeights.
Context {K V : Type}.
Variable eqb : K -> K -> bool.
Variable zero : V.

(** A number read off each entry: setting an entry changes the sum of
    these numbers by the change of the entry. *)
Lemma mapSet_weight (w : V -> Q) (k : K) (v : V) (m : list (K * V)) :
  w zero == 0 ->
  Spec.total (map (fun e => w (snd e)) (JS.mapSet eqb k v m))
  == Spec.total (map (fun e => w (snd e)) m) + w v
     - w (JS.orElse (JS.mapGet eqb k m) zero).
Proof.
  intros H0. induction m as [|[k' v'] m IH]; simpl.
  - rewrite H0. lra.
  - destruct (eqb k k'); simpl.
    + lra.
    + rewrite IH. lra.
Qed.

Lemma mapSet_count (w : V -> nat) (k : K) (v : V) (m : list (K * V)) :
  w zero = O ->
  (list_sum (map (fun e => w (snd e)) (JS.mapSet eqb k v m))
   + w (JS.orElse (JS.mapGet eqb k m) zero)
   = list_sum (map (fun e => w (snd e)) m) + w v)%nat.
Proof.
  intros H0. induction m as [|[k' v'] m IH]; simpl.
  - lia.
  - destruct (eqb k k'); simpl; lia.
Qed.

Lemma mapSet_all (P : V -> Prop) (k : K) (v : V) (m : list (K * V)) :
  Forall (fun e => P (snd e)) m -> P v ->
  Forall (fun e => P (snd e)) (JS.mapSet eqb k v m).
Proof.
  intros Hm Hv. induction Hm as [|[k' v'] m Hv' Hm IH]; simpl.
  - constructor; [exact Hv | constructor].
  - destruct (eqb k k'); constructor; auto.
Qed.

Lemma mapGet_all (P : V -> Prop) (k : K) (m : list (K * V)) :
  Forall (fun e => P (snd e)) m -> P zero ->
  P (JS.orElse (JS.mapGet eqb k m) zero).
Proof.
  intros Hm H0. induction Hm as [|[k' v'] m Hv _ IH]; simpl.
  - exact H0.
  - destruct (eqb k k'); [exact Hv | exact IH].
Qed.
End MapWeights.

(** ** Rates and progress *)

Lemma ofNat_nonneg (n : nat) : 0 <= JS.ofNat n.
Proof. unfold JS.ofNat, Qle, inject_Z. simpl. lia. Qed.

Lemma ofNat_le (a b : nat) : (a <= b)%nat -> JS.ofNat a <= JS.ofNat b.
Proof. intros H. unfold JS.ofNat, Qle, inject_Z. simpl. lia. Qed.

Lemma ofNat_pos (n : nat) : (0 < n)%nat -> 0 < JS.ofNat n.
Proof. intros H. unfold JS.ofNat, Qlt, inject_Z. simpl. lia. Qed.

(** A count of some of the things over the count of all of them is a
    rate. *)
Lemma ratio_unit (a b : nat) :
  (a <= b)%nat -> 0 <= JS.ofNat a / JS.ofNat b /\ JS.ofNat a / JS.ofNat b <= 1.
Proof.
  intros H. destruct b as [|b].
  - assert (a = O) by lia. subst a. split; vm_compute; discriminate.
  - pose proof (ofNat_pos (S b) ltac:(lia)) as Hb.
    pose proof (ofNat_nonneg a) as Ha.
    pose proof (ofNat_le a (S b) H) as Hab.
    split.
    + apply Qle_shift_div_l; [exact Hb | lra].
    + apply Qle_shift_div_r; [exact Hb | lra].
Qed.

Lemma wonOf_length (l : list Bet) :
  (List.length (wonOf l) <= List.length l)%nat.
Proof. apply filter_length_le. Qed.

Lemma bandRow_winRate (settled : list Bet) (band : Band.t) :
  0 <= BandRow.winRate (Insights.bandRow settled band) <= 1 /\
  (BandRow.wins (Insights.bandRow settled band)
   <= BandRow.bets (Insights.bandRow settled band))%nat.
Proof.
  unfold Insights.bandRow.
  destruct (List.length (List.filter (Insights.inBandOf band) settled))
    as [|n] eqn:E; cbn [BandRow.winRate BandRow.wins BandRow.bets].
  - split; [split; [apply Qle_refl | discriminate] | lia].
  - rewrite <- E. split.
    + apply ratio_unit, wonOf_length.
    + apply wonOf_length.
Qed.

(** The win rate of the tracker, the hit rate of the insights page and
    the win rate of every odds band are between 0 and 1, and no band
    has more wins than bets. *)
Theorem rates_between_0_and_1 (m : Tracker.Model) (mi : Insights.Model) :
  0 <= Totals.winRate (Tracker.totals m) <= 1 /\
  0 <= Metrics.hitRate (Insights.metrics mi) <= 1 /\
  Forall (fun r => 0 <= BandRow.winRate r <= 1
                   /\ (BandRow.wins r <= BandRow.bets r)%nat)
    (Insights.oddsBands mi).
Proof.
  split; [|split].
  - unfold Tracker.totals. cbn [Totals.winRate].
    destruct (List.length (settledOf (Tracker.bets m))) as [|n] eqn:E.
    + split; [apply Qle_refl | discriminate].
    + rewrite <- E. apply ratio_unit, wonOf_length.
  - unfold Insights.metrics. cbn [Metrics.hitRate].
    destruct (List.length (settledOf (Insights.filteredBets mi)))
      as [|n] eqn:E.
    + split; [apply Qle_refl | discriminate].
    + rewrite <- E. apply ratio_unit, wonOf_length.
  - unfold Insights.oddsBands. apply Forall_map, Forall_forall.
    intros band _. apply bandRow_winRate.
Qed.

Lemma clamp01_bounds (v : Q) : 0 <= Tracker.clamp01 v <= 1.
Proof.
  unfold Tracker.clamp01, JS.max, JS.min. split.
  - apply Q.le_max_l.
  - apply Q.max_lub; [discriminate | apply Q.le_min_l].
Qed.

(** The goal progress is between 0 and 1 for every ledger and every
    target, so the progress bar is never wider than its track. *)
Theorem progress_between_0_and_1 (m : Tracker.Model) :
  0 <= Totals.progress (Tracker.totals m) <= 1.
Proof.
  unfold Tracker.totals. cbn [Totals.progress].
  destruct (JS.gtb (targetProfit (Tracker.state m)) 0).
  - apply clamp01_bounds.
  - split; [apply Qle_refl | discriminate].
Qed.


Lemma status_partition (l : list Bet) :
  List.length l
  = (List.length (settledOf l) + List.length (Insights.pendingOf l))%nat.
Proof.
  unfold settledOf, Insights.pendingOf.
  induction l as [|b l IH]; simpl; [reflexivity|].
  destruct (status b); simpl; lia.
Qed.

Lemma stake_partition (l : list Bet) :
  Spec.total (map stake l)
  == Spec.total (map stake (settledOf l))
     + Spec.total (map stake (Insights.pendingOf l)).
Proof.
  unfold settledOf, Insights.pendingOf.
  induction l as [|b l IH]; simpl; [lra|].
  destruct (status b); simpl; rewrite IH; lra.
Qed.

(** On the insights page every record of the view is either settled or
    pending: the two counts add up to the number of bets, and, with
    stakes in whole pence, the settled and the pending stake add up to
    the stake of all the bets. *)
Theorem metrics_settled_and_pending (mi : Insights.Model) :
  Forall Spec.wholePence (Insights.filteredBets mi) ->
  let k := Insights.metrics mi in
  Metrics.totalBets k = (Metrics.settled k + Metrics.pending k)%nat /\
  Metrics.stakedAll k == Metrics.stakedSettled k + Metrics.pendingStake k.
Proof.
  intros Hw k. subst k. unfold Insights.metrics.
  cbn [Metrics.totalBets Metrics.settled Metrics.pending Metrics.stakedAll
       Metrics.stakedSettled Metrics.pendingStake].
  split; [apply status_partition|].
  set (l := Insights.filteredBets mi) in *.
  rewrite (toFixed_id 2 (sumStake l) (sumStake_onGrid l Hw)).
  rewrite (toFixed_id 2 (sumStake (settledOf l))).
  2:{ apply sumStake_onGrid, Forall_sublist_filter, Hw. }
  rewrite (toFixed_id 2 (sumStake (Insights.pendingOf l))).
  2:{ apply sumStake_onGrid, Forall_sublist_filter, Hw. }
  rewrite !sumStake_total. apply stake_partition.
Qed.

Lemma metrics_settled_and_pending_witness :
  Metrics.totalBets (Insights.metrics Sample.weekInsights) = 4%nat /\
  Metrics.stakedAll (Insights.metrics Sample.weekInsights)
  == Metrics.stakedSettled (Insights.metrics Sample.weekInsights)
     + Metrics.pendingStake (Insights.metrics Sample.weekInsights).
Proof.
  destruct (metrics_settled_and_pending Sample.weekInsights) as [Hn Hs].
  - repeat constructor; apply onGrid_check; vm_compute; reflexivity.
  - split; [rewrite Hn; reflexivity | exact Hs].
Defined.

(** ** Grouping: what each entry of a grouped view holds *)

Section FoldGroup.
Context {K V : Type}.
Variable eqb : K -> K -> bool.
Hypothesis eqb_eq : forall a b, eqb a b = true <-> a = b.
Variable zero : V.
Variable key : Bet -> K.
Variable keep : Bet -> bool.
Variable upd : V -> Bet -> V.
Variable step : list (K * V) -> Bet -> list (K * V).
Hypothesis step_shape :
  forall m b,
    step m b
    = if keep b
      then JS.mapSet eqb (key b)
             (upd (JS.orElse (JS.mapGet eqb (key b) m) zero) b) m
      else m.

Lemma fold_keys (l : list Bet) (m : list (K * V)) (k : K) :
  In k (map fst (fold_left step l m))
  <-> In k (map fst m)
      \/ exists b, In b l /\ keep b = true /\ key b = k.
Proof.
  revert m. induction l as [|b l IH]; intros m; cbn [fold_left].
  - split; [auto | intros [H | (b & [] & _)]; exact H].
  - rewrite IH, step_shape. destruct (keep b) eqn:E.
    + rewrite (mapSet_keys eqb eqb_eq). split.
      * intros [[-> | H] | (b' & Hb' & Hk)]; auto.
        -- right. exists b. auto with datatypes.
        -- right. exists b'. destruct Hk. auto with datatypes.
      * intros [H | (b' & [<- | Hb'] & Hk & Hkey)]; auto.
        right. exists b'. auto.
    + split.
      * intros [H | (b' & Hb' & Hk)]; auto.
        right. exists b'. destruct Hk. auto with datatypes.
      * intros [H | (b' & [<- | Hb'] & Hk & Hkey)]; auto.
        -- congruence.
        -- right. exists b'. auto.
Qed.

Lemma fold_NoDup (l : list Bet) (m : list (K * V)) :
  NoDup (map fst m) -> NoDup (map fst (fold_left step l m)).
Proof.
  revert m. induction l as [|b l IH]; intros m H; cbn [fold_left].
  - exact H.
  - apply IH. rewrite step_shape. destruct (keep b); [|exact H].
    apply (mapSet_NoDup eqb eqb_eq), H.
Qed.

(** A number [w] of the entries to which a record adds [d]: the entry
    of a key holds the sum of [d] over the records of the key. *)
Variable w : V -> Q.
Variable d : Bet -> Q.
Hypothesis w_upd : forall v b, w (upd v b) == w v + d b.

Lemma fold_weight (l : list Bet) (m : list (K * V)) (k : K) :
  w (JS.orElse (JS.mapGet eqb k (fold_left step l m)) zero)
  == w (JS.orElse (JS.mapGet eqb k m) zero)
     + Spec.total
         (map d (List.filter (fun b => keep b && eqb (key b) k) l)).
Proof.
  revert m. induction l as [|b l IH]; intros m; cbn [fold_left List.filter].
  - simpl. lra.
  - rewrite IH, step_shape. destruct (keep b) eqn:E; cbn [andb].
    + rewrite (mapGet_mapSet_any eqb eqb_eq).
      destruct (eqb (key b) k) eqn:Ek.
      * apply eqb_eq in Ek. subst k. rewrite eqb_refl_of by exact eqb_eq.
        cbn [JS.orElse]. rewrite w_upd, map_cons, total_cons. lra.
      * assert (Ek' : eqb k (key b) = false).
        { destruct (eqb k (key b)) eqn:E2; [|reflexivity].
          apply eqb_eq in E2. subst k.
          rewrite eqb_refl_of in Ek by exact eqb_eq. discriminate. }
        rewrite Ek'. reflexivity.
    + reflexivity.
Qed.
End FoldGroup.

Lemma NoDup_mapGet {K V : Type} (eqb : K -> K -> bool)
  (eqb_eq : forall a b, eqb a b = true <-> a = b)
  (k : K) (v : V) (m : list (K * V)) :
  NoDup (map fst m) -> In (k, v) m -> JS.mapGet eqb k m = Some v.
Proof.
  induction m as [|[k' v'] m IH]; simpl; intros Hnd Hin; [contradiction|].
  inversion Hnd as [|? ? Hk Hm]; subst.
  destruct Hin as [[= -> ->] | Hin].
  - rewrite (eqb_refl_of eqb eqb_eq). reflexivity.
  - destruct (eqb k k') eqn:E.
    + apply eqb_eq in E. subst k'. exfalso. apply Hk.
      apply (in_map fst) in Hin. exact Hin.
    + apply IH; assumption.
Qed.

Lemma category_eqb_eq (a b : FootballCategory) :
  category_eqb a b = true <-> a = b.
Proof. destruct a, b; simpl; split; congruence. Qed.

Lemma key_eqb_eq (a b : option FootballCategory) :
  Insights.key_eqb a b = true <-> a = b.
Proof.
  destruct a as [x|], b as [y|]; simpl; try (split; congruence).
  rewrite category_eqb_eq. split; congruence.
Qed.

Lemma total_if (p q : Bet -> bool) (f : Bet -> Q) (l : list Bet) :
  Spec.total (map (fun b => if p b then f b else 0) (List.filter q l))
  == Spec.total (map f (List.filter (fun b => p b && q b) l)).
Proof.
  induction l as [|b l IH]; [reflexivity|].
  cbn [List.filter]. destruct (q b) eqn:Eq, (p b) eqn:Ep; cbn [andb];
    rewrite ?map_cons, ?total_cons; cbv beta; rewrite ?Ep, ?IH; lra.
Qed.

Lemma total_ones (p q : Bet -> bool) (l : list Bet) :
  Spec.total (map (fun b => if p b then 1 else 0) (List.filter q l))
  == JS.ofNat (List.length (List.filter (fun b => p b && q b) l)).
Proof.
  induction l as [|b l IH]; [reflexivity|].
  cbn [List.filter]. destruct (q b) eqn:Eq, (p b) eqn:Ep; cbn [andb];
    rewrite ?map_cons, ?total_cons; cbv beta; rewrite ?Ep, ?IH; try lra.
  cbn [List.length]. unfold JS.ofNat.
  rewrite Nat2Z.inj_succ, <- Z.add_1_l, inject_Z_plus. reflexivity.
Qed.

Lemma Qeq_refl_eq (x y : Q) : x = y -> x == y.
Proof. intros ->. reflexivity. Qed.

Lemma ofNat_inj (a b : nat) : JS.ofNat a == JS.ofNat b -> a = b.
Proof.
  unfold JS.ofNat, Qeq, inject_Z. simpl. lia.
Qed.

Lemma wonOf_filter (p : Bet -> bool) (l : list Bet) :
  wonOf (List.filter p l)
  = List.filter (fun b => status_eqb (status b) Won && p b) l.
Proof.
  unfold wonOf. induction l as [|b l IH]; simpl; [reflexivity|].
  destruct (p b); simpl; rewrite ?andb_false_r, ?andb_true_r;
    [destruct (status_eqb (status b) Won)|]; rewrite IH; reflexivity.
Qed.

(** The views that group with [accumulate]: by sport, by category, by
    weekday. *)
Section StatGroup.
Context {K : Type}.
Variable eqb : K -> K -> bool.
Hypothesis eqb_eq : forall a b, eqb a b = true <-> a = b.
Variable key : Bet -> K.
Variable keep : Bet -> bool.
Variable step : list (K * Stat.t) -> Bet -> list (K * Stat.t).
Hypothesis step_shape :
  forall m b,
    step m b
    = if keep b
      then JS.mapSet eqb (key b)
             ((fun v b => if isSettled (status b)
                          then Insights.accumulate v b else v)
                (JS.orElse (JS.mapGet eqb (key b) m) Stat.zero) b) m
      else m.

Lemma stat_group (l : list Bet) (k : K) :
  let v := JS.orElse (JS.mapGet eqb k (fold_left step l [])) Stat.zero in
  let mine := Spec.groupOf (fun b => keep b && eqb (key b) k) l in
  Stat.staked v == Spec.total (map stake mine) /\
  Stat.returned v
  == Spec.total (map (fun b => JS.orElse (effectiveReturn b) 0) mine) /\
  Stat.profit v == Spec.total (map Spec.profitOf mine) /\
  Stat.settled v = List.length mine /\
  Stat.wins v = List.length (wonOf mine).
Proof.
  intros v mine. subst v mine. unfold Spec.groupOf.
  pose proof (fold_weight eqb eqb_eq Stat.zero key keep _ step step_shape)
    as W.
  split; [|split; [|split; [|split]]].
  - rewrite (W Stat.staked
               (fun b => if isSettled (status b) then stake b else 0)).
    + cbn [JS.mapGet JS.orElse]. rewrite total_if. exact (Qplus_0_l _).
    + intros v b. destruct (isSettled (status b)); simpl; lra.
  - rewrite (W Stat.returned
               (fun b => if isSettled (status b)
                         then JS.orElse (effectiveReturn b) 0 else 0)).
    + cbn [JS.mapGet JS.orElse]. rewrite total_if. exact (Qplus_0_l _).
    + intros v b. destruct (isSettled (status b)); simpl;
        rewrite ?effectiveReturn_insights; lra.
  - rewrite (W Stat.profit
               (fun b => if isSettled (status b)
                         then Spec.profitOf b else 0)).
    + cbn [JS.mapGet JS.orElse]. rewrite total_if. exact (Qplus_0_l _).
    + intros v b. destruct (isSettled (status b));
        rewrite ?accumulate_profit; lra.
  - apply ofNat_inj.
    rewrite (W (fun v => JS.ofNat (Stat.settled v))
               (fun b => if isSettled (status b) then 1 else 0)).
    + cbn [JS.mapGet JS.orElse]. rewrite total_ones. exact (Qplus_0_l _).
    + intros v b. destruct (isSettled (status b)); simpl; [|lra].
      unfold JS.ofNat. rewrite Nat2Z.inj_add, inject_Z_plus. reflexivity.
  - apply ofNat_inj.
    rewrite (W (fun v => JS.ofNat (Stat.wins v))
               (fun b => if isSettled (status b) && status_eqb (status b) Won
                         then 1 else 0)).
    + cbn [JS.mapGet JS.orElse]. rewrite wonOf_filter.
      rewrite (total_ones
                 (fun b => isSettled (status b) && status_eqb (status b) Won)).
      change (JS.ofNat (Stat.wins Stat.zero)) with 0.
      rewrite Qplus_0_l. apply Qeq_refl_eq. f_equal. f_equal.
      apply filter_ext. intros b.
      destruct (status b), (keep b), (eqb (key b) k); reflexivity.
    + intros v b. destruct (isSettled (status b)); simpl; [|lra].
      destruct (status_eqb (status b) Won); simpl; [|lra].
      unfold JS.ofNat. rewrite Nat2Z.inj_add, inject_Z_plus. reflexivity.
Qed.
End StatGroup.

Lemma sort_descending {A : Type} (f : A -> Q) (l : list A) :
  StronglySorted (fun a b => f b <= f a)
    (JS.sort (fun a b => JS.sign (f b) (f a)) l).
Proof.
  apply (StronglySorted_weaken
           (fun a b => JS.sign (f b) (f a) <> Gt)).
  - intros a b H. apply Qle_alt, H.
  - apply sort_sorted.
    + intros x y H C. unfold JS.sign in *.
      rewrite <- Qgt_alt in H, C. lra.
    + intros x y z H1 H2. unfold JS.sign in *.
      rewrite <- Qle_alt in *. lra.
Qed.

Lemma stat_summarises (v : Stat.t) (mine : list Bet) :
  Stat.staked v == Spec.total (map stake mine) /\
  Stat.returned v
  == Spec.total (map (fun b => JS.orElse (effectiveReturn b) 0) mine) /\
  Stat.profit v == Spec.total (map Spec.profitOf mine) /\
  Stat.settled v = List.length mine /\
  Stat.wins v = List.length (wonOf mine) ->
  Spec.summarises mine (JS.toFixed 2 (Stat.staked v))
    (JS.toFixed 2 (Stat.returned v)) (JS.toFixed 2 (Stat.profit v))
    (Insights.winRateOf v).
Proof.
  intros (H1 & H2 & H3 & H4 & H5). unfold Spec.summarises.
  split; [apply toFixed_comp, H1|].
  split; [apply toFixed_comp, H2|].
  split; [apply toFixed_comp, H3|].
  unfold Insights.winRateOf, Spec.rate. rewrite H4, H5. reflexivity.
Qed.

Lemma bySportStep_shape (m : list (Sport * Stat.t)) (b : Bet) :
  Insights.bySportStep m b
  = if (fun _ : Bet => true) b
    then JS.mapSet sport_eqb (sport b)
           ((fun v b => if isSettled (status b)
                        then Insights.accumulate v b else v)
              (JS.orElse (JS.mapGet sport_eqb (sport b) m) Stat.zero) b) m
    else m.
Proof. reflexivity. Qed.

Lemma byCategoryStep_shape (m : list (option FootballCategory * Stat.t))
  (b : Bet) :
  Insights.byCategoryStep m b
  = if (fun _ : Bet => true) b
    then JS.mapSet Insights.key_eqb (category b)
           ((fun v b => if isSettled (status b)
                        then Insights.accumulate v b else v)
              (JS.orElse (JS.mapGet Insights.key_eqb (category b) m)
                 Stat.zero) b) m
    else m.
Proof. reflexivity. Qed.

(** The table by sport has one row for each sport that has a record in
    the view, also when none of them is settled, and no other row; the
    rows come by descending profit; the staked, returned and profit
    figures of a row are the sums over the settled records of its sport
    in the view, rounded to pence, and its win rate is the share of won
    records among them. *)
Theorem bySport_rows (mi : Insights.Model) :
  let view := Insights.filteredBets mi in
  let rows := Insights.bySport mi in
  NoDup (map SportRow.sport rows) /\
  (forall s : Sport,
      In s (map SportRow.sport rows) <-> exists b, In b view /\ sport b = s) /\
  StronglySorted (fun a b => SportRow.profit b <= SportRow.profit a) rows /\
  Forall (fun r =>
            Spec.summarises
              (Spec.groupOf (fun b => sport_eqb (sport b) (SportRow.sport r))
                 view)
              (SportRow.staked r) (SportRow.returned r) (SportRow.profit r)
              (SportRow.winRate r)) rows.
Proof.
  intros view rows. subst rows. unfold Insights.bySport. fold view.
  set (entries := fold_left Insights.bySportStep view []).
  assert (Hperm : Permutation
                    (JS.sort (fun a b => JS.sign (SportRow.profit b)
                                           (SportRow.profit a))
                       (map Insights.sportRow entries))
                    (map Insights.sportRow entries)) by apply sort_perm.
  assert (Hkeys : map SportRow.sport (map Insights.sportRow entries)
                  = map fst entries).
  { rewrite map_map. apply map_ext. intros [k v]. reflexivity. }
  assert (Hnd : NoDup (map fst entries)).
  { apply (fold_NoDup sport_eqb sport_eqb_eq Stat.zero sport
             (fun _ => true) _ Insights.bySportStep bySportStep_shape).
    constructor. }
  split; [|split; [|split]].
  - apply (Permutation_NoDup
             (Permutation_sym (Permutation_map SportRow.sport Hperm))).
    rewrite Hkeys. exact Hnd.
  - intros s. split.
    + intros H.
      apply (Permutation_in _ (Permutation_map SportRow.sport Hperm)) in H.
      rewrite Hkeys in H.
      apply (fold_keys sport_eqb sport_eqb_eq Stat.zero sport
               (fun _ => true) _ Insights.bySportStep bySportStep_shape) in H.
      destruct H as [[] | (b & Hb & _ & Hs)]. exists b. auto.
    + intros (b & Hb & Hs).
      apply (Permutation_in _
               (Permutation_sym (Permutation_map SportRow.sport Hperm))).
      rewrite Hkeys.
      apply (fold_keys sport_eqb sport_eqb_eq Stat.zero sport
               (fun _ => true) _ Insights.bySportStep bySportStep_shape).
      right. exists b. auto.
  - apply (sort_descending SportRow.profit).
  - apply (Permutation_Forall (Permutation_sym Hperm)).
    apply Forall_map, Forall_forall. intros [k v] Hin.
    pose proof (NoDup_mapGet sport_eqb sport_eqb_eq k v entries Hnd Hin)
      as Hget.
    pose proof (stat_group sport_eqb sport_eqb_eq sport (fun _ => true)
                  Insights.bySportStep bySportStep_shape view k) as Hg.
    cbv zeta in Hg. fold entries in Hg. rewrite Hget in Hg.
    apply (stat_summarises v), Hg.
Qed.

(** The table by category holds the Football records of the view only:
    one row for each category key (["Uncategorised"] for a record
    without category) that has a Football record in the view; the rows
    come by descending profit and hold the figures of the settled
    Football records of their category. *)
Theorem byCategory_rows (mi : Insights.Model) :
  let view := Insights.footballOf (Insights.filteredBets mi) in
  let rows := Insights.byCategory mi in
  NoDup (map CategoryRow.category rows) /\
  (forall k : option FootballCategory,
      In k (map CategoryRow.category rows)
      <-> exists b, In b (Insights.filteredBets mi) /\ sport b = Football
                    /\ category b = k) /\
  StronglySorted (fun a b => CategoryRow.profit b <= CategoryRow.profit a)
    rows /\
  Forall (fun r =>
            Spec.summarises
              (Spec.groupOf
                 (fun b => Insights.key_eqb (category b)
                             (CategoryRow.category r)) view)
              (CategoryRow.staked r) (CategoryRow.returned r)
              (CategoryRow.profit r) (CategoryRow.winRate r)) rows.
Proof.
  intros view rows. subst rows. unfold Insights.byCategory. fold view.
  set (entries := fold_left Insights.byCategoryStep view []).
  assert (Hperm : Permutation
                    (JS.sort (fun a b => JS.sign (CategoryRow.profit b)
                                           (CategoryRow.profit a))
                       (map Insights.categoryRow entries))
                    (map Insights.categoryRow entries)) by apply sort_perm.
  assert (Hkeys : map CategoryRow.category (map Insights.categoryRow entries)
                  = map fst entries).
  { rewrite map_map. apply map_ext. intros [k v]. reflexivity. }
  assert (Hnd : NoDup (map fst entries)).
  { apply (fold_NoDup Insights.key_eqb key_eqb_eq Stat.zero category
             (fun _ => true) _ Insights.byCategoryStep byCategoryStep_shape).
    constructor. }
  assert (Hk : forall k, In k (map fst entries)
                         <-> exists b, In b view /\ category b = k).
  { intros k. unfold entries.
    rewrite (fold_keys Insights.key_eqb key_eqb_eq Stat.zero category
               (fun _ => true) _ Insights.byCategoryStep
               byCategoryStep_shape).
    split.
    - intros [[] | (b & Hb & _ & Hc)]. exists b. auto.
    - intros (b & Hb & Hc). right. exists b. auto. }
  split; [|split; [|split]].
  - apply (Permutation_NoDup
             (Permutation_sym (Permutation_map CategoryRow.category Hperm))).
    rewrite Hkeys. exact Hnd.
  - intros k. split.
    + intros H.
      apply (Permutation_in _ (Permutation_map CategoryRow.category Hperm))
        in H.
      rewrite Hkeys in H. apply Hk in H. destruct H as (b & Hb & Hc).
      apply filter_In in Hb. destruct Hb as [Hb Hf].
      apply sport_eqb_eq in Hf. exists b. auto.
    + intros (b & Hb & Hf & Hc).
      apply (Permutation_in _
               (Permutation_sym
                  (Permutation_map CategoryRow.category Hperm))).
      rewrite Hkeys. apply Hk. exists b. split; [|exact Hc].
      apply filter_In. split; [exact Hb | apply sport_eqb_eq, Hf].
  - apply (sort_descending CategoryRow.profit).
  - apply (Permutation_Forall (Permutation_sym Hperm)).
    apply Forall_map, Forall_forall. intros [k v] Hin.
    pose proof (NoDup_mapGet Insights.key_eqb key_eqb_eq k v entries Hnd Hin)
      as Hget.
    pose proof (stat_group Insights.key_eqb key_eqb_eq category
                  (fun _ => true) Insights.byCategoryStep
                  byCategoryStep_shape view k) as Hg.
    cbv zeta in Hg. fold entries in Hg. rewrite Hget in Hg.
    apply (stat_summarises v), Hg.
Qed.

Lemma byWeekdayStep_shape (getDay : string -> option nat)
  (m : list (option string * Stat.t)) (b : Bet) :
  Insights.byWeekdayStep getDay m b
  = if (fun b => isSettled (status b)) b
    then JS.mapSet Insights.day_eqb (Insights.dayName getDay (date b))
           ((fun v b => if isSettled (status b)
                        then Insights.accumulate v b else v)
              (JS.orElse
                 (JS.mapGet Insights.day_eqb
                    (Insights.dayName getDay (date b)) m) Stat.zero) b) m
    else m.
Proof.
  unfold Insights.byWeekdayStep. destruct (isSettled (status b)); reflexivity.
Qed.

(** The table by weekday always has the seven days, each once, by
    descending profit; the row of a day holds the figures of the settled
    records of the view whose date falls on that day, and nothing but
    zeros when there is none. *)
Theorem byWeekday_rows (getDay : string -> option nat)
  (mi : Insights.Model) :
  let view := Insights.filteredBets mi in
  let rows := Insights.byWeekday getDay mi in
  Permutation (map WeekdayRow.day rows)
    ["Sun"; "Mon"; "Tue"; "Wed"; "Thu"; "Fri"; "Sat"]%string /\
  StronglySorted (fun a b => WeekdayRow.profit b <= WeekdayRow.profit a)
    rows /\
  Forall (fun r =>
            Spec.summarises
              (Spec.groupOf
                 (fun b => Insights.day_eqb
                             (Insights.dayName getDay (date b))
                             (Some (WeekdayRow.day r))) view)
              (WeekdayRow.staked r) (WeekdayRow.returned r)
              (WeekdayRow.profit r) (WeekdayRow.winRate r)) rows.
Proof.
  intros view rows. subst rows. unfold Insights.byWeekday. fold view.
  set (map0 := fold_left (Insights.byWeekdayStep getDay) view []).
  assert (Hperm : Permutation
                    (JS.sort (fun a b => JS.sign (WeekdayRow.profit b)
                                           (WeekdayRow.profit a))
                       (map (Insights.weekdayRow map0) Insights.names))
                    (map (Insights.weekdayRow map0) Insights.names))
    by apply sort_perm.
  split; [|split].
  - rewrite (Permutation_map WeekdayRow.day Hperm), map_map.
    reflexivity.
  - apply (sort_descending WeekdayRow.profit).
  - apply (Permutation_Forall (Permutation_sym Hperm)).
    apply Forall_map, Forall_forall. intros day _.
    pose proof (stat_group Insights.day_eqb day_eqb_eq
                  (fun b => Insights.dayName getDay (date b))
                  (fun b => isSettled (status b))
                  (Insights.byWeekdayStep getDay)
                  (byWeekdayStep_shape getDay) view (Some day)) as Hg.
    cbv zeta in Hg. fold map0 in Hg.
    unfold Insights.weekdayRow.
    cbn [WeekdayRow.day WeekdayRow.staked WeekdayRow.returned
         WeekdayRow.profit WeekdayRow.winRate].
    replace (Spec.groupOf
               (fun b => Insights.day_eqb (Insights.dayName getDay (date b))
                           (Some day)) view)
      with (Spec.groupOf
              (fun b => isSettled (status b)
                        && Insights.day_eqb
                             (Insights.dayName getDay (date b)) (Some day))
              view).
    + apply stat_summarises, Hg.
    + unfold Spec.groupOf. apply filter_ext. intros b.
      destruct (isSettled (status b)); reflexivity.
Qed.

Lemma weekday_table_example :
  map (fun r => (WeekdayRow.day r, WeekdayRow.profit r))
    (Insights.byWeekday Platform.getDay Sample.weekInsights)
  = [ ("Tue", 1400 # 100); ("Sun", 0 # 100); ("Mon", 0 # 100);
      ("Thu", 0 # 100); ("Fri", 0 # 100); ("Sat", 0 # 100);
      ("Wed", -500 # 100) ]%string.
Proof. reflexivity. Qed.

(** ** Monthly profit and loss *)

Lemma monthlyStep_shape (m : list (string * MonthStat.t)) (b : Bet) :
  Insights.monthlyStep m b
  = if (fun b => isSettled (status b)) b
    then JS.mapSet String.eqb (JS.slice 0 7 (date b))
           ((fun v b =>
               MonthStat.mk (MonthStat.staked v + stake b)
                 (MonthStat.returned v
                  + JS.orElse (Insights.effectiveReturn b) 0)
                 (MonthStat.profit v
                  + (JS.orElse (Insights.effectiveReturn b) 0 - stake b)))
              (JS.orElse
                 (JS.mapGet String.eqb (JS.slice 0 7 (date b)) m)
                 MonthStat.zero) b) m
    else m.
Proof.
  unfold Insights.monthlyStep. destruct (isSettled (status b)); reflexivity.
Qed.

Lemma StronglySorted_strict {A B : Type} (R S : A -> A -> Prop) (f : A -> B)
  (l : list A) :
  (forall a b, R a b -> f a <> f b -> S a b) ->
  StronglySorted R l -> NoDup (map f l) -> StronglySorted S l.
Proof.
  intros HRS. induction 1 as [|x l Hs IH Hx]; intros Hnd; constructor.
  - apply IH. inversion Hnd; assumption.
  - inversion Hnd as [|? ? Hnot _]; subst.
    rewrite Forall_forall in *. intros y Hy. apply HRS; [apply Hx, Hy|].
    intros E. apply Hnot. rewrite E. apply in_map, Hy.
Qed.

(** The monthly table has one row for each month (the first seven
    characters of the date) that has a settled record in the view; the
    rows come in strictly ascending order of the month; a row holds the
    stakes, the returns and the profits of the settled records of its
    month, added up and rounded to pence. *)
Theorem monthly_rows (mi : Insights.Model) :
  let view := Insights.filteredBets mi in
  let rows := Insights.monthly mi in
  StronglySorted
    (fun a b => String.ltb (MonthRow.month a) (MonthRow.month b) = true)
    rows /\
  (forall k : string,
      In k (map MonthRow.month rows)
      <-> exists b, In b view /\ isSettled (status b) = true
                    /\ JS.slice 0 7 (date b) = k) /\
  Forall (fun r =>
            let mine :=
              Spec.groupOf
                (fun b => String.eqb (JS.slice 0 7 (date b))
                            (MonthRow.month r)) view in
            MonthRow.staked r = JS.toFixed 2 (Spec.total (map stake mine)) /\
            MonthRow.returned r
            = JS.toFixed 2
                (Spec.total
                   (map (fun b => JS.orElse (effectiveReturn b) 0) mine)) /\
            MonthRow.profit r
            = JS.toFixed 2 (Spec.total (map Spec.profitOf mine))) rows.
Proof.
  intros view rows. subst rows. unfold Insights.monthly. fold view.
  set (entries := fold_left Insights.monthlyStep view []).
  set (cmp := fun a b => JS.localeCompare (MonthRow.month a)
                           (MonthRow.month b)).
  pose proof (sort_perm cmp (map Insights.monthRow entries)) as Hperm.
  assert (Hkeys : map MonthRow.month (map Insights.monthRow entries)
                  = map fst entries).
  { rewrite map_map. apply map_ext. intros [k v]. reflexivity. }
  assert (Hnd : NoDup (map fst entries)).
  { apply (fold_NoDup String.eqb String.eqb_eq MonthStat.zero
             (fun b => JS.slice 0 7 (date b))
             (fun b => isSettled (status b)) _ Insights.monthlyStep
             monthlyStep_shape).
    constructor. }
  split; [|split].
  - apply (StronglySorted_strict (fun a b => cmp a b <> Gt) _ MonthRow.month).
    + intros a b Hle Hne. unfold cmp, JS.localeCompare in Hle.
      unfold String.ltb.
      destruct (String.compare (MonthRow.month a) (MonthRow.month b)) eqn:E;
        try congruence.
      apply String.compare_eq_iff in E. contradiction.
    + apply sort_sorted.
      * intros x y. apply string_compare_total.
      * intros x y z. apply string_compare_trans.
    + apply (Permutation_NoDup
               (Permutation_sym (Permutation_map MonthRow.month Hperm))).
      rewrite Hkeys. exact Hnd.
  - intros k.
    assert (Hk : In k (map fst entries)
                 <-> exists b, In b view /\ isSettled (status b) = true
                               /\ JS.slice 0 7 (date b) = k).
    { unfold entries.
      rewrite (fold_keys String.eqb String.eqb_eq MonthStat.zero
                 (fun b => JS.slice 0 7 (date b))
                 (fun b => isSettled (status b)) _ Insights.monthlyStep
                 monthlyStep_shape).
      split; [intros [[] | H]; exact H | intros H; right; exact H]. }
    rewrite <- Hk, <- Hkeys. split.
    + apply Permutation_in, Permutation_map, Hperm.
    + apply Permutation_in, Permutation_sym, Permutation_map, Hperm.
  - apply (Permutation_Forall (Permutation_sym Hperm)).
    apply Forall_map, Forall_forall. intros [k v] Hin.
    pose proof (NoDup_mapGet String.eqb String.eqb_eq k v entries Hnd Hin)
      as Hget.
    pose proof (fold_weight String.eqb String.eqb_eq MonthStat.zero
                  (fun b => JS.slice 0 7 (date b))
                  (fun b => isSettled (status b)) _ Insights.monthlyStep
                  monthlyStep_shape) as W.
    cbn [Insights.monthRow MonthRow.month MonthRow.staked MonthRow.returned
         MonthRow.profit].
    unfold Spec.groupOf.
    split; [|split]; apply toFixed_comp.
    + rewrite <- (Qplus_0_l (Spec.total _)).
      pose proof (W MonthStat.staked stake) as W1.
      specialize (W1 ltac:(intros; simpl; lra) view [] k).
      fold entries in W1. rewrite Hget in W1. exact W1.
    + rewrite <- (Qplus_0_l (Spec.total _)).
      pose proof (W MonthStat.returned
                    (fun b => JS.orElse (effectiveReturn b) 0)) as W1.
      specialize (W1 ltac:(intros; simpl; rewrite effectiveReturn_insights;
                           lra) view [] k).
      fold entries in W1. rewrite Hget in W1. exact W1.
    + rewrite <- (Qplus_0_l (Spec.total _)).
      pose proof (W MonthStat.profit Spec.profitOf) as W1.
      specialize (W1 ltac:(intros; unfold Spec.profitOf; simpl;
                           rewrite effectiveReturn_insights; lra)
                    view [] k).
      fold entries in W1. rewrite Hget in W1. exact W1.
Qed.

Section FoldTotal.
Context {K V : Type}.
Variable eqb : K -> K -> bool.
Variable zero : V.
Variable key : Bet -> K.
Variable keep : Bet -> bool.
Variable upd : V -> Bet -> V.
Variable step : list (K * V) -> Bet -> list (K * V).
Hypothesis step_shape :
  forall m b,
    step m b
    = if keep b
      then JS.mapSet eqb (key b)
             (upd (JS.orElse (JS.mapGet eqb (key b) m) zero) b) m
      else m.
Variable w : V -> Q.
Variable d : Bet -> Q.
Hypothesis w_zero : w zero == 0.
Hypothesis w_upd : forall v b, w (upd v b) == w v + d b.

(** The numbers [w] of all the entries add up to the sum of [d] over
    the records the loop keeps. *)
Lemma fold_total (l : list Bet) (m : list (K * V)) :
  Spec.total (map (fun e => w (snd e)) (fold_left step l m))
  == Spec.total (map (fun e => w (snd e)) m)
     + Spec.total (map d (List.filter keep l)).
Proof.
  revert m. induction l as [|b l IH]; intros m; cbn [fold_left List.filter].
  - simpl. lra.
  - rewrite IH, step_shape. destruct (keep b).
    + rewrite (mapSet_weight eqb zero w _ _ _ w_zero), w_upd,
        map_cons, total_cons. lra.
    + reflexivity.
Qed.

Variable P : V -> Prop.
Variable ok : Bet -> Prop.
Hypothesis P_zero : P zero.
Hypothesis P_upd : forall v b, P v -> ok b -> P (upd v b).

Lemma fold_all (l : list Bet) (m : list (K * V)) :
  Forall ok (List.filter keep l) ->
  Forall (fun e => P (snd e)) m ->
  Forall (fun e => P (snd e)) (fold_left step l m).
Proof.
  revert m. induction l as [|b l IH]; intros m Hl Hm;
    cbn [fold_left List.filter] in *.
  - exact Hm.
  - rewrite step_shape. destruct (keep b).
    + inversion Hl as [|? ? Hb Hl']; subst. apply IH; [exact Hl'|].
      apply mapSet_all; [exact Hm|].
      apply P_upd; [|exact Hb]. apply mapGet_all; assumption.
    + apply IH; assumption.
Qed.
End FoldTotal.

(** With stakes in whole pence the profits of the monthly rows add up
    to the profit of the key metrics. *)
Theorem monthly_profit_total (mi : Insights.Model) :
  Forall Spec.wholePence (settledOf (Insights.filteredBets mi)) ->
  Spec.total (map MonthRow.profit (Insights.monthly mi))
  == Metrics.profit (Insights.metrics mi).
Proof.
  intros Hw. rewrite (metrics_profit mi Hw). unfold Insights.monthly.
  set (view := Insights.filteredBets mi) in *.
  rewrite (total_perm _ _ (Permutation_map _ (sort_perm _ _))), map_map.
  assert (Hgrid : Forall (fun e => JS.onGrid 2 (MonthStat.profit (snd e)))
                    (fold_left Insights.monthlyStep view [])).
  { apply (fold_all String.eqb MonthStat.zero
             (fun b => JS.slice 0 7 (date b))
             (fun b => isSettled (status b)) _ Insights.monthlyStep
             monthlyStep_shape
             (fun v => JS.onGrid 2 (MonthStat.profit v)) Spec.wholePence).
    - apply onGrid_0.
    - intros v b Hv Hb. cbn [MonthStat.profit].
      apply onGrid_plus; [exact Hv|]. rewrite effectiveReturn_insights.
      apply profitOf_onGrid, Hb.
    - exact Hw.
    - constructor. }
  rewrite (total_ext
             (fun e => MonthRow.profit (Insights.monthRow e))
             (fun e => MonthStat.profit (snd e))).
  - rewrite (fold_total String.eqb MonthStat.zero
               (fun b => JS.slice 0 7 (date b))
               (fun b => isSettled (status b)) _ Insights.monthlyStep
               monthlyStep_shape MonthStat.profit Spec.profitOf).
    + simpl. fold (settledOf view). lra.
    + reflexivity.
    + intros v b. unfold Spec.profitOf. simpl.
      rewrite effectiveReturn_insights. lra.
  - intros [k v] Hin. rewrite Forall_forall in Hgrid.
    apply (toFixed_id 2 _ (Hgrid _ Hin)).
Qed.

Lemma monthly_profit_total_witness :
  Spec.total (map MonthRow.profit (Insights.monthly Sample.weekInsights))
  == Metrics.profit (Insights.metrics Sample.weekInsights).
Proof.
  apply (monthly_profit_total Sample.weekInsights).
  repeat constructor; apply onGrid_check; vm_compute; reflexivity.
Defined.

(** ** The median *)

Lemma sorted_nth_le (l : list Q) (i j : nat) :
  StronglySorted Qle l -> (i <= j)%nat -> (j < List.length l)%nat ->
  nth i l 0 <= nth j l 0.
Proof.
  intros Hs. revert i j. induction Hs as [|x l _ IH Hx]; intros i j Hij Hj.
  - simpl in Hj. lia.
  - destruct j as [|j].
    + assert (i = O) by lia. subst i. apply Qle_refl.
    + simpl in Hj. destruct i as [|i].
      * simpl. rewrite Forall_forall in Hx. apply Hx, nth_In. lia.
      * simpl. apply IH; lia.
Qed.

Lemma sort_numbers_sorted (nums : list Q) :
  StronglySorted Qle (JS.sort JS.sign nums).
Proof.
  apply (StronglySorted_weaken (fun a b => JS.sign a b <> Gt)).
  - intros a b H. apply Qle_alt, H.
  - apply sort_sorted.
    + intros x y H C. unfold JS.sign in *.
      rewrite <- Qgt_alt in H, C. lra.
    + intros x y z H1 H2. unfold JS.sign in *.
      rewrite <- Qle_alt in *. lra.
Qed.

Lemma half_positive (n : nat) :
  (0 < n)%nat -> Nat.modulo n 2 = O -> (1 <= Nat.div n 2)%nat.
Proof.
  intros Hn Hm. pose proof (Nat.div_mod_eq n 2) as H. rewrite Hm in H. lia.
Qed.

(** The median splits the numbers in two halves: the numbers can be
    arranged as a lower part of [n / 2] numbers, none above the median,
    followed by the others, none below it. *)
Theorem median_splits (nums : list Q) :
  nums <> [] ->
  exists lo hi : list Q,
    Permutation (lo ++ hi) nums /\
    List.length lo = Nat.div (List.length nums) 2 /\
    Forall (fun x => x <= Insights.median nums) lo /\
    Forall (fun x => Insights.median nums <= x) hi.
Proof.
  intros Hne.
  set (arr := JS.sort JS.sign nums).
  set (mid := Nat.div (List.length arr) 2).
  assert (Hperm : Permutation arr nums) by apply sort_perm.
  assert (Hlen : List.length arr = List.length nums)
    by apply (Permutation_length Hperm).
  assert (Hpos : (0 < List.length arr)%nat).
  { rewrite Hlen. destruct nums; [congruence | simpl; lia]. }
  assert (Hmid : (mid < List.length arr)%nat)
    by (apply Nat.div_lt; lia).
  pose proof (sort_numbers_sorted nums) as Hs. fold arr in Hs.
  assert (Hmed : Insights.median nums
                 = if Nat.eqb (Nat.modulo (List.length arr) 2) 0
                   then (nth (mid - 1) arr 0 + nth mid arr 0) / 2
                   else nth mid arr 0).
  { destruct nums; [congruence | reflexivity]. }
  assert (Hmid_def : mid = Nat.div (List.length arr) 2) by reflexivity.
  clearbody mid. clearbody arr.
  assert (Hlo : forall x, In x (firstn mid arr) ->
                          exists i, (i < mid)%nat /\ nth i arr 0 = x).
  { intros x Hx. destruct (In_nth _ _ 0 Hx) as (i & Hi & E).
    rewrite length_firstn in Hi. exists i. split; [lia|].
    rewrite nth_firstn in E.
    destruct (Nat.ltb_spec i mid); [exact E | lia]. }
  assert (Hhi : forall y, In y (skipn mid arr) ->
                          exists i, (mid <= i < List.length arr)%nat
                                    /\ nth i arr 0 = y).
  { intros y Hy. destruct (In_nth _ _ 0 Hy) as (i & Hi & E).
    rewrite length_skipn in Hi. exists (mid + i)%nat. split; [lia|].
    rewrite nth_skipn in E. exact E. }
  exists (firstn mid arr), (skipn mid arr).
  split; [rewrite firstn_skipn; exact Hperm|].
  split; [rewrite length_firstn, <- Hlen, <- Hmid_def; lia|].
  rewrite Hmed. unfold JS.number in *.
  destruct (Nat.eqb (Nat.modulo (List.length arr) 2) 0) eqn:Ev.
  - apply Nat.eqb_eq in Ev.
    assert (H1 : (1 <= mid)%nat).
    { rewrite Hmid_def. apply half_positive; assumption. }
    pose proof (sorted_nth_le arr (mid - 1) mid Hs ltac:(lia) Hmid) as Hab.
    split; apply Forall_forall.
    + intros x Hx. destruct (Hlo x Hx) as (i & Hi & <-).
      assert (G1 : (i <= mid - 1)%nat) by lia.
      assert (G2 : (mid - 1 < List.length arr)%nat) by lia.
      pose proof (sorted_nth_le arr i (mid - 1) Hs G1 G2) as Hxa.
      apply Qle_shift_div_l; lra.
    + intros y Hy. destruct (Hhi y Hy) as (i & Hi & <-).
      assert (G1 : (mid <= i)%nat) by lia.
      assert (G2 : (i < List.length arr)%nat) by lia.
      pose proof (sorted_nth_le arr mid i Hs G1 G2) as Hby.
      apply Qle_shift_div_r; lra.
  - split; apply Forall_forall.
    + intros x Hx. destruct (Hlo x Hx) as (i & Hi & <-).
      apply (sorted_nth_le arr i mid Hs); lia.
    + intros y Hy. destruct (Hhi y Hy) as (i & Hi & <-).
      apply (sorted_nth_le arr mid i Hs); lia.
Qed.

Lemma median_splits_witness :
  Insights.median [5; 10; 5; 20] == 7.5 /\
  exists lo hi : list Q,
    Permutation (lo ++ hi) [5; 10; 5; 20] /\
    Forall (fun x => x <= Insights.median [5; 10; 5; 20]) lo /\
    Forall (fun x => Insights.median [5; 10; 5; 20] <= x) hi.
Proof.
  split; [reflexivity|].
  destruct (median_splits [5; 10; 5; 20]) as (lo & hi & Hp & _ & Hl & Hh).
  - discriminate.
  - exists lo, hi. auto.
Defined.

(** ** The ledger: order, adding, editing, deleting *)

(** The ledger view shows the records that pass the filter by
    descending date, and the records of one date in the order they have
    in the list of bets. *)
Theorem filteredBets_order (m : Tracker.Model) :
  StronglySorted (fun a b => Spec.dateLe (date b) (date a))
    (Tracker.filteredBets m) /\
  forall d : string,
    List.filter (fun b => String.eqb (date b) d) (Tracker.filteredBets m)
    = List.filter (fun b => String.eqb (date b) d)
        (List.filter (Tracker.passes (Tracker.filter m)) (Tracker.bets m)).
Proof.
  unfold Tracker.filteredBets. split.
  - apply (StronglySorted_weaken
             (fun a b => Tracker.byDateDescending a b <> Gt)).
    + intros a b H. apply dateLe_compare, H.
    + apply sort_sorted.
      * intros x y. apply string_compare_total.
      * intros x y z H1 H2. unfold Tracker.byDateDescending in *.
        apply (string_compare_trans (date z) (date y) (date x)); assumption.
  - intros d. apply sort_stable.
    intros x y Hxy Hx Hy. apply String.eqb_eq in Hx, Hy.
    unfold Tracker.byDateDescending, JS.localeCompare in Hxy.
    rewrite Hx, Hy, string_compare_refl in Hxy. discriminate.
Qed.

Lemma addDisabled_after_add (Number : string -> option JS.number)
  (now uid : string) (m : Tracker.Model) :
  Tracker.addDisabled Number m = false ->
  Tracker.addDisabled Number (Tracker.addBet Number now uid m) = true.
Proof.
  intros H. unfold Tracker.addBet. rewrite H. reflexivity.
Qed.

(** Adding clears the description of the form, and a form without
    description adds nothing: a second [addBet] on the state the first
    one left, before anything is typed, leaves the ledger as the first
    left it. *)
Theorem addBet_twice (Number : string -> option JS.number)
  (now uid now' uid' : string) (m : Tracker.Model) :
  Tracker.addBet Number now' uid' (Tracker.addBet Number now uid m)
  = Tracker.addBet Number now uid m.
Proof.
  destruct (Tracker.addDisabled Number m) eqn:E.
  - unfold Tracker.addBet. rewrite E, E. reflexivity.
  - pose proof (addDisabled_after_add Number now uid m E) as H.
    unfold Tracker.addBet at 1. rewrite H. reflexivity.
Qed.

(** The record [addBet] stores when the form is accepted: it comes
    first, carries the new identifier and the time of the call as
    creation and update time, a trimmed description that is not empty,
    a stake in whole pence that is not negative, odds in thousandths
    that are at least 1, and a category only when its sport is
    Football; the undo slot and the other records are untouched. *)
Theorem addBet_record (Number : string -> option JS.number)
  (now uid : string) (m : Tracker.Model) :
  Tracker.addDisabled Number m = false ->
  exists b : Bet,
    Tracker.bets (Tracker.addBet Number now uid m) = b :: Tracker.bets m /\
    Tracker.lastDeleted (Tracker.addBet Number now uid m)
    = Tracker.lastDeleted m /\
    id b = uid /\ createdAt b = now /\ updatedAt b = now /\
    description b = JS.trim (Form.description (Tracker.form m)) /\
    description b <> EmptyString /\
    Spec.wholePence b /\ 0 <= stake b /\
    JS.onGrid 3 (oddsDecimal b) /\ 1 <= oddsDecimal b /\
    (sport b <> Football -> category b = None).
Proof.
  intros H. unfold Tracker.addBet. rewrite H.
  unfold Tracker.addDisabled in H.
  apply orb_false_iff in H. destruct H as [H Ho].
  apply orb_false_iff in H. destruct H as [Hd Hs].
  apply Qle_bool_false in Hs, Ho. apply negb_false_iff, truthy_iff in Hd.
  eexists. split; [reflexivity|].
  cbn [id createdAt updatedAt description stake oddsDecimal sport category
       Spec.wholePence Tracker.lastDeleted Tracker.setForm Tracker.setBets].
  repeat (split; [reflexivity|]).
  split; [exact Hd|]. split; [apply toFixed_onGrid|]. split.
  { apply (Qle_trans _ (JS.toFixed 2 0)); [|apply toFixed_mono; lra].
    apply Qle_lteq. right. symmetry. apply toFixed_id, onGrid_0. }
  split; [apply toFixed_onGrid|]. split.
  { assert (H1 : JS.onGrid 3 1) by (exists 1000%Z; reflexivity).
    apply (Qle_trans _ (JS.toFixed 3 1)); [|apply toFixed_mono; lra].
    apply Qle_lteq. right. symmetry. apply toFixed_id, H1. }
  intros Hsp. destruct (sport_eqb (Form.sport (Tracker.form m)) Football)
    eqn:E; [|reflexivity].
  apply sport_eqb_eq in E. contradiction.
Qed.

Lemma addBet_record_witness :
  exists b : Bet,
    Tracker.bets
      (Tracker.addBet Platform.Number Sample.later "g1"
         (Tracker.setForm (fun _ => Sample.gapForm) (Sample.ledger 100 [])))
    = [b] /\ id b = "g1"%string /\ 1 <= oddsDecimal b.
Proof.
  destruct (addBet_record Platform.Number Sample.later "g1"
              (Tracker.setForm (fun _ => Sample.gapForm)
                 (Sample.ledger 100 [])))
    as (b & Hb & _ & Hi & _ & _ & _ & _ & _ & _ & _ & Ho & _).
  - reflexivity.
  - exists b. auto.
Defined.

Lemma Forall2_map_same {A : Type} (R : A -> A -> Prop) (f : A -> A)
  (l : list A) : (forall x, R x (f x)) -> Forall2 R l (map f l).
Proof.
  intros H. induction l as [|x l IH]; simpl; constructor; auto.
Qed.

(** An edit keeps the ledger in place: as many records in the same
    order, each with its identifier, date, description, sport and
    creation time; the records of other identifiers are untouched, the
    edited one takes the status of the edit, the time of the edit as
    update time and a stake in whole pence; [editingId] is reset and the
    undo slot is left alone.  An edit of an identifier the ledger does
    not hold changes no record. *)
Theorem saveEdit_frame (Number : string -> option JS.number)
  (now i : string) (m : Tracker.Model) :
  let m' := Tracker.saveEdit Number now i m in
  Forall2 (fun b b' =>
             id b' = id b /\ date b' = date b /\
             description b' = description b /\ sport b' = sport b /\
             createdAt b' = createdAt b /\
             (id b <> i -> b' = b) /\
             (id b = i ->
              status b' = EditVals.status (Tracker.editVals m) /\
              updatedAt b' = now /\ Spec.wholePence b' /\
              JS.onGrid 3 (oddsDecimal b')))
    (Tracker.bets m) (Tracker.bets m') /\
  Tracker.editingId m' = None /\
  Tracker.lastDeleted m' = Tracker.lastDeleted m /\
  (~ In i (map id (Tracker.bets m)) -> Tracker.bets m' = Tracker.bets m).
Proof.
  intros m'. subst m'. unfold Tracker.saveEdit.
  cbn [Tracker.bets Tracker.setBets Tracker.setEditingId Tracker.editingId
       Tracker.lastDeleted].
  split; [|split; [reflexivity | split; [reflexivity|]]].
  - apply Forall2_map_same. intros b.
    destruct (String.eqb (id b) i) eqn:E; cbn [negb].
    + apply String.eqb_eq in E. unfold Tracker.editedBet.
      cbn [id date description sport createdAt status updatedAt stake
           oddsDecimal Spec.wholePence].
      do 5 (split; [reflexivity|]).
      split; [intros Hne; contradiction|].
      intros _. do 2 (split; [reflexivity|]).
      split; apply toFixed_onGrid.
    + apply String.eqb_neq in E.
      do 5 (split; [reflexivity|]).
      split; [intros _; reflexivity | intros He; contradiction].
  - intros Hnot. rewrite <- (map_id (Tracker.bets m)) at 2.
    apply map_ext_in. intros b Hb.
    destruct (String.eqb (id b) i) eqn:E; [|reflexivity].
    apply String.eqb_eq in E. exfalso. apply Hnot. rewrite <- E.
    apply in_map, Hb.
Qed.


Lemma deleteBet_frame (i : string) (m : Tracker.Model) :
  (forall b : Bet,
      In b (Tracker.bets (Tracker.deleteBet i m))
      <-> In b (Tracker.bets m) /\ id b <> i).
Proof.
  intros b. unfold Tracker.deleteBet.
  cbn [Tracker.bets Tracker.setBets Tracker.setLastDeleted].
  rewrite filter_In, negb_true_iff, String.eqb_neq. reflexivity.
Qed.



(** The undo slot holds one record.  After two deletes the undo gives
    back the second record only: the first one is gone for good, and a
    further undo changes nothing. *)
Theorem second_delete_forfeits_first (i j : string) (m : Tracker.Model) :
  NoDup (map id (Tracker.bets m)) ->
  i <> j -> In i (map id (Tracker.bets m)) ->
  In j (map id (Tracker.bets m)) ->
  let m' := Tracker.undoDelete (Tracker.deleteBet j (Tracker.deleteBet i m)) in
  (forall b : Bet,
      In b (Tracker.bets m') <-> In b (Tracker.bets m) /\ id b <> i) /\
  Tracker.lastDeleted m' = None /\
  Tracker.undoDelete m' = m'.
Proof.
  intros Hnd Hij Hi Hj m'.
  assert (Hnd' : NoDup (map id (Tracker.bets (Tracker.deleteBet i m)))).
  { unfold Tracker.deleteBet.
    cbn [Tracker.bets Tracker.setBets Tracker.setLastDeleted].
    revert Hnd. generalize (Tracker.bets m). intros l.
    induction l as [|b l IH]; simpl; intros H; [constructor|].
    inversion H as [|? ? Hb Hl]; subst.
    destruct (negb (String.eqb (id b) i)); simpl; [|apply IH, Hl].
    constructor; [|apply IH, Hl].
    intros Hin. apply Hb. apply in_map_iff in Hin.
    destruct Hin as (x & Hx & Hin). apply filter_In in Hin.
    rewrite <- Hx. apply in_map, Hin. }
  assert (Hj' : In j (map id (Tracker.bets (Tracker.deleteBet i m)))).
  { apply in_map_iff in Hj. destruct Hj as (b & Hb & Hin).
    apply in_map_iff. exists b. split; [exact Hb|].
    apply (deleteBet_frame i m b). split; [exact Hin|]. congruence. }
  destruct (find_filter_unique j _ Hnd' Hj')
    as (d & Hf & Hd & Hid & Hnot & Hperm).
  assert (Hm' : Tracker.bets m'
                = d :: List.filter (fun b => negb (String.eqb (id b) j))
                         (Tracker.bets (Tracker.deleteBet i m))
                /\ Tracker.lastDeleted m' = None).
  { assert (Hl0 : Tracker.lastDeleted
                     (Tracker.deleteBet j (Tracker.deleteBet i m)) = Some d)
      by exact Hf.
    subst m'. unfold Tracker.undoDelete. rewrite Hl0.
    split; reflexivity. }
  destruct Hm' as [Hb Hl].
  split; [|split].
  - intros b. rewrite Hb. split.
    + intros Hin. apply (Permutation_in _ Hperm) in Hin.
      apply (proj1 (deleteBet_frame i m b)), Hin.
    + intros Hin. apply (Permutation_in _ (Permutation_sym Hperm)).
      apply (proj2 (deleteBet_frame i m b)), Hin.
  - exact Hl.
  - unfold Tracker.undoDelete at 1. rewrite Hl. reflexivity.
Qed.

Lemma second_delete_forfeits_first_witness :
  map id
    (Tracker.bets
       (Tracker.undoDelete
          (Tracker.deleteBet "b4"
             (Tracker.deleteBet "b2" (Sample.ledger 100 Sample.week)))))
  = ["b4"; "b1"; "b3"]%string /\
  forall b : Bet,
    In b (Tracker.bets
            (Tracker.undoDelete
               (Tracker.deleteBet "b4"
                  (Tracker.deleteBet "b2" (Sample.ledger 100 Sample.week)))))
    <-> In b Sample.week /\ id b <> "b2"%string.
Proof.
  split; [reflexivity|].
  apply (second_delete_forfeits_first "b2" "b4"
           (Sample.ledger 100 Sample.week)).
  - simpl. repeat constructor; simpl; intuition discriminate.
  - discriminate.
  - simpl. auto.
  - simpl. auto.
Defined.

(** An undo restores at most once: it empties the slot, so a second
    undo, or an undo with an empty slot, changes nothing; with a record
    in the slot it puts that record in front of the ledger. *)
Theorem undoDelete_once (m : Tracker.Model) :
  Tracker.undoDelete (Tracker.undoDelete m) = Tracker.undoDelete m /\
  Tracker.lastDeleted (Tracker.undoDelete m) = None /\
  Tracker.bets (Tracker.undoDelete m)
  = match Tracker.lastDeleted m with
    | Some d => d :: Tracker.bets m
    | None => Tracker.bets m
    end.
Proof.
  unfold Tracker.undoDelete.
  destruct (Tracker.lastDeleted m) as [d|] eqn:E.
  - cbn [Tracker.lastDeleted Tracker.setLastDeleted Tracker.setBets
         Tracker.bets]. repeat split.
  - rewrite E. repeat split.
Qed.

(** ** The cumulative series and its chart *)

Lemma runningPoints_dates (run : Q) (l : list Bet) :
  map Point.date (Spec.runningPoints run l) = map date l.
Proof.
  revert run. induction l as [|b l IH]; intros run; simpl; [reflexivity|].
  rewrite IH. reflexivity.
Qed.

Lemma runningPoints_onGrid (run : Q) (l : list Bet) :
  Forall (fun p => JS.onGrid 2 (Point.value p)) (Spec.runningPoints run l).
Proof.
  revert run. induction l as [|b l IH]; intros run; simpl; constructor.
  - apply toFixed_onGrid.
  - apply IH.
Qed.

Lemma cumulative_unfold (m : Tracker.Model) :
  Tracker.cumulative m
  = match JS.sort Tracker.byDateAscending (settledOf (Tracker.bets m)) with
    | [] => []
    | b :: l => Point.mk (date b) 0 :: Spec.runningPoints 0 (b :: l)
    end.
Proof.
  unfold Tracker.cumulative. rewrite cumulative_fold.
  destruct (JS.sort Tracker.byDateAscending (settledOf (Tracker.bets m)));
    reflexivity.
Qed.

Lemma sorted_by_date (l : list Bet) :
  StronglySorted (fun a b => Spec.dateLe (date a) (date b))
    (JS.sort Tracker.byDateAscending l).
Proof.
  apply (StronglySorted_weaken
           (fun a b => Tracker.byDateAscending a b <> Gt)).
  - intros a b H. apply dateLe_compare, H.
  - apply sort_sorted.
    + intros x y. apply string_compare_total.
    + intros x y z. apply string_compare_trans.
Qed.

Lemma cumulative_shape_length (m : Tracker.Model) :
  List.length (Tracker.cumulative m)
  = match settledOf (Tracker.bets m) with
    | [] => O
    | l => S (List.length l)
    end.
Proof.
  rewrite cumulative_unfold.
  pose proof (sort_perm Tracker.byDateAscending (settledOf (Tracker.bets m)))
    as Hperm.
  destruct (JS.sort Tracker.byDateAscending (settledOf (Tracker.bets m)))
    as [|b l].
  - apply Permutation_nil in Hperm. rewrite Hperm. reflexivity.
  - cbn [List.length].
    assert (Hl : List.length (Spec.runningPoints 0 (b :: l))
                 = List.length (b :: l)).
    { rewrite <- (length_map Point.date), runningPoints_dates.
      apply length_map. }
    rewrite Hl, (Permutation_length Hperm).
    destruct (settledOf (Tracker.bets m)) as [|x t] eqn:E.
    + apply Permutation_sym, Permutation_nil in Hperm. discriminate.
    + reflexivity.
Qed.

(** The series of the chart is empty when no record is settled, and
    has one point more than there are settled records otherwise; its
    dates never go back, and its values are whole pence. *)
Theorem cumulative_shape (m : Tracker.Model) :
  List.length (Tracker.cumulative m)
  = match settledOf (Tracker.bets m) with
    | [] => O
    | l => S (List.length l)
    end /\
  StronglySorted Spec.dateLe (map Point.date (Tracker.cumulative m)) /\
  Forall (fun p => JS.onGrid 2 (Point.value p)) (Tracker.cumulative m).
Proof.
  split; [apply cumulative_shape_length|].
  rewrite cumulative_unfold.
  pose proof (sorted_by_date (settledOf (Tracker.bets m))) as Hs.
  destruct (JS.sort Tracker.byDateAscending (settledOf (Tracker.bets m)))
    as [|b l].
  - split; constructor.
  - split.
    + cbn [map Point.date]. rewrite runningPoints_dates.
      constructor.
      * induction Hs as [|x t Hs IH Hx]; simpl; constructor.
        -- exact IH.
        -- apply Forall_map. exact Hx.
      * constructor.
        -- apply dateLe_compare. rewrite string_compare_refl. discriminate.
        -- inversion Hs as [|? ? _ Hx]; subst. apply Forall_map. exact Hx.
    + constructor; [apply onGrid_0 | apply runningPoints_onGrid].
Qed.

Lemma minOf_spec (a : Q) (xs : list Q) :
  JS.minOf a xs <= a /\ forall x, In x xs -> JS.minOf a xs <= x.
Proof.
  unfold JS.minOf. revert a. induction xs as [|y xs IH]; intros a; simpl.
  - split; [apply Qle_refl | intros x []].
  - destruct (IH (Qmin a y)) as [H1 H2].
    pose proof (Q.le_min_l a y). pose proof (Q.le_min_r a y).
    split; [lra|]. intros x [<- | Hx]; [lra | apply H2, Hx].
Qed.

Lemma maxOf_spec (a : Q) (xs : list Q) :
  a <= JS.maxOf a xs /\ forall x, In x xs -> x <= JS.maxOf a xs.
Proof.
  unfold JS.maxOf. revert a. induction xs as [|y xs IH]; intros a; simpl.
  - split; [apply Qle_refl | intros x []].
  - destruct (IH (Qmax a y)) as [H1 H2].
    pose proof (Q.le_max_l a y). pose proof (Q.le_max_r a y).
    split; [lra|]. intros x [<- | Hx]; [lra | apply H2, Hx].
Qed.

Lemma Forall_mapiFrom {A B : Type} (P : B -> Prop) (f : A -> nat -> B)
  (k : nat) (l : list A) :
  (forall x i, In x l -> (k <= i)%nat -> P (f x i)) ->
  Forall P (JS.mapiFrom k f l).
Proof.
  revert k. induction l as [|x l IH]; intros k H; simpl; constructor.
  - apply H; [left; reflexivity | lia].
  - apply IH. intros y i Hy Hi. apply H; [right; exact Hy | lia].
Qed.

Lemma mapiFrom_length {A B : Type} (f : A -> nat -> B) (k : nat)
  (l : list A) : List.length (JS.mapiFrom k f l) = List.length l.
Proof.
  revert k. induction l as [|x l IH]; intros k; simpl; [reflexivity|].
  rewrite IH. reflexivity.
Qed.

(** A fraction of a length that is not negative stays within the
    length. *)
Lemma fraction_of (t h : Q) :
  0 <= t -> t <= 1 -> 0 <= h -> 0 <= t * h /\ t * h <= h.
Proof.
  intros H0 H1 Hh. split.
  - apply Qmult_le_0_compat; assumption.
  - rewrite <- (Qmult_1_l h) at 2. apply Qmult_le_compat_r; assumption.
Qed.

Lemma quotient_unit (a d : Q) :
  0 <= a -> a <= d -> 0 < d -> 0 <= a / d /\ a / d <= 1.
Proof.
  intros Ha Had Hd. split.
  - apply Qle_shift_div_l; [exact Hd | lra].
  - apply Qle_shift_div_r; [exact Hd | lra].
Qed.

(** The indices the chart gives its points. *)
Lemma chartPoints_xs {A : Type} (g : A -> Q) (h : A -> string) (k : nat)
  (l : list A) :
  map ChartPoint.x
    (JS.mapiFrom k (fun p i => ChartPoint.mk (JS.ofNat i) (g p) (h p)) l)
  = map JS.ofNat (seq k (List.length l)).
Proof.
  revert k. induction l as [|x l IH]; intros k; simpl; [reflexivity|].
  rewrite IH. reflexivity.
Qed.

Lemma last_map_seq (n : nat) :
  last (map JS.ofNat (seq 0 (S n))) 0 = JS.ofNat n.
Proof.
  rewrite seq_S, map_app.
  change (map JS.ofNat [(0 + n)%nat]) with [JS.ofNat n].
  apply last_last.
Qed.

Lemma scaleY_in (points : list ChartPoint.t) (height y : Q) :
  32 <= height ->
  JS.minOf 0 (map ChartPoint.y points) <= y ->
  y <= JS.maxOf 0 (map ChartPoint.y points) ->
  16 <= LineChart.scaleY points height y /\
  LineChart.scaleY points height y <= height - 16.
Proof.
  intros Hh Hlo Hhi. unfold LineChart.scaleY, LineChart.innerH,
    LineChart.padding, JS.max.
  set (minY := JS.minOf 0 (map ChartPoint.y points)) in *.
  set (maxY := JS.maxOf 0 (map ChartPoint.y points)) in *.
  pose proof (Q.le_max_l 1 (maxY - minY)) as H1.
  pose proof (Q.le_max_r 1 (maxY - minY)) as H2.
  set (spanY := Qmax 1 (maxY - minY)) in *.
  destruct (quotient_unit (y - minY) spanY) as [T0 T1]; try lra.
  destruct (fraction_of ((y - minY) / spanY) (height - 16 * 2) T0 T1)
    as [F0 F1]; [lra|].
  unfold JS.number in *. split; lra.
Qed.

Lemma scaleX_in (points : list ChartPoint.t) (x : Q) :
  nth 0 (map ChartPoint.x points) 0 <= x ->
  x <= last (map ChartPoint.x points) 0 ->
  16 <= LineChart.scaleX points x /\ LineChart.scaleX points x <= 720 - 16.
Proof.
  intros Hlo Hhi. unfold LineChart.scaleX, LineChart.innerW,
    LineChart.width, LineChart.padding, JS.max.
  set (lo := nth 0 (map ChartPoint.x points) 0) in *.
  set (hi := last (map ChartPoint.x points) 0) in *.
  pose proof (Q.le_max_l 1 (hi - lo)) as H1.
  pose proof (Q.le_max_r 1 (hi - lo)) as H2.
  set (D := Qmax 1 (hi - lo)) in *.
  assert (F0 : 0 <= (720 - 16 * 2) * (x - lo) / D)
    by (apply Qle_shift_div_l; lra).
  assert (F1 : (720 - 16 * 2) * (x - lo) / D <= 720 - 16 * 2)
    by (apply Qle_shift_div_r; lra).
  unfold JS.number in *. split; lra.
Qed.

Lemma path_lines {A : Type} (X Y : A -> Q) (k : nat) (l : list A) :
  (1 <= k)%nat ->
  map (fun c : ascii * Q * Q => fst (fst c))
    (JS.mapiFrom k
       (fun p i => ((if Nat.eqb i 0 then "M" else "L")%char, X p, Y p)) l)
  = repeat "L"%char (List.length l).
Proof.
  revert k. induction l as [|x l IH]; intros k Hk; [reflexivity|].
  cbn [JS.mapiFrom map fst List.length repeat].
  destruct k as [|k]; [lia|]. cbn [Nat.eqb]. f_equal. apply IH. lia.
Qed.

Lemma last_In {A : Type} (x d : A) (l : list A) :
  In (last (x :: l) d) (x :: l).
Proof.
  revert x. induction l as [|y l IH]; intros x.
  - left. reflexivity.
  - right. apply (IH y).
Qed.

(** The chart stays in its box: with a height of 32 or more, every
    point of the path of the cumulative series, the zero line and the
    dot on the last point lie within the view box of 720 by [height],
    16 from its border; the path starts with a move and goes on with
    lines; there is no drawing exactly when no record is settled. *)
Theorem lineChart_in_box (m : Tracker.Model) (height : Q) :
  32 <= height ->
  match LineChart.render (Tracker.chartPoints m) height with
  | None => settledOf (Tracker.bets m) = []
  | Some drawing =>
      settledOf (Tracker.bets m) <> [] /\
      Forall (fun c => Spec.inBox 720 height 16 (snd (fst c)) (snd c))
        (LineChart.path drawing) /\
      16 <= LineChart.zeroY drawing <= height - 16 /\
      Spec.inBox 720 height 16 (fst (LineChart.dot drawing))
        (snd (LineChart.dot drawing)) /\
      map (fun c => fst (fst c)) (LineChart.path drawing)
      = "M"%char
        :: repeat "L"%char (List.length (settledOf (Tracker.bets m)))
  end.
Proof.
  intros Hh.
  pose proof (cumulative_shape_length m) as Hlen.
  unfold Tracker.chartPoints, JS.mapi in *.
  set (mk := fun (p : Point.t) (i : nat) =>
               ChartPoint.mk (JS.ofNat i) (Point.value p) (Point.date p)).
  set (c := Tracker.cumulative m) in *.
  set (points := JS.mapiFrom 0 mk c).
  assert (Hn : List.length points = List.length c)
    by apply mapiFrom_length.
  assert (Hxs : map ChartPoint.x points
                = map JS.ofNat (seq 0 (List.length c)))
    by apply chartPoints_xs.
  destruct c as [|p0 c'] eqn:Ec.
  { simpl. destruct (settledOf (Tracker.bets m)); [reflexivity|].
    simpl in Hlen. discriminate. }
  assert (Hlo : nth 0 (map ChartPoint.x points) 0 = 0)
    by (rewrite Hxs; reflexivity).
  assert (Hhi : last (map ChartPoint.x points) 0
                = JS.ofNat (List.length c')).
  { rewrite Hxs. apply last_map_seq. }
  assert (Hin : forall p, In p points ->
                  Spec.inBox 720 height 16
                    (LineChart.scaleX points (ChartPoint.x p))
                    (LineChart.scaleY points height (ChartPoint.y p))).
  { intros p Hp.
    assert (Hx : In (ChartPoint.x p) (map ChartPoint.x points))
      by apply in_map, Hp.
    rewrite Hxs in Hx. apply in_map_iff in Hx.
    destruct Hx as (i & Hi & Hseq). apply in_seq in Hseq.
    destruct (scaleX_in points (ChartPoint.x p)) as [X0 X1].
    - rewrite Hlo, <- Hi. apply ofNat_nonneg.
    - rewrite Hhi, <- Hi. apply ofNat_le. simpl in Hseq. lia.
    - destruct (scaleY_in points height (ChartPoint.y p) Hh) as [Y0 Y1].
      + apply minOf_spec, in_map, Hp.
      + apply maxOf_spec, in_map, Hp.
      + unfold Spec.inBox. auto. }
  assert (Hpts : points = mk p0 O :: JS.mapiFrom 1 mk c') by reflexivity.
  assert (Hsome : LineChart.render points height
                  = Some (LineChart.mkDrawing
                            (JS.mapiFrom 0
                               (fun p i =>
                                  ((if Nat.eqb i 0 then "M" else "L")%char,
                                   LineChart.scaleX points (ChartPoint.x p),
                                   LineChart.scaleY points height
                                     (ChartPoint.y p))) points)
                            (LineChart.scaleY points height 0)
                            (LineChart.scaleX points
                               (ChartPoint.x
                                  (last points
                                     (ChartPoint.mk 0 0 EmptyString))),
                             LineChart.scaleY points height
                               (ChartPoint.y
                                  (last points
                                     (ChartPoint.mk 0 0 EmptyString)))))).
  { unfold LineChart.render, JS.mapi. rewrite Hpts at 1. reflexivity. }
  rewrite Hsome. cbn [LineChart.path LineChart.zeroY LineChart.dot fst snd].
  split; [|split; [|split; [|split]]].
  - intros E. rewrite E in Hlen. simpl in Hlen. discriminate.
  - apply Forall_mapiFrom. intros p i Hp _. cbn [fst snd]. apply Hin, Hp.
  - apply scaleY_in;
      [exact Hh | apply (proj1 (minOf_spec _ _))
       | apply (proj1 (maxOf_spec _ _))].
  - apply Hin. rewrite Hpts. apply last_In.
  - assert (Hs : List.length (settledOf (Tracker.bets m)) = List.length c').
    { destruct (settledOf (Tracker.bets m)); simpl in Hlen |- *;
        [discriminate | lia]. }
    rewrite Hs, Hpts. cbn [JS.mapiFrom map fst Nat.eqb]. f_equal.
    rewrite <- (mapiFrom_length mk 1 c'). apply path_lines. lia.
Qed.

Lemma lineChart_in_box_witness :
  exists drawing : LineChart.Drawing,
    LineChart.render (Tracker.chartPoints (Sample.ledger 100 Sample.week)) 180
    = Some drawing /\
    Forall (fun c => Spec.inBox 720 180 16 (snd (fst c)) (snd c))
      (LineChart.path drawing).
Proof.
  assert (Hh : 32 <= 180) by (unfold Qle; simpl; lia).
  pose proof (lineChart_in_box (Sample.ledger 100 Sample.week) 180 Hh) as H.
  destruct (LineChart.render
              (Tracker.chartPoints (Sample.ledger 100 Sample.week)) 180)
    as [drawing|].
  - exists drawing. split; [reflexivity | apply H].
  - discriminate H.
Defined.





(** ** The category table of the ledger *)

Lemma categoryStatStep_shape (m : list (option FootballCategory * CatStat.t))
  (b : Bet) :
  Tracker.categoryStatStep m b
  = if (fun _ : Bet => true) b
    then JS.mapSet key_eqb (category b)
           ((fun cur b =>
               let cur :=
                 CatStat.mk (CatStat.bets cur + 1) (CatStat.settled cur)
                   (CatStat.stakedSettled cur) (CatStat.returned cur)
                   (CatStat.wins cur) in
               if isSettled (status b) then
                 CatStat.mk (CatStat.bets cur) (CatStat.settled cur + 1)
                   (CatStat.stakedSettled cur + stake b)
                   (CatStat.returned cur + JS.orElse (effectiveReturn b) 0)
                   (if status_eqb (status b) Won then CatStat.wins cur + 1
                    else CatStat.wins cur)
               else cur)
              (JS.orElse (JS.mapGet key_eqb (category b) m) CatStat.zero) b) m
    else m.
Proof. reflexivity. Qed.

Lemma ofNat_succ (n : nat) : JS.ofNat (n + 1) == JS.ofNat n + 1.
Proof.
  unfold JS.ofNat. rewrite Nat2Z.inj_add, inject_Z_plus. reflexivity.
Qed.

Lemma total_count (q : Bet -> bool) (l : list Bet) :
  Spec.total (map (fun _ => 1) (List.filter q l))
  == JS.ofNat (List.length (List.filter q l)).
Proof.
  induction (List.filter q l) as [|b t IH]; [reflexivity|].
  rewrite map_cons, total_cons, IH. cbn [List.length].
  unfold JS.ofNat. rewrite Nat2Z.inj_succ, <- Z.add_1_l, inject_Z_plus.
  reflexivity.
Qed.

Lemma catStat_group (l : list Bet) (k : option FootballCategory) :
  let v := JS.orElse
             (JS.mapGet key_eqb k (fold_left Tracker.categoryStatStep l []))
             CatStat.zero in
  let all := List.filter (fun b => key_eqb (category b) k) l in
  let mine := Spec.groupOf (fun b => key_eqb (category b) k) l in
  CatStat.bets v = List.length all /\
  CatStat.settled v = List.length mine /\
  CatStat.wins v = List.length (wonOf mine) /\
  CatStat.stakedSettled v == Spec.total (map stake mine) /\
  CatStat.returned v
  == Spec.total (map (fun b => JS.orElse (effectiveReturn b) 0) mine).
Proof.
  intros v all mine. subst v all mine. unfold Spec.groupOf.
  pose proof (fold_weight key_eqb key_eqb_eq CatStat.zero category
                (fun _ => true) _ Tracker.categoryStatStep
                categoryStatStep_shape) as W.
  split; [|split; [|split; [|split]]].
  - apply ofNat_inj.
    rewrite (W (fun v => JS.ofNat (CatStat.bets v)) (fun _ => 1)).
    + cbn [JS.mapGet JS.orElse]. rewrite total_count. exact (Qplus_0_l _).
    + intros v b. cbv beta. destruct (isSettled (status b)); simpl;
        apply ofNat_succ.
  - apply ofNat_inj.
    rewrite (W (fun v => JS.ofNat (CatStat.settled v))
               (fun b => if isSettled (status b) then 1 else 0)).
    + cbn [JS.mapGet JS.orElse]. rewrite total_ones. exact (Qplus_0_l _).
    + intros v b. destruct (isSettled (status b)); simpl; [|lra].
      apply ofNat_succ.
  - apply ofNat_inj.
    rewrite (W (fun v => JS.ofNat (CatStat.wins v))
               (fun b => if isSettled (status b) && status_eqb (status b) Won
                         then 1 else 0)).
    + cbn [JS.mapGet JS.orElse]. rewrite wonOf_filter.
      rewrite (total_ones
                 (fun b => isSettled (status b) && status_eqb (status b) Won)).
      change (JS.ofNat (CatStat.wins CatStat.zero)) with 0.
      rewrite Qplus_0_l. apply Qeq_refl_eq. f_equal. f_equal.
      apply filter_ext. intros b.
      destruct (status b), (key_eqb (category b) k); reflexivity.
    + intros v b. destruct (isSettled (status b)); simpl; [|lra].
      destruct (status_eqb (status b) Won); simpl; [|lra].
      apply ofNat_succ.
  - rewrite (W CatStat.stakedSettled
               (fun b => if isSettled (status b) then stake b else 0)).
    + cbn [JS.mapGet JS.orElse]. rewrite total_if. exact (Qplus_0_l _).
    + intros v b. destruct (isSettled (status b)); simpl; lra.
  - rewrite (W CatStat.returned
               (fun b => if isSettled (status b)
                         then JS.orElse (effectiveReturn b) 0 else 0)).
    + cbn [JS.mapGet JS.orElse]. rewrite total_if. exact (Qplus_0_l _).
    + intros v b. destruct (isSettled (status b)); simpl; lra.
Qed.

(** The category table of the ledger holds the Football records of the
    filtered list: one row for each category key (["Uncategorised"] for
    a record without category) that has a Football record in the list,
    by descending profit.  The bets of a row count all its records,
    pending ones too; the settled count, the staked, returned and profit
    figures and the win rate are those of its settled records; the
    return on investment is the rounded profit over the stakes before
    rounding, and 0 when no stake is settled. *)
Theorem footballCategoryStats_rows (m : Tracker.Model) :
  let view := List.filter (fun b => sport_eqb (sport b) Football)
                (Tracker.filteredBets m) in
  let rows := Tracker.footballCategoryStats m in
  NoDup (map CatStatRow.category rows) /\
  (forall k : option FootballCategory,
      In k (map CatStatRow.category rows)
      <-> exists b, In b (Tracker.filteredBets m) /\ sport b = Football
                    /\ category b = k) /\
  StronglySorted (fun a b => CatStatRow.profit b <= CatStatRow.profit a)
    rows /\
  Forall (fun r =>
            let all := List.filter
                         (fun b => key_eqb (category b) (CatStatRow.category r))
                         view in
            let mine := Spec.groupOf
                          (fun b => key_eqb (category b)
                                      (CatStatRow.category r)) view in
            CatStatRow.bets r = List.length all /\
            CatStatRow.settled r = List.length mine /\
            Spec.summarises mine (CatStatRow.staked r) (CatStatRow.returned r)
              (CatStatRow.profit r) (CatStatRow.winRate r) /\
            CatStatRow.roi r
            == (if JS.gtb (Spec.total (map stake mine)) 0
                then CatStatRow.profit r / Spec.total (map stake mine)
                else 0)) rows.
Proof.
  intros view rows. subst rows. unfold Tracker.footballCategoryStats.
  fold view.
  set (entries := fold_left Tracker.categoryStatStep view []).
  set (cmp := fun a b => JS.sign (CatStatRow.profit b) (CatStatRow.profit a)).
  assert (Hperm : Permutation
                    (JS.sort cmp (map Tracker.categoryStatRow entries))
                    (map Tracker.categoryStatRow entries)) by apply sort_perm.
  assert (Hkeys : map CatStatRow.category
                    (map Tracker.categoryStatRow entries)
                  = map fst entries).
  { rewrite map_map. apply map_ext. intros [k v]. reflexivity. }
  assert (Hnd : NoDup (map fst entries)).
  { apply (fold_NoDup key_eqb key_eqb_eq CatStat.zero category
             (fun _ => true) _ Tracker.categoryStatStep
             categoryStatStep_shape).
    constructor. }
  assert (Hk : forall k, In k (map fst entries)
                         <-> exists b, In b view /\ category b = k).
  { intros k. unfold entries.
    rewrite (fold_keys key_eqb key_eqb_eq CatStat.zero category
               (fun _ => true) _ Tracker.categoryStatStep
               categoryStatStep_shape).
    split.
    - intros [[] | (b & Hb & _ & Hc)]. exists b. auto.
    - intros (b & Hb & Hc). right. exists b. auto. }
  split; [|split; [|split]].
  - apply (Permutation_NoDup
             (Permutation_sym (Permutation_map CatStatRow.category Hperm))).
    rewrite Hkeys. exact Hnd.
  - intros k. split.
    + intros H.
      apply (Permutation_in _ (Permutation_map CatStatRow.category Hperm))
        in H.
      rewrite Hkeys in H. apply Hk in H. destruct H as (b & Hb & Hc).
      apply filter_In in Hb. destruct Hb as [Hb Hf].
      apply sport_eqb_eq in Hf. exists b. auto.
    + intros (b & Hb & Hf & Hc).
      apply (Permutation_in _
               (Permutation_sym
                  (Permutation_map CatStatRow.category Hperm))).
      rewrite Hkeys. apply Hk. exists b. split; [|exact Hc].
      apply filter_In. split; [exact Hb | apply sport_eqb_eq, Hf].
  - apply (sort_descending CatStatRow.profit).
  - apply (Permutation_Forall (Permutation_sym Hperm)).
    apply Forall_map, Forall_forall. intros [k v] Hin.
    pose proof (NoDup_mapGet key_eqb key_eqb_eq k v entries Hnd Hin) as Hget.
    pose proof (catStat_group view k) as Hg.
    cbv zeta in Hg. fold entries in Hg. rewrite Hget in Hg.
    cbn [JS.orElse] in Hg. destruct Hg as (Hb & Hs & Hw & Hst & Hr).
    cbv zeta. cbn [Tracker.categoryStatRow CatStatRow.category CatStatRow.bets
                   CatStatRow.settled CatStatRow.staked CatStatRow.returned
                   CatStatRow.profit CatStatRow.winRate CatStatRow.roi].
    set (mine := Spec.groupOf (fun b => key_eqb (category b) k) view) in *.
    assert (Hp : CatStat.returned v - CatStat.stakedSettled v
                 == Spec.total (map Spec.profitOf mine)).
    { rewrite Hst, Hr, total_profitOf, sumReturn_total, sumStake_total.
      reflexivity. }
    split; [exact Hb|]. split; [exact Hs|]. split.
    + unfold Spec.summarises.
      split; [apply toFixed_comp, Hst|].
      split; [apply toFixed_comp, Hr|].
      split; [apply toFixed_comp, Hp|].
      unfold Spec.rate. rewrite Hs, Hw. reflexivity.
    + unfold JS.gtb, JS.ltb.
      destruct (Qle_bool (CatStat.stakedSettled v) 0) eqn:E1;
        rewrite Hst in E1; rewrite E1; cbn [negb];
        [reflexivity | rewrite Hst; reflexivity].
Qed.

(** ** The filter in the URL *)

Lemma orUndefined_idem (x : option string) :
  UrlFilter.orUndefined (UrlFilter.orUndefined x) = UrlFilter.orUndefined x.
Proof. destruct x as [[|c s]|]; reflexivity. Qed.

Lemma hydrate_write (f g : UrlFilter.t) :
  UrlFilter.hydrate (UrlFilter.write f) g
  = UrlFilter.mk
      (match UrlFilter.sport f with
       | Some s => Some s
       | None => UrlFilter.sport g
       end)
      (match UrlFilter.status f with
       | Some s => Some s
       | None => UrlFilter.status g
       end)
      (UrlFilter.orUndefined (UrlFilter.from f))
      (UrlFilter.orUndefined (UrlFilter.to f)).
Proof.
  destruct f as [sp st fr to]. unfold UrlFilter.hydrate, UrlFilter.write.
  cbn [UrlFilter.sport UrlFilter.status UrlFilter.from UrlFilter.to
       UrlFilter.qSport UrlFilter.qStatus UrlFilter.qFrom UrlFilter.qTo].
  f_equal.
  - destruct sp as [[]|]; reflexivity.
  - destruct st as [[]|]; reflexivity.
  - destruct fr as [[|c s]|]; reflexivity.
  - destruct to as [[|c s]|]; reflexivity.
Qed.

(** What the writing effect puts in the URL reads back as the filter it
    wrote: read while the filter is still the one written, the sport and
    the status come back as they were and the two dates come back with
    an empty date turned into no date, so a filter without an empty
    date comes back unchanged.  Read while the filter is another one, a
    sport or a status of ["All"] does not come back: its parameter was
    deleted, and the reading effect keeps the sport or the status the
    filter has at that time. *)
Theorem url_write_then_hydrate (f g : UrlFilter.t) :
  let back := UrlFilter.hydrate (UrlFilter.write f) f in
  let other := UrlFilter.hydrate (UrlFilter.write f) g in
  UrlFilter.sport back = UrlFilter.sport f /\
  UrlFilter.status back = UrlFilter.status f /\
  UrlFilter.from back = UrlFilter.orUndefined (UrlFilter.from f) /\
  UrlFilter.to back = UrlFilter.orUndefined (UrlFilter.to f) /\
  (UrlFilter.from f <> Some EmptyString ->
   UrlFilter.to f <> Some EmptyString -> back = f) /\
  (UrlFilter.sport f = None -> UrlFilter.sport other = UrlFilter.sport g) /\
  (UrlFilter.status f = None -> UrlFilter.status other = UrlFilter.status g).
Proof.
  intros back other. subst back other. rewrite !hydrate_write.
  cbn [UrlFilter.sport UrlFilter.status UrlFilter.from UrlFilter.to].
  split; [destruct (UrlFilter.sport f); reflexivity|].
  split; [destruct (UrlFilter.status f); reflexivity|].
  do 2 (split; [reflexivity|]).
  split; [|split; intros ->; reflexivity].
  destruct f as [[sp|] [st|] [[|c s]|] [[|c' s']|]]; cbn; intros H1 H2;
    try reflexivity; congruence.
Qed.

(** The two effects settle: once the reading effect has read a URL,
    writing the filter it left and reading the URL again, the filter
    being that one, gives the same filter, so neither effect has
    anything more to change. *)
Theorem url_sync_settles (q : UrlFilter.Query) (f : UrlFilter.t) :
  let read := UrlFilter.hydrate q f in
  UrlFilter.hydrate (UrlFilter.write read) read = read.
Proof.
  intros read. rewrite hydrate_write.
  assert (Hf : UrlFilter.orUndefined (UrlFilter.from read)
               = UrlFilter.from read) by apply orUndefined_idem.
  assert (Ht : UrlFilter.orUndefined (UrlFilter.to read)
               = UrlFilter.to read) by apply orUndefined_idem.
  rewrite Hf, Ht. clearbody read.
  destruct read as [[sp|] [st|] fr to]; reflexivity.
Qed.
